(** * school-api: the request handlers of the Auth, Course, Teacher and
      Student controllers, embedded as state-passing functions.

    Sources embedded here:
    - [controllers/auth.controller.js]    ([register], [login], [getAllUsers])
    - [controllers/course.controller.js]  ([createCourse] ... [deleteCourse])
    - [controllers/teacher.controller.js] ([createTeacher] ... [deleteTeacher])
    - [controllers/student.controller.js] ([createStudent] ... [deleteStudent])

    Modelling conventions.
    - A JavaScript number that holds an integer is a [Z]; [NaN] is a separate
      constructor of [Number].  The quotient [total / limit] handed to
      [Math.ceil] is an exact rational ([Q]).  The model therefore agrees with
      the IEEE doubles of the program as long as the integers stay below 2^53.
    - A query-string value is a [string] or is absent ([option string]); the
      arrays and objects that the query parser builds for repeated or
      bracketed keys are outside the model.  A [string] holds the UTF-8
      encoding of the text.
    - An [async] handler is a function [World -> Completion _ * World]:
      [Normal r] when the returned promise resolves after the handler has sent
      the response [r], [Throw m] when the promise rejects with an [Error]
      whose message is [m] and the handler has sent nothing.
    - The ORM, the SQL engine, bcrypt and jsonwebtoken are external.  The
      relational store is a record of tables; each call into the persistence
      layer may fail, as scheduled by the [faults] of the world; the hashing
      and signing primitives are the methods of the class [Crypto]. *)

From Stdlib Require Import ZArith List String Ascii Bool Lia QArith Qround.
From Stdlib Require Import Permutation Sorted.
Import ListNotations.

Local Open Scope string_scope.
Local Open Scope Z_scope.

(* ================================================================== *)
(** ** JavaScript primitives used by the handlers *)

Module JS.

(** [Number.MAX_SAFE_INTEGER]: up to it, in absolute value, every integer
    is a double, and the arithmetic of the handlers on such integers is
    exact. *)
Definition MAX_SAFE_INTEGER : Z := 2 ^ 53 - 1.

(** The result of [parseInt]: either [NaN] or an integer.  The integer is
    the one that the digits denote; it is the number that the program holds
    when it is at most [MAX_SAFE_INTEGER] in absolute value (beyond, the
    program holds the nearest double, or [Infinity]). *)
Inductive Number : Type :=
| NaN
| Int (z : Z).

(** [String(v)] for a query value: an absent key reads as [undefined]. *)
Definition ToString (v : option string) : string :=
  match v with
  | Some s => s
  | None => "undefined"
  end.

(** White space skipped by [parseInt] (the one-byte code points). *)
Definition isWhiteSpace (c : ascii) : bool :=
  let n := nat_of_ascii c in
  (Nat.eqb n 9 || Nat.eqb n 10 || Nat.eqb n 11 || Nat.eqb n 12
   || Nat.eqb n 13 || Nat.eqb n 32)%bool.

(** The white space and line terminators of more than one byte, in the
    UTF-8 encoding of the text: U+00A0 ([C2 A0]); U+1680 ([E1 9A 80]);
    U+2000 to U+200A, U+2028, U+2029 and U+202F ([E2 80 ..]); U+205F
    ([E2 81 9F]); U+3000 ([E3 80 80]); U+FEFF ([EF BB BF]). *)
Definition isWhiteSpace2 (c1 c2 : ascii) : bool :=
  (Nat.eqb (nat_of_ascii c1) 194 && Nat.eqb (nat_of_ascii c2) 160)%bool.

Definition isWhiteSpace3 (c1 c2 c3 : ascii) : bool :=
  let n1 := nat_of_ascii c1 in
  let n2 := nat_of_ascii c2 in
  let n3 := nat_of_ascii c3 in
  ((Nat.eqb n1 225 && Nat.eqb n2 154 && Nat.eqb n3 128)
   || (Nat.eqb n1 226 && Nat.eqb n2 128
       && ((Nat.leb 128 n3 && Nat.leb n3 138)
           || Nat.eqb n3 168 || Nat.eqb n3 169 || Nat.eqb n3 175))
   || (Nat.eqb n1 226 && Nat.eqb n2 129 && Nat.eqb n3 159)
   || (Nat.eqb n1 227 && Nat.eqb n2 128 && Nat.eqb n3 128)
   || (Nat.eqb n1 239 && Nat.eqb n2 187 && Nat.eqb n3 191))%bool.

(** The first byte of a white space of two, or of three, bytes. *)
Definition leadsWhiteSpace2 (c : ascii) : bool := Nat.eqb (nat_of_ascii c) 194.

Definition leadsWhiteSpace3 (c : ascii) : bool :=
  let n := nat_of_ascii c in
  (Nat.eqb n 225 || Nat.eqb n 226 || Nat.eqb n 227 || Nat.eqb n 239)%bool.

(** The text without the white space it starts with. *)
Fixpoint trimStart (s : string) : string :=
  match s with
  | String c r =>
      if isWhiteSpace c then trimStart r
      else if leadsWhiteSpace2 c then
        match r with
        | String c2 r2 => if isWhiteSpace2 c c2 then trimStart r2 else s
        | EmptyString => s
        end
      else if leadsWhiteSpace3 c then
        match r with
        | String c2 (String c3 r3) =>
            if isWhiteSpace3 c c2 c3 then trimStart r3 else s
        | _ => s
        end
      else s
  | EmptyString => s
  end.

(** Value of a character read as a digit: [0-9], then [a-z] / [A-Z] from 10. *)
Definition digitValue (c : ascii) : option Z :=
  let n := Z.of_nat (nat_of_ascii c) in
  if (48 <=? n) && (n <=? 57) then Some (n - 48)
  else if (97 <=? n) && (n <=? 122) then Some (n - 87)
  else if (65 <=? n) && (n <=? 90) then Some (n - 55)
  else None.

(** Longest prefix of [s] made of digits of the radix; [acc] is [NaN] until
    the first digit has been read. *)
Fixpoint parseDigits (radix : Z) (s : string) (acc : Number) : Number :=
  match s with
  | EmptyString => acc
  | String c r =>
      match digitValue c with
      | Some d =>
          if d <? radix
          then parseDigits radix r
                 (Int (match acc with NaN => d | Int a => a * radix + d end))
          else acc
      | None => acc
      end
  end.

(** [parseInt(string)] with no radix argument: leading white space, an
    optional sign, an optional [0x] / [0X] prefix, then the digits. *)
Definition parseInt (input : string) : Number :=
  let s := trimStart input in
  let '(sign, s) :=
    match s with
    | String "-"%char r => (-1, r)
    | String "+"%char r => (1, r)
    | _ => (1, s)
    end in
  let '(radix, s) :=
    match s with
    | String "0"%char (String "x"%char r) => (16, r)
    | String "0"%char (String "X"%char r) => (16, r)
    | _ => (10, s)
    end in
  match parseDigits radix s NaN with
  | NaN => NaN
  | Int n => Int (sign * n)
  end.

(** [x || d] on numbers: [NaN] and (either) zero are falsy. *)
Definition or_else (x : Number) (d : Z) : Z :=
  match x with
  | NaN => d
  | Int 0 => d
  | Int z => z
  end.

(** [v === 'lit'] for a query value. *)
Definition strict_eq (v : option string) (lit : string) : bool :=
  match v with
  | Some s => String.eqb s lit
  | None => false
  end.

(** Truthiness of a query value: [undefined] and the empty string are falsy. *)
Definition truthy (v : option string) : bool :=
  match v with
  | Some EmptyString => false
  | Some _ => true
  | None => false
  end.

(** [s.split(',')]; [cur] is the piece read so far. *)
Fixpoint split_from (cur : string) (s : string) : list string :=
  match s with
  | EmptyString => [cur]
  | String c r =>
      if Ascii.eqb c ","%char
      then cur :: split_from EmptyString r
      else split_from (cur ++ String c EmptyString) r
  end.

Definition split_comma (s : string) : list string := split_from EmptyString s.

(** [array.includes(x)] on an array of strings. *)
Definition includes (l : list string) (x : string) : bool :=
  existsb (String.eqb x) l.

Definition lowerChar (c : ascii) : ascii :=
  let n := nat_of_ascii c in
  if (Nat.leb 65 n && Nat.leb n 90)%bool then ascii_of_nat (n + 32) else c.

(** [s.toLowerCase()] on one-byte characters. *)
Fixpoint toLowerCase (s : string) : string :=
  match s with
  | EmptyString => EmptyString
  | String c r => String (lowerChar c) (toLowerCase r)
  end.

(** [Math.ceil] of an exact quotient. *)
Definition Math_ceil (q : Q) : Z := Qceiling q.

(** [a / b] on integer-valued numbers. *)
Definition div (a b : Z) : Q := (inject_Z a / inject_Z b)%Q.

End JS.

(* ================================================================== *)
(** ** JSON values and HTTP responses *)

#[warnings="-register-all"]
Inductive Json : Type :=
| JNull
| JBool (b : bool)
| JNum (n : Z)
| JStr (s : string)
| JArr (items : list Json)
| JObj (fields : list (string * Json)).

(** The keys of a JSON object, in order; any other value has none. *)
Definition keys (j : Json) : list string :=
  match j with
  | JObj fields => map fst fields
  | _ => []
  end.

Definition has_key (k : string) (j : Json) : bool :=
  existsb (String.eqb k) (keys j).

(** Value stored under a key of a JSON object. *)
Definition get_key (k : string) (j : Json) : option Json :=
  match j with
  | JObj fields =>
      match find (fun p => String.eqb k (fst p)) fields with
      | Some p => Some (snd p)
      | None => None
      end
  | _ => None
  end.

(** What a handler sends: the status code and the JSON value of the body. *)
Record Response : Type := mkResponse {
  status : Z;
  json : Json
}.

(* ================================================================== *)
(** ** Data model

    [models/index.js] and the model definitions are not among the sources;
    the records below follow section 3 of the specification.  Each resource
    also has the creation timestamp that the list handlers sort by. *)

(** Modelled from the spec: the User model (id, name, email, password
    hash), defined in [models/], which is not among the sources. *)
Record User : Type := mkUser {
  user_id : Z;
  user_name : string;
  user_email : string;
  user_password : string
}.

(** Modelled from the spec: the Course model (id, title, description and
    the owning reference to one Teacher), defined in [models/]. *)
Record Course : Type := mkCourse {
  course_id : Z;
  course_title : string;
  course_description : string;
  course_TeacherId : Z;
  course_createdAt : Z
}.

(** Modelled from the spec: the Teacher model (id, name, department),
    defined in [models/]. *)
Record Teacher : Type := mkTeacher {
  teacher_id : Z;
  teacher_name : string;
  teacher_department : string;
  teacher_createdAt : Z
}.

(** Modelled from the spec: the Student model (id, name, email), defined in
    [models/]. *)
Record Student : Type := mkStudent {
  student_id : Z;
  student_name : string;
  student_email : string;
  student_createdAt : Z
}.

(** Request bodies.  [POST] carries the attributes of the new record, [PUT]
    any subset of them: a field that the body does not name is [None]. *)
Record CourseValues : Type := mkCourseValues {
  cv_title : string;
  cv_description : string;
  cv_TeacherId : Z
}.

Record CoursePatch : Type := mkCoursePatch {
  cp_title : option string;
  cp_description : option string;
  cp_TeacherId : option Z
}.

Record TeacherValues : Type := mkTeacherValues {
  tv_name : string;
  tv_department : string
}.

Record TeacherPatch : Type := mkTeacherPatch {
  tp_name : option string;
  tp_department : option string
}.

Record StudentValues : Type := mkStudentValues {
  sv_name : string;
  sv_email : string
}.

Record StudentPatch : Type := mkStudentPatch {
  sp_name : option string;
  sp_email : option string
}.

Record Credentials : Type := mkCredentials {
  cred_name : string;
  cred_email : string;
  cred_password : string
}.

(** A table: its rows in insertion order and its auto-increment counter. *)
Record Table (R : Type) : Type := mkTable {
  rows : list R;
  next_id : Z
}.
Arguments mkTable {R} _ _.
Arguments rows {R} _.
Arguments next_id {R} _.

(** Modelled from the spec: the relational tables Users, Courses, Teachers
    and Students and the association table that links Courses and Students
    (section 6); the schema is not among the sources. *)
Record Database : Type := mkDatabase {
  Users : Table User;
  Courses : Table Course;
  Teachers : Table Teacher;
  Students : Table Student;
  CourseStudents : list (Z * Z);    (* (CourseId, StudentId) *)
  strict_sql : bool                 (* the engine rejects a negative LIMIT / OFFSET *)
}.

(** The models a query can name in its [include] option. *)
Inductive ModelRef : Type := db_User | db_Course | db_Teacher | db_Student.

(** What a handler can observe and change.
    - [faults]: for each coming call into the persistence layer, whether it
      raises ([Some message]) or runs ([None]; also when the list is used up);
    - [raised]: the messages of the exceptions the persistence layer has
      raised so far (ghost state, never read by a handler);
    - [now]: the clock, in milliseconds;
    - [salt]: the salt bcrypt draws for the next hash;
    - [JWT_SECRET]: the environment variable of that name. *)
Record World : Type := mkWorld {
  db : Database;
  faults : list (option string);
  raised : list string;
  now : Z;
  salt : string;
  JWT_SECRET : option string
}.

Definition with_db (d : Database) (w : World) : World :=
  mkWorld d (faults w) (raised w) (now w) (salt w) (JWT_SECRET w).
Definition with_faults (f : list (option string)) (w : World) : World :=
  mkWorld (db w) f (raised w) (now w) (salt w) (JWT_SECRET w).
Definition with_raised (r : list string) (w : World) : World :=
  mkWorld (db w) (faults w) r (now w) (salt w) (JWT_SECRET w).

(* ================================================================== *)
(** ** Asynchronous computations: state passing with exceptions *)

Inductive Completion (A : Type) : Type :=
| Normal (a : A)
| Throw (message : string).
Arguments Normal {A} _.
Arguments Throw {A} _.

Definition Async (A : Type) : Type := World -> Completion A * World.

Definition ret {A} (a : A) : Async A := fun w => (Normal a, w).

(** [await m] followed by [k]. *)
Definition bind {A B} (m : Async A) (k : A -> Async B) : Async B :=
  fun w =>
    match m w with
    | (Normal a, w') => k a w'
    | (Throw e, w') => (Throw e, w')
    end.

(** [try { body } catch (err) { handler(err.message) }]. *)
Definition try_catch {A} (body : Async A) (handler : string -> Async A)
  : Async A :=
  fun w =>
    match body w with
    | (Normal a, w') => (Normal a, w')
    | (Throw e, w') => handler e w'
    end.

Declare Scope async_scope.
Delimit Scope async_scope with async.
Notation "x <- m ;; k" := (bind m (fun x => k))
  (at level 61, m at next level, right associativity) : async_scope.
Local Open Scope async_scope.

(** [res.status(code).json(value)] and [res.json(value)]: the response the
    handler sends. *)
Definition res_status_json (code : Z) (value : Json) : Async Response :=
  ret (mkResponse code value).

Definition res_json (value : Json) : Async Response :=
  res_status_json 200 value.

(** A call into the persistence layer.  It uses up one entry of the fault
    schedule ([next_call]); it raises the scheduled fault, if any, or runs
    [op] on the database, which can raise on its own. *)
Definition next_call (w : World) : World := with_faults (tl (faults w)) w.

Definition persistence {A} (op : Database -> Completion (A * Database))
  : Async A :=
  fun w =>
    let w1 := next_call w in
    match faults w with
    | Some m :: _ => (Throw m, with_raised (raised w1 ++ [m]) w1)
    | _ =>
        match op (db w1) with
        | Normal (a, d) => (Normal a, with_db d w1)
        | Throw m => (Throw m, with_raised (raised w1 ++ [m]) w1)
        end
    end.

(** A query that only reads. *)
Definition reading {A} (f : Database -> Completion A)
  : Database -> Completion (A * Database) :=
  fun d =>
    match f d with
    | Normal a => Normal (a, d)
    | Throw m => Throw m
    end.

(* ================================================================== *)
(** ** The persistence layer (the ORM over a relational store)

    External to the repository; modelled with the usual meaning of the calls
    the handlers make: [create], [count], [findAll] with [include], [limit],
    [offset] and [order], [findByPk], [instance.update], [instance.destroy]. *)

Module ORM.

Definition ref_name (m : ModelRef) : string :=
  match m with
  | db_User => "User"
  | db_Course => "Course"
  | db_Teacher => "Teacher"
  | db_Student => "Student"
  end.

(** What the ORM has to know about a model. *)
Class Model (R : Type) : Type := {
  modelName : string;
  Values : Type;
  Patch : Type;
  pk : R -> Z;
  createdAt : R -> Z;
  attributes : R -> list (string * Json);
  table : Database -> Table R;
  set_table : Table R -> Database -> Database;
  build : Z -> Z -> Values -> R;
  set : Patch -> R -> R;
  association : ModelRef -> option (string * (Database -> R -> Json))
}.

(** A model instance as a handler holds it: the row and the related data
    loaded with it. *)
Record Instance (R : Type) : Type := mkInstance {
  dataValues : R;
  included : list (string * Json)
}.
Arguments mkInstance {R} _ _.
Arguments dataValues {R} _.
Arguments included {R} _.

Record FindOptions : Type := mkFindOptions {
  include : list ModelRef;
  limit : Z;
  offset : Z;
  order : string * string      (* column, direction *)
}.

Section Generic.

Context {R : Type} `{M : Model R}.

(** [instance.toJSON()], which [res.json] serialises. *)
Definition toJSON (i : Instance R) : Json :=
  JObj (attributes (dataValues i) ++ included i).

(** The rows in the order of the key.  SQL leaves the order of rows of
    equal key to the engine; here they keep the order of the table.  What is
    stated of the order of a page is stated either of any sorted arrangement
    of the rows, or of rows whose keys are pairwise distinct, for which the
    sorted arrangement is unique. *)
Fixpoint insert_by (le : R -> R -> bool) (x : R) (l : list R) : list R :=
  match l with
  | [] => [x]
  | y :: t => if le x y then x :: l else y :: insert_by le x t
  end.

Definition sort_by (le : R -> R -> bool) (l : list R) : list R :=
  fold_right (insert_by le) [] l.

(** [ORDER BY createdAt ASC | DESC]. *)
Definition order_le (direction : string) (a b : R) : bool :=
  if String.eqb direction "ASC"
  then createdAt a <=? createdAt b
  else createdAt b <=? createdAt a.

(** [LIMIT limit OFFSET offset].  A negative value is an error for a strict
    engine; a lenient one reads a negative limit as no limit and a negative
    offset as zero.  The values are those of the program and of the engine
    up to [JS.MAX_SAFE_INTEGER]; beyond, the program holds a rounded number
    and an engine may refuse it, which is not modelled: what is stated of a
    page is stated for a limit and an offset within that range. *)
Definition window (limit offset : Z) (l : list R) : list R :=
  let l1 := skipn (Z.to_nat offset) l in
  if limit <? 0 then l1 else firstn (Z.to_nat limit) l1.

Definition limit_offset (strict : bool) (limit offset : Z) (l : list R)
  : Completion (list R) :=
  if (strict && ((limit <? 0) || (offset <? 0)))%bool
  then Throw "negative LIMIT or OFFSET"
  else Normal (window limit offset l).

(** The loaders of the included models; a model with no association to this
    one is an error. *)
Fixpoint resolve (incl : list ModelRef)
  : Completion (list (string * (Database -> R -> Json))) :=
  match incl with
  | [] => Normal []
  | m :: rest =>
      match association m with
      | None => Throw (ref_name m ++ " is not associated to " ++ modelName ++ "!")
      | Some loader =>
          match resolve rest with
          | Normal l => Normal (loader :: l)
          | Throw e => Throw e
          end
      end
  end.

Definition load (d : Database)
    (loaders : list (string * (Database -> R -> Json))) (r : R) : Instance R :=
  mkInstance r (map (fun kf => (fst kf, snd kf d r)) loaders).

Definition count : Async Z :=
  persistence (reading (fun d => Normal (Z.of_nat (List.length (rows (table d)))))).

Definition findAll (o : FindOptions) : Async (list (Instance R)) :=
  persistence (reading (fun d =>
    match resolve (include o) with
    | Throw e => Throw e
    | Normal loaders =>
        match limit_offset (strict_sql d) (limit o) (offset o)
                (sort_by (order_le (snd (order o))) (rows (table d))) with
        | Throw e => Throw e
        | Normal page => Normal (map (load d loaders) page)
        end
    end)).

Definition findByPk (id : Z) (incl : list ModelRef)
  : Async (option (Instance R)) :=
  persistence (reading (fun d =>
    match resolve incl with
    | Throw e => Throw e
    | Normal loaders =>
        Normal (option_map (load d loaders)
                  (find (fun r => pk r =? id) (rows (table d))))
    end)).

(** [Model.create(values)]: the next id, stamped with the clock. *)
Definition create (values : Values) : Async (Instance R) :=
  fun w =>
    persistence (fun d =>
      let t := table d in
      let r := build (next_id t) (now w) values in
      Normal (mkInstance r [],
              set_table (mkTable (rows t ++ [r]) (next_id t + 1)) d)) w.

(** [instance.update(patch)]: the named attributes are set on the instance
    and on its row. *)
Definition update (i : Instance R) (patch : Patch) : Async (Instance R) :=
  persistence (fun d =>
    let t := table d in
    let id := pk (dataValues i) in
    Normal (mkInstance (set patch (dataValues i)) (included i),
            set_table
              (mkTable (map (fun r => if pk r =? id then set patch r else r)
                          (rows t))
                       (next_id t)) d)).

(** [instance.destroy()]. *)
Definition destroy (i : Instance R) : Async unit :=
  persistence (fun d =>
    let t := table d in
    let id := pk (dataValues i) in
    Normal (tt,
            set_table
              (mkTable (filter (fun r => negb (pk r =? id)) (rows t))
                       (next_id t)) d)).

End Generic.

End ORM.
Import ORM.

(** *** The models *)

Definition set_opt {A} (o : option A) (old : A) : A :=
  match o with
  | Some v => v
  | None => old
  end.

Definition Course_attributes (c : Course) : list (string * Json) :=
  [ ("id", JNum (course_id c)); ("title", JStr (course_title c));
    ("description", JStr (course_description c));
    ("TeacherId", JNum (course_TeacherId c));
    ("createdAt", JNum (course_createdAt c)) ].

Definition Teacher_attributes (t : Teacher) : list (string * Json) :=
  [ ("id", JNum (teacher_id t)); ("name", JStr (teacher_name t));
    ("department", JStr (teacher_department t));
    ("createdAt", JNum (teacher_createdAt t)) ].

Definition Student_attributes (s : Student) : list (string * Json) :=
  [ ("id", JNum (student_id s)); ("name", JStr (student_name s));
    ("email", JStr (student_email s));
    ("createdAt", JNum (student_createdAt s)) ].

Definition with_Courses (t : Table Course) (d : Database) : Database :=
  mkDatabase (Users d) t (Teachers d) (Students d) (CourseStudents d)
    (strict_sql d).
Definition with_Teachers (t : Table Teacher) (d : Database) : Database :=
  mkDatabase (Users d) (Courses d) t (Students d) (CourseStudents d)
    (strict_sql d).
Definition with_Students (t : Table Student) (d : Database) : Database :=
  mkDatabase (Users d) (Courses d) (Teachers d) t (CourseStudents d)
    (strict_sql d).
Definition with_Users (t : Table User) (d : Database) : Database :=
  mkDatabase t (Courses d) (Teachers d) (Students d) (CourseStudents d)
    (strict_sql d).

Definition enrolled (d : Database) (course student : Z) : bool :=
  existsb (fun cs => (fst cs =? course) && (snd cs =? student))%bool
    (CourseStudents d).

(** Course belongs to one Teacher and to many Students. *)
Definition Course_association (m : ModelRef)
  : option (string * (Database -> Course -> Json)) :=
  match m with
  | db_Teacher =>
      Some ("Teacher", fun d c =>
        match find (fun t => teacher_id t =? course_TeacherId c)
                (rows (Teachers d)) with
        | Some t => JObj (Teacher_attributes t)
        | None => JNull
        end)
  | db_Student =>
      Some ("Students", fun d c =>
        JArr (map (fun s => JObj (Student_attributes s))
                (filter (fun s => enrolled d (course_id c) (student_id s))
                   (rows (Students d)))))
  | _ => None
  end.

(** Teacher has many Courses. *)
Definition Teacher_association (m : ModelRef)
  : option (string * (Database -> Teacher -> Json)) :=
  match m with
  | db_Course =>
      Some ("Courses", fun d t =>
        JArr (map (fun c => JObj (Course_attributes c))
                (filter (fun c => course_TeacherId c =? teacher_id t)
                   (rows (Courses d)))))
  | _ => None
  end.

(** Student belongs to many Courses. *)
Definition Student_association (m : ModelRef)
  : option (string * (Database -> Student -> Json)) :=
  match m with
  | db_Course =>
      Some ("Courses", fun d s =>
        JArr (map (fun c => JObj (Course_attributes c))
                (filter (fun c => enrolled d (course_id c) (student_id s))
                   (rows (Courses d)))))
  | _ => None
  end.

#[export] Instance Course_Model : Model Course := {|
  modelName := "Course";
  Values := CourseValues;
  Patch := CoursePatch;
  pk := course_id;
  createdAt := course_createdAt;
  attributes := Course_attributes;
  table := Courses;
  set_table := with_Courses;
  build := fun id t v =>
    mkCourse id (cv_title v) (cv_description v) (cv_TeacherId v) t;
  set := fun p c =>
    mkCourse (course_id c)
      (set_opt (cp_title p) (course_title c))
      (set_opt (cp_description p) (course_description c))
      (set_opt (cp_TeacherId p) (course_TeacherId c))
      (course_createdAt c);
  association := Course_association
|}.

#[export] Instance Teacher_Model : Model Teacher := {|
  modelName := "Teacher";
  Values := TeacherValues;
  Patch := TeacherPatch;
  pk := teacher_id;
  createdAt := teacher_createdAt;
  attributes := Teacher_attributes;
  table := Teachers;
  set_table := with_Teachers;
  build := fun id t v => mkTeacher id (tv_name v) (tv_department v) t;
  set := fun p t =>
    mkTeacher (teacher_id t)
      (set_opt (tp_name p) (teacher_name t))
      (set_opt (tp_department p) (teacher_department t))
      (teacher_createdAt t);
  association := Teacher_association
|}.

#[export] Instance Student_Model : Model Student := {|
  modelName := "Student";
  Values := StudentValues;
  Patch := StudentPatch;
  pk := student_id;
  createdAt := student_createdAt;
  attributes := Student_attributes;
  table := Students;
  set_table := with_Students;
  build := fun id t v => mkStudent id (sv_name v) (sv_email v) t;
  set := fun p s =>
    mkStudent (student_id s)
      (set_opt (sp_name p) (student_name s))
      (set_opt (sp_email p) (student_email s))
      (student_createdAt s);
  association := Student_association
|}.

(** *** The User model, as the auth controller queries it *)

Definition User_attributes (u : User) : list (string * Json) :=
  [ ("id", JNum (user_id u)); ("name", JStr (user_name u));
    ("email", JStr (user_email u)); ("password", JStr (user_password u)) ].

(** [User.findOne({ where: { email } })]. *)
Definition User_findOne_where_email (email : string) : Async (option User) :=
  persistence (reading (fun d =>
    Normal (find (fun u => String.eqb (user_email u) email)
              (rows (Users d))))).

(** [User.create({ name, email, password })]. *)
Definition User_create (name email password : string) : Async User :=
  persistence (fun d =>
    let t := Users d in
    let u := mkUser (next_id t) name email password in
    Normal (u, with_Users (mkTable (rows t ++ [u]) (next_id t + 1)) d)).

(** [User.findAll({ attributes })]: every row, cut down to the attributes
    asked for. *)
Definition User_findAll_attributes (attrs : list string) : Async (list Json) :=
  persistence (reading (fun d =>
    Normal (map (fun u =>
                   JObj (filter (fun kv => JS.includes attrs (fst kv))
                           (User_attributes u)))
              (rows (Users d))))).

(* ================================================================== *)
(** ** bcrypt and jsonwebtoken *)

(** The primitives of the two libraries.  [bcrypt_hash data rounds salt] is
    the hash string, [bcrypt_compare data hash] its verification,
    [jws_sign payload secret] the compact signed serialisation of a payload.
    The only property assumed is that hashing is not the identity on any
    input. *)
Class Crypto : Type := {
  bcrypt_hash : string -> Z -> string -> string;
  bcrypt_compare : string -> string -> bool;
  jws_sign : Json -> string -> string;
  bcrypt_hash_not_plain :
    forall data rounds salt, bcrypt_hash data rounds salt <> data
}.

(** [bcrypt.hash(data, rounds)] draws the salt of the world. *)
Definition bcrypt_hash_async `{Crypto} (data : string) (rounds : Z)
  : Async string :=
  fun w => (Normal (bcrypt_hash data rounds (salt w)), w).

Definition bcrypt_compare_async `{Crypto} (data hash : string) : Async bool :=
  ret (bcrypt_compare data hash).

(** The digits a time span starts with, and what follows them. *)
Fixpoint span_digits (s : string) (acc : JS.Number) : JS.Number * string :=
  match s with
  | EmptyString => (acc, s)
  | String c r =>
      match JS.digitValue c with
      | Some d =>
          if d <? 10
          then span_digits r
                 (JS.Int (match acc with JS.NaN => d | JS.Int a => a * 10 + d end))
          else (acc, s)
      | None => (acc, s)
      end
  end.

(** A time span such as ['1h'], in seconds. *)
Definition timespan (s : string) : option Z :=
  match span_digits s JS.NaN with
  | (JS.Int n, unit) =>
      if String.eqb unit "s" then Some n
      else if String.eqb unit "m" then Some (n * 60)
      else if String.eqb unit "h" then Some (n * 3600)
      else if String.eqb unit "d" then Some (n * 86400)
      else None
  | (JS.NaN, _) => None
  end.

(** [jwt.sign(payload, secret, { expiresIn })]: the payload gets the issue
    time [iat] (seconds) and the expiry [exp], and is signed. *)
Definition jwt_sign `{Crypto} (payload : list (string * Json))
    (secret : string) (expiresIn : string) : Async string :=
  fun w =>
    let iat := now w / 1000 in
    match timespan expiresIn with
    | Some span =>
        (Normal (jws_sign
                   (JObj (payload ++ [("iat", JNum iat);
                                      ("exp", JNum (iat + span))]))
                   secret), w)
    | None => (Throw "expiresIn should be a number of seconds or a timespan", w)
    end.

(* ================================================================== *)
(** ** Requests *)

Record Query : Type := mkQuery {
  q_page : option string;
  q_limit : option string;
  q_sort : option string;
  q_populate : option string
}.

(** [req.params.id], [req.query] and [req.body] (typed by the route). *)
Record Request (B : Type) : Type := mkRequest {
  params_id : Z;
  query : Query;
  body : B
}.
Arguments mkRequest {B} _ _ _.
Arguments params_id {B} _.
Arguments query {B} _.
Arguments body {B} _.

Definition no_query : Query := mkQuery None None None None.

(* ================================================================== *)
(** ** controllers/auth.controller.js *)

(** [const SELECT = process.env.JWT_SECRET || 'virak123';] *)
Definition SELECT (w : World) : string :=
  match JWT_SECRET w with
  | Some EmptyString => "virak123"
  | Some s => s
  | None => "virak123"
  end.

Section Auth.

Context `{C : Crypto}.

(** [POST /auth/register] *)
Definition register (req : Request Credentials) : Async Response :=
  let name := cred_name (body req) in
  let email := cred_email (body req) in
  let password := cred_password (body req) in
  exists_ <- User_findOne_where_email email ;;
  match exists_ with
  | Some _ =>
      res_status_json 400 (JObj [("message", JStr "Email already exists")])
  | None =>
      hashedPassword <- bcrypt_hash_async password 10 ;;
      user <- User_create name email hashedPassword ;;
      res_status_json 201
        (JObj [("message", JStr "User registered successfully");
               ("user", JObj [("id", JNum (user_id user));
                              ("email", JStr (user_email user))])])
  end.

(** [POST /auth/login] *)
Definition login (req : Request Credentials) : Async Response :=
  let email := cred_email (body req) in
  let password := cred_password (body req) in
  user <- User_findOne_where_email email ;;
  match user with
  | None => res_status_json 404 (JObj [("message", JStr "User not found")])
  | Some user =>
      validPassword <- bcrypt_compare_async password (user_password user) ;;
      if negb validPassword
      then res_status_json 401 (JObj [("message", JStr "Invalid credentials")])
      else
        fun w =>
          (token <- jwt_sign [("id", JNum (user_id user));
                              ("email", JStr (user_email user))]
                      (SELECT w) "1h" ;;
           res_json (JObj [("token", JStr token);
                           ("user", JObj [("id", JNum (user_id user));
                                          ("email", JStr (user_email user))])])) w
  end.

(** [GET /auth/users], behind the [authenticate] middleware (not among the
    sources). *)
Definition getAllUsers {B} (req : Request B) : Async Response :=
  users <- User_findAll_attributes ["id"; "name"; "email"] ;;
  res_json (JArr users).

End Auth.

(* ================================================================== *)
(** ** controllers/course.controller.js *)

(** [POST /courses]: the record is created from the body as it is. *)
Definition createCourse (req : Request CourseValues) : Async Response :=
  try_catch
    (course <- create (R := Course) (body req) ;;
     res_status_json 201 (toJSON course))
    (fun err => res_status_json 500 (JObj [("error", JStr err)])).

(** [GET /courses?page&limit&sort&populate] *)
Definition getAllCourses {B} (req : Request B) : Async Response :=
  try_catch
    (let limit := JS.or_else (JS.parseInt (JS.ToString (q_limit (query req)))) 10 in
     let page := JS.or_else (JS.parseInt (JS.ToString (q_page (query req)))) 1 in
     let offset := (page - 1) * limit in
     let sort := if JS.strict_eq (q_sort (query req)) "asc" then "ASC" else "DESC" in
     let populate := q_populate (query req) in
     let includeOptions :=
       if JS.truthy populate then
         let populateArray := JS.split_comma (JS.ToString populate) in
         ((if JS.includes populateArray "teacher" then [db_Teacher] else [])
          ++ (if JS.includes populateArray "student" then [db_Student] else []))%list
       else [] in
     total <- count (R := Course) ;;
     courses <- findAll (R := Course)
                  (mkFindOptions includeOptions limit offset ("createdAt", sort)) ;;
     res_json
       (JObj [("meta",
               JObj [("totalItems", JNum total);
                     ("page", JNum page);
                     ("totalPages", JNum (JS.Math_ceil (JS.div total limit)));
                     ("limit", JNum limit);
                     ("sort", JStr (JS.toLowerCase sort))]);
              ("data", JArr (map toJSON courses))]))
    (fun err => res_status_json 500 (JObj [("error", JStr err)])).

(** [GET /courses/:id?populate] *)
Definition getCourseById {B} (req : Request B) : Async Response :=
  try_catch
    (let populate := q_populate (query req) in
     let includeOptions :=
       if JS.truthy populate then
         let populateArray := JS.split_comma (JS.ToString populate) in
         ((if JS.includes populateArray "teacher" then [db_Teacher] else [])
          ++ (if JS.includes populateArray "student" then [db_Student] else []))%list
       else [] in
     course <- findByPk (R := Course) (params_id req) includeOptions ;;
     match course with
     | None => res_status_json 404 (JObj [("messsage", JStr "Not found")])
     | Some course => res_json (toJSON course)
     end)
    (fun err => res_status_json 500 (JObj [("error", JStr err)])).

(** [PUT /courses/:id] *)
Definition updateCourse (req : Request CoursePatch) : Async Response :=
  try_catch
    (course <- findByPk (R := Course) (params_id req) [] ;;
     match course with
     | None => res_status_json 404 (JObj [("message", JStr "Not found")])
     | Some course =>
         course <- update course (body req) ;;
         res_json (toJSON course)
     end)
    (fun err => res_status_json 500 (JObj [("error", JStr err)])).

(** [DELETE /courses/:id] *)
Definition deleteCourse {B} (req : Request B) : Async Response :=
  try_catch
    (course <- findByPk (R := Course) (params_id req) [] ;;
     match course with
     | None => res_status_json 404 (JObj [("message", JStr "Not found")])
     | Some course =>
         _ <- destroy course ;;
         res_json (JObj [("message", JStr "Deleted")])
     end)
    (fun err => res_status_json 500 (JObj [("error", JStr err)])).

(* ================================================================== *)
(** ** controllers/teacher.controller.js *)

(** [POST /teachers]: the record is created from the body as it is. *)
Definition createTeacher (req : Request TeacherValues) : Async Response :=
  try_catch
    (teacher <- create (R := Teacher) (body req) ;;
     res_status_json 201 (toJSON teacher))
    (fun err => res_status_json 500 (JObj [("error", JStr err)])).

(** [GET /teachers?page&limit&sort&populate] *)
Definition getAllTeachers {B} (req : Request B) : Async Response :=
  try_catch
    (let limit := JS.or_else (JS.parseInt (JS.ToString (q_limit (query req)))) 10 in
     let page := JS.or_else (JS.parseInt (JS.ToString (q_page (query req)))) 1 in
     let offset := (page - 1) * limit in
     let sort := if JS.strict_eq (q_sort (query req)) "asc" then "ASC" else "DESC" in
     let populate := q_populate (query req) in
     let includeOptions :=
       if JS.truthy populate then
         let populateArray := JS.split_comma (JS.ToString populate) in
         (if JS.includes populateArray "courses" then [db_Course] else [])
       else [] in
     total <- count (R := Teacher) ;;
     teachers <- findAll (R := Teacher)
                  (mkFindOptions includeOptions limit offset ("createdAt", sort)) ;;
     res_json
       (JObj [("meta",
               JObj [("totalItems", JNum total);
                     ("page", JNum page);
                     ("totalPages", JNum (JS.Math_ceil (JS.div total limit)));
                     ("limit", JNum limit);
                     ("sort", JStr (JS.toLowerCase sort))]);
              ("data", JArr (map toJSON teachers))]))
    (fun err => res_status_json 500 (JObj [("error", JStr err)])).

(** [GET /teachers/:id?populate] *)
Definition getTeacherById {B} (req : Request B) : Async Response :=
  try_catch
    (let populate := q_populate (query req) in
     let includeOptions :=
       if JS.truthy populate then
         let populateArray := JS.split_comma (JS.ToString populate) in
         (if JS.includes populateArray "courses" then [db_Course] else [])
       else [] in
     teacher <- findByPk (R := Teacher) (params_id req) includeOptions ;;
     match teacher with
     | None => res_status_json 404 (JObj [("message", JStr "Not found")])
     | Some teacher => res_json (toJSON teacher)
     end)
    (fun err => res_status_json 500 (JObj [("error", JStr err)])).

(** [PUT /teachers/:id] *)
Definition updateTeacher (req : Request TeacherPatch) : Async Response :=
  try_catch
    (teacher <- findByPk (R := Teacher) (params_id req) [] ;;
     match teacher with
     | None => res_status_json 404 (JObj [("message", JStr "Not found")])
     | Some teacher =>
         teacher <- update teacher (body req) ;;
         res_json (toJSON teacher)
     end)
    (fun err => res_status_json 500 (JObj [("error", JStr err)])).

(** [DELETE /teachers/:id] *)
Definition deleteTeacher {B} (req : Request B) : Async Response :=
  try_catch
    (teacher <- findByPk (R := Teacher) (params_id req) [] ;;
     match teacher with
     | None => res_status_json 404 (JObj [("message", JStr "Not found")])
     | Some teacher =>
         _ <- destroy teacher ;;
         res_json (JObj [("message", JStr "Deleted")])
     end)
    (fun err => res_status_json 500 (JObj [("error", JStr err)])).

(* ================================================================== *)
(** ** controllers/student.controller.js *)

(** [POST /students]: the record is created from the body as it is. *)
Definition createStudent (req : Request StudentValues) : Async Response :=
  try_catch
    (student <- create (R := Student) (body req) ;;
     res_status_json 201 (toJSON student))
    (fun err => res_status_json 500 (JObj [("error", JStr err)])).

(** [GET /students?page&limit&sort&populate] *)
Definition getAllStudents {B} (req : Request B) : Async Response :=
  try_catch
    (let limit := JS.or_else (JS.parseInt (JS.ToString (q_limit (query req)))) 10 in
     let page := JS.or_else (JS.parseInt (JS.ToString (q_page (query req)))) 1 in
     let offset := (page - 1) * limit in
     let sort := if JS.strict_eq (q_sort (query req)) "asc" then "ASC" else "DESC" in
     let populate := q_populate (query req) in
     let includeOptions :=
       if JS.truthy populate then
         let populateArray := JS.split_comma (JS.ToString populate) in
         (if JS.includes populateArray "courses" then [db_Course] else [])
       else [] in
     total <- count (R := Student) ;;
     students <- findAll (R := Student)
                  (mkFindOptions includeOptions limit offset ("createdAt", sort)) ;;
     res_json
       (JObj [("meta",
               JObj [("totalItems", JNum total);
                     ("page", JNum page);
                     ("totalPages", JNum (JS.Math_ceil (JS.div total limit)));
                     ("limit", JNum limit);
                     ("sort", JStr (JS.toLowerCase sort))]);
              ("data", JArr (map toJSON students))]))
    (fun err => res_status_json 500 (JObj [("error", JStr err)])).

(** [GET /students/:id?populate] *)
Definition getStudentById {B} (req : Request B) : Async Response :=
  try_catch
    (let populate := q_populate (query req) in
     let includeOptions :=
       if JS.truthy populate then
         let populateArray := JS.split_comma (JS.ToString populate) in
         (if JS.includes populateArray "courses" then [db_Course] else [])
       else [] in
     student <- findByPk (R := Student) (params_id req) includeOptions ;;
     match student with
     | None => res_status_json 404 (JObj [("message", JStr "Not found")])
     | Some student => res_json (toJSON student)
     end)
    (fun err => res_status_json 500 (JObj [("error", JStr err)])).

(** [PUT /students/:id] *)
Definition updateStudent (req : Request StudentPatch) : Async Response :=
  try_catch
    (student <- findByPk (R := Student) (params_id req) [] ;;
     match student with
     | None => res_status_json 404 (JObj [("message", JStr "Not found")])
     | Some student =>
         student <- update student (body req) ;;
         res_json (toJSON student)
     end)
    (fun err => res_status_json 500 (JObj [("error", JStr err)])).

(** [DELETE /students/:id] *)
Definition deleteStudent {B} (req : Request B) : Async Response :=
  try_catch
    (student <- findByPk (R := Student) (params_id req) [] ;;
     match student with
     | None => res_status_json 404 (JObj [("message", JStr "Not found")])
     | Some student =>
         _ <- destroy student ;;
         res_json (JObj [("message", JStr "Deleted")])
     end)
    (fun err => res_status_json 500 (JObj [("error", JStr err)])).

(* ================================================================== *)
(** ** A reference instance of the primitives, to run the handlers *)

Module Reference.

Definition quote : string := String (ascii_of_nat 34) EmptyString.

Fixpoint digits_of (fuel : nat) (n : Z) (acc : string) : string :=
  match fuel with
  | O => acc
  | S fuel' =>
      let acc' := String (ascii_of_nat (48 + Z.to_nat (n mod 10))) acc in
      if n / 10 =? 0 then acc' else digits_of fuel' (n / 10) acc'
  end.

Definition render_Z (n : Z) : string :=
  if n <? 0
  then "-" ++ digits_of (S (Z.to_nat (- n))) (- n) EmptyString
  else digits_of (S (Z.to_nat n)) n EmptyString.

(** Compact JSON text of a value. *)
Fixpoint render (j : Json) : string :=
  match j with
  | JNull => "null"
  | JBool true => "true"
  | JBool false => "false"
  | JNum n => render_Z n
  | JStr s => quote ++ s ++ quote
  | JArr items =>
      "[" ++ (fix go (l : list Json) : string :=
                match l with
                | [] => EmptyString
                | [x] => render x
                | x :: t => render x ++ "," ++ go t
                end) items ++ "]"
  | JObj fields =>
      "{" ++ (fix go (l : list (string * Json)) : string :=
                match l with
                | [] => EmptyString
                | [(k, v)] => quote ++ k ++ quote ++ ":" ++ render v
                | (k, v) :: t => quote ++ k ++ quote ++ ":" ++ render v ++ "," ++ go t
                end) fields ++ "}"
  end.

(** A stand-in for the hash: the salt and the data behind a version tag. *)
Definition hash (data : string) (rounds : Z) (salt : string) : string :=
  "$2a$" ++ render_Z rounds ++ "$" ++ salt ++ "$" ++ data.

(** What follows the first [$] of a text. *)
Fixpoint after_dollar (s : string) : option string :=
  match s with
  | EmptyString => None
  | String c r => if Ascii.eqb c "$"%char then Some r else after_dollar r
  end.

(** The data of a stand-in hash: what follows the version tag, the rounds
    and the salt (a salt has no [$] in it). *)
Definition hashed_data (hashed : string) : option string :=
  match hashed with
  | String "$"%char (String "2"%char (String "a"%char (String "$"%char r))) =>
      match after_dollar r with
      | Some r1 => after_dollar r1
      | None => None
      end
  | _ => None
  end.

Definition compare (data hashed : string) : bool :=
  match hashed_data hashed with
  | Some d => String.eqb d data
  | None => false
  end.

(** A stand-in for the signature: the payload text, then the secret. *)
Definition sign (payload : Json) (secret : string) : string :=
  render payload ++ "." ++ secret.

End Reference.

(** The reference instance of [Crypto]. *)
#[export] Instance Reference_Crypto : Crypto.
Proof.
  refine {| bcrypt_hash := Reference.hash;
            bcrypt_compare := Reference.compare;
            jws_sign := Reference.sign;
            bcrypt_hash_not_plain := _ |}.
  intros data rounds salt H.
  assert (L : forall a b, String.length (a ++ b)%string
                          = (String.length a + String.length b)%nat)
    by (induction a; simpl; intros; [reflexivity | now rewrite IHa]).
  apply (f_equal String.length) in H. unfold Reference.hash in H.
  rewrite !L in H. simpl in H. lia.
Defined.

(* ================================================================== *)
(** ** A small school, to run the handlers on *)

Module Example.

Definition algebra : Course := mkCourse 1 "Algebra" "Groups and rings" 1 100.
Definition logic : Course := mkCourse 2 "Logic" "Proofs" 1 300.
Definition sets : Course := mkCourse 3 "Sets" "Ordinals" 2 200.
Definition ada : Teacher := mkTeacher 1 "Ada" "Mathematics" 10.
Definition ana : Student := mkStudent 1 "Ana" "ana@x.com" 20.
Definition virak : User :=
  mkUser 1 "Virak" "virak@gmail.com" (Reference.hash "name@123$" 10 "s0").

(** The store, on an engine that rejects or that tolerates a negative
    limit. *)
Definition school (strict : bool) : Database :=
  mkDatabase (mkTable [virak] 2) (mkTable [algebra; logic; sets] 4)
    (mkTable [ada] 2) (mkTable [ana] 2) [(1, 1); (3, 1)] strict.

Definition empty_school : Database :=
  mkDatabase (mkTable [] 1) (mkTable [] 1) (mkTable [] 1) (mkTable [] 1) []
    true.

(** A world in which the persistence layer works. *)
Definition world (d : Database) : World := mkWorld d [] [] 5000 "s1" None.

(** A world in which the next persistence call fails. *)
Definition broken (d : Database) : World :=
  mkWorld d [Some "connect ECONNREFUSED"] [] 5000 "s1" None.

Definition get (id : Z) (q : Query) : Request unit := mkRequest id q tt.

(** The query [?limit=-5]. *)
Definition minus_five : Query := mkQuery None (Some "-5") None None.

Definition post {B} (b : B) : Request B := mkRequest 0 no_query b.

Definition put {B} (id : Z) (b : B) : Request B := mkRequest id no_query b.

End Example.

(* ================================================================== *)
(** ** Views of the handlers

    The sub-expressions of the list and get-by-id handlers, named so that
    statements can speak about them.  The lemmas [getAllCourses_view] and
    the like show that each handler is built from them. *)

(** [parseInt(req.query.limit) || 10] *)
Definition limit_of (q : Query) : Z :=
  JS.or_else (JS.parseInt (JS.ToString (q_limit q))) 10.

(** [parseInt(req.query.page) || 1] *)
Definition page_of (q : Query) : Z :=
  JS.or_else (JS.parseInt (JS.ToString (q_page q))) 1.

(** [(page - 1) * limit] *)
Definition offset_of (q : Query) : Z := (page_of q - 1) * limit_of q.

(** [req.query.sort === 'asc' ? 'ASC' : 'DESC'] *)
Definition sort_of (q : Query) : string :=
  if JS.strict_eq (q_sort q) "asc" then "ASC" else "DESC".

(** The values of the populate parameter, [[]] when it is falsy. *)
Definition populateArray_of (populate : option string) : list string :=
  if JS.truthy populate then JS.split_comma (JS.ToString populate) else [].

(** [includeOptions] of the Course handlers. *)
Definition Course_includeOptions (populate : option string) : list ModelRef :=
  if JS.truthy populate then
    let populateArray := JS.split_comma (JS.ToString populate) in
    ((if JS.includes populateArray "teacher" then [db_Teacher] else [])
     ++ (if JS.includes populateArray "student" then [db_Student] else []))%list
  else [].

(** [includeOptions] of the Teacher and of the Student handlers. *)
Definition courses_includeOptions (populate : option string) : list ModelRef :=
  if JS.truthy populate then
    let populateArray := JS.split_comma (JS.ToString populate) in
    (if JS.includes populateArray "courses" then [db_Course] else [])
  else [].

(** The [catch] block of the Course, Teacher and Student handlers. *)
Definition on_error (err : string) : Async Response :=
  res_status_json 500 (JObj [("error", JStr err)]).

(** The [{ meta, data }] object of a list response. *)
Definition envelope (total page limit : Z) (sort : string) (data : list Json)
  : Json :=
  JObj [("meta",
         JObj [("totalItems", JNum total);
               ("page", JNum page);
               ("totalPages", JNum (JS.Math_ceil (JS.div total limit)));
               ("limit", JNum limit);
               ("sort", JStr (JS.toLowerCase sort))]);
        ("data", JArr data)].

(** The [try] block of a list handler. *)
Definition list_query {R} `{Model R} (includeOptions : list ModelRef)
    (limit page : Z) (sort : string) : Async Response :=
  total <- count (R := R) ;;
  found <- findAll (R := R)
             (mkFindOptions includeOptions limit ((page - 1) * limit)
                ("createdAt", sort)) ;;
  res_json (envelope total page limit sort (map toJSON found)).

(** A member of the [meta] object of a list response. *)
Definition meta_of (name : string) (r : Response) : option Json :=
  match get_key "meta" (json r) with
  | Some m => get_key name m
  | None => None
  end.

(** The [data] array of a list response. *)
Definition data_of (r : Response) : option (list Json) :=
  match get_key "data" (json r) with
  | Some (JArr items) => Some items
  | _ => None
  end.

(** The rows of a model in a world. *)
Definition rows_of (R : Type) `{Model R} (w : World) : list R :=
  rows (table (db w)).

(** No call into the persistence layer is scheduled to fail. *)
Definition quiet (w : World) : Prop :=
  Forall (fun f => f = None) (faults w).

(** The SQL engine accepts the limit and the offset. *)
Definition accepted (w : World) (limit offset : Z) : Prop :=
  strict_sql (db w) = false \/ (0 <= limit /\ 0 <= offset).

(** [a] may come before [b] in the direction asked for. *)
Definition in_order {R} `{Model R} (direction : string) (a b : R) : Prop :=
  order_le direction a b = true.

(** Replacing the populate parameter of a request. *)
Definition with_populate {B} (p : option string) (req : Request B)
  : Request B :=
  mkRequest (params_id req)
    (mkQuery (q_page (query req)) (q_limit (query req)) (q_sort (query req)) p)
    (body req).

(** A string with no comma in it. *)
Fixpoint no_comma (s : string) : Prop :=
  match s with
  | EmptyString => True
  | String c r => c <> ","%char /\ no_comma r
  end.

(** [a] may come before [b] in a list sorted by creation time in the
    direction the request asks for: ascending for [sort=asc], descending for
    anything else. *)
Definition requested_order {R} `{Model R} (q : Query) (a b : R) : Prop :=
  (q_sort q = Some "asc" -> createdAt a <= createdAt b)
  /\ (q_sort q <> Some "asc" -> createdAt b <= createdAt a).

(** The response [r] is status 200 and carries, as its data, the records
    that follow the first [offset_of q] of the rows of [R] sorted in the
    requested order, [limit_of q] of them at most. *)
Definition sorted_page (R : Type) `{Model R} (q : Query) (w : World)
    (r : Response) : Prop :=
  exists (full : list R) (found : list (Instance R)),
    Permutation full (rows_of R w)
    /\ StronglySorted (requested_order q) full
    /\ map dataValues found
       = firstn (Z.to_nat (limit_of q)) (skipn (Z.to_nat (offset_of q)) full)
    /\ Z.of_nat (List.length found) <= limit_of q
    /\ status r = 200
    /\ data_of r = Some (map toJSON found).

(** The response [r] carries the count of the rows of [R] as [totalItems]
    and, as [totalPages], the least [k] with [totalItems <= k * limit]; with
    no row at all, [totalPages] is 0 and the data is empty. *)
Definition counted_pages (R : Type) `{Model R} (q : Query) (w : World)
    (r : Response) : Prop :=
  let total := Z.of_nat (List.length (rows_of R w)) in
  exists k : Z,
    meta_of "totalItems" r = Some (JNum total)
    /\ meta_of "limit" r = Some (JNum (limit_of q))
    /\ meta_of "totalPages" r = Some (JNum k)
    /\ (k - 1) * limit_of q < total <= k * limit_of q
    /\ (total = 0 -> k = 0 /\ data_of r = Some []).

(** The [try] block of a get-by-id handler; [key] is the key under which the
    404 body says that nothing was found. *)
Definition find_query {R} `{Model R} (includeOptions : list ModelRef)
    (id : Z) (key : string) : Async Response :=
  found <- findByPk (R := R) id includeOptions ;;
  match found with
  | None => res_status_json 404 (JObj [(key, JStr "Not found")])
  | Some found => res_json (toJSON found)
  end.


(** The relation names that the Course handlers look for, and those that the
    Teacher and the Student handlers look for. *)
Definition Course_whitelist : list string := ["teacher"; "student"].
Definition courses_whitelist : list string := ["courses"].

(** No value of the populate parameter is in the whitelist. *)
Definition unrecognized (whitelist : list string) (populate : option string)
  : Prop :=
  forall v, In v (populateArray_of populate) -> ~ In v whitelist.

(** [v] is a whitelisted name up to letter case, but not letter for letter. *)
Definition case_variant (whitelist : list string) (v : string) : Prop :=
  In (JS.toLowerCase v) whitelist /\ ~ In v whitelist.

(** The [try] block of an update handler. *)
Definition update_query {R} `{Model R} (id : Z) (patch : Patch)
  : Async Response :=
  found <- findByPk (R := R) id [] ;;
  match found with
  | None => res_status_json 404 (JObj [("message", JStr "Not found")])
  | Some found =>
      found <- update found patch ;;
      res_json (toJSON found)
  end.

(** The record of [R] with primary key [id], if there is one. *)
Definition lookup (R : Type) `{Model R} (w : World) (id : Z) : option R :=
  find (fun r => pk r =? id) (rows_of R w).

(** The outcome [out] of a handler is a 404 with a message, and the store is
    as it was in [w]. *)
Definition not_found_outcome (w : World) (out : Completion Response * World)
  : Prop :=
  fst out = Normal (mkResponse 404 (JObj [("message", JStr "Not found")]))
  /\ db (snd out) = db w.

(** The outcome [out] of an update of record [id] is a 200 with the record
    [c'], which has taken the place of the record [id] in the store; every
    other record of [R] is as it was in [w]. *)
Definition updated_outcome (R : Type) `{Model R} (id : Z) (w : World)
    (out : Completion Response * World) (c' : R) : Prop :=
  fst out = Normal (mkResponse 200 (JObj (attributes c')))
  /\ (forall j, lookup R (snd out) j
                = if j =? id then Some c' else lookup R w j)
  /\ List.length (rows_of R (snd out)) = List.length (rows_of R w)
  /\ next_id (table (R := R) (db (snd out))) = next_id (table (R := R) (db w)).

(** A field after a partial update: the value that the body names for it, or
    else the value it had. *)
Definition merged {A} (named : option A) (old new : A) : Prop :=
  match named with
  | Some v => new = v
  | None => new = old
  end.

(** The users of a world. *)
Definition users_of (w : World) : list User := rows (Users (db w)).

(** No two users have the same email. *)
Definition unique_emails (w : World) : Prop :=
  NoDup (map user_email (users_of w)).

(** The identity that the auth handlers expose: id and email. *)
Definition public_identity (u : User) : Json :=
  JObj [("id", JNum (user_id u)); ("email", JStr (user_email u))].

(** The payload of the token that [login] issues for [u] in [w]: its id and
    email, the issue time and the expiry. *)
Definition token_payload (u : User) (w : World) : Json :=
  JObj [("id", JNum (user_id u)); ("email", JStr (user_email u));
        ("iat", JNum (now w / 1000)); ("exp", JNum (now w / 1000 + 3600))].

(** The handler [h] answers every request, and whenever the persistence
    layer raises an exception while it runs, its answer is a 500 that
    carries the message of the exception under [error]. *)
Definition catches_persistence_failures {Req : Type}
    (h : Req -> Async Response) : Prop :=
  forall req w,
  exists r,
    fst (h req w) = Normal r
    /\ (raised (snd (h req w)) = raised w
        \/ exists m,
             raised (snd (h req w)) = (raised w ++ [m])%list
             /\ r = mkResponse 500 (JObj [("error", JStr m)])).

(** The shape the specification gives to every response: a status among
    200, 201, 400, 401, 404 and 500 and, unless the status is 200 or 201, a
    body with a [message] or an [error] key. *)
Definition well_formed (r : Response) : Prop :=
  In (status r) [200; 201; 400; 401; 404; 500]
  /\ (status r = 200 \/ status r = 201
      \/ has_key "message" (json r) = true
      \/ has_key "error" (json r) = true).

(** Every response that [h] sends is well formed. *)
Definition answers_well_formed {Req : Type} (h : Req -> Async Response)
  : Prop :=
  forall req w r w', h req w = (Normal r, w') -> well_formed r.

(** A computation is faithful when the exceptions it ends with are those
    the persistence layer raised: the log grows by the message it throws,
    and not at all when it completes normally. *)
Definition faithful {A} (m : Async A) : Prop :=
  forall w,
    match m w with
    | (Normal _, w') => raised w' = raised w
    | (Throw e, w') => raised w' = (raised w ++ [e])%list
    end.

(** Whatever [m] completes with satisfies [post]. *)
Definition sends_well_formed {A} (post : A -> Prop) (m : Async A) : Prop :=
  forall w a w', m w = (Normal a, w') -> post a.

(* ------------------------------------------------------------------ *)
(** *** Views of the create and delete handlers, and store invariants *)

(** The [try] block of a create handler. *)
Definition create_query {R} `{Model R} (values : Values) : Async Response :=
  created <- create (R := R) values ;;
  res_status_json 201 (toJSON created).

(** The [try] block of a delete handler. *)
Definition destroy_query {R} `{Model R} (id : Z) : Async Response :=
  found <- findByPk (R := R) id [] ;;
  match found with
  | None => res_status_json 404 (JObj [("message", JStr "Not found")])
  | Some found =>
      _ <- destroy found ;;
      res_json (JObj [("message", JStr "Deleted")])
  end.

(** The ids of the rows of [R] are pairwise distinct and below the counter
    of the table, which is at least [floor]. *)
Definition keyed (R : Type) `{Model R} (floor : Z) (d : Database) : Prop :=
  NoDup (map pk (rows (table (R := R) d)))
  /\ Forall (fun r => pk r < next_id (table (R := R) d)) (rows (table (R := R) d))
  /\ floor <= next_id (table (R := R) d).

(** Whatever the request and the world, the handler [h] leaves the store in
    [I] when it finds it in [I]. *)
Definition maintains {Req : Type} (I : Database -> Prop)
    (h : Req -> Async Response) : Prop :=
  forall req w, I (db w) -> I (db (snd (h req w))).

(** The computation [m] leaves the store in [I] when it finds it in [I]. *)
Definition keeps {A} (I : Database -> Prop) (m : Async A) : Prop :=
  forall w, I (db w) -> I (db (snd (m w))).

(** Whatever the request and the world, the handler [h] leaves the store as
    it is. *)
Definition never_writes {Req : Type} (h : Req -> Async Response) : Prop :=
  forall req w, db (snd (h req w)) = db w.

(** The outcome [out] of a create handler in [w] is a 201 with the record
    [c]: it has the next id of the table and the time of the clock, it is
    appended to the rows, and it is what a lookup of its id now finds; every
    other lookup is as it was. *)
Definition created_outcome (R : Type) `{Model R} (w : World)
    (out : Completion Response * World) (c : R) : Prop :=
  fst out = Normal (mkResponse 201 (JObj (attributes c)))
  /\ pk c = next_id (table (R := R) (db w))
  /\ createdAt c = now w
  /\ rows_of R (snd out) = (rows_of R w ++ [c])%list
  /\ next_id (table (R := R) (db (snd out)))
     = next_id (table (R := R) (db w)) + 1
  /\ (forall j, lookup R (snd out) j
                = if j =? pk c then Some c else lookup R w j).

(** The outcome [out] of a delete of the record [id] is a 200 that confirms
    it: a lookup of [id] now finds nothing, every other lookup is as it was,
    the table has one row less and its counter is as it was. *)
Definition deleted_outcome (R : Type) `{Model R} (id : Z) (w : World)
    (out : Completion Response * World) : Prop :=
  fst out = Normal (mkResponse 200 (JObj [("message", JStr "Deleted")]))
  /\ (forall j, lookup R (snd out) j
                = if j =? id then None else lookup R w j)
  /\ (List.length (rows_of R (snd out)) + 1 = List.length (rows_of R w))%nat
  /\ next_id (table (R := R) (db (snd out)))
     = next_id (table (R := R) (db w)).

(** The size of a page: the response [r] carries [limit] records, or as
    many as are left after the offset when these are fewer. *)
Definition page_size (R : Type) `{Model R} (q : Query) (w : World)
    (r : Response) : Prop :=
  exists items,
    data_of r = Some items
    /\ Z.of_nat (List.length items)
       = Z.min (limit_of q)
           (Z.max 0 (Z.of_nat (List.length (rows_of R w)) - offset_of q)).

(** The response [r] has records exactly when its page is one of the
    [totalPages] that it announces. *)
Definition page_within_total (q : Query) (r : Response) : Prop :=
  exists items k,
    data_of r = Some items
    /\ meta_of "totalPages" r = Some (JNum k)
    /\ (items <> [] <-> page_of q <= k).

(** The query for page [page] of size [limit], both written in decimal. *)
Definition page_query (page limit : Z) (sort populate : option string)
  : Query :=
  mkQuery (Some (Reference.render_Z page)) (Some (Reference.render_Z limit))
    sort populate.

(** The records that the list handler [h] returns for the query [q] in [w]
    (none when it does not answer with a list). *)
Definition page_data (h : Request unit -> Async Response) (q : Query)
    (w : World) : list Json :=
  match fst (h (mkRequest 0 q tt) w) with
  | Normal r =>
      match data_of r with
      | Some items => items
      | None => []
      end
  | Throw _ => []
  end.

(** The records of the pages 1 to [n] of size [limit], one request per page
    on the same store, put end to end. *)
Fixpoint walk (h : Request unit -> Async Response) (limit : Z)
    (sort populate : option string) (w : World) (n : nat) : list Json :=
  match n with
  | O => []
  | S k =>
      (walk h limit sort populate w k
       ++ page_data h (page_query (Z.of_nat (S k)) limit sort populate) w)%list
  end.

(** A response that reports success: status 200 or 201. *)
Definition success (r : Response) : Prop := status r = 200 \/ status r = 201.

(** Started on the store [d0], the computation [m] leaves the store as it is
    unless it completes with a result that satisfies [ok]. *)
Definition settles {A} (ok : A -> Prop) (d0 : Database) (m : Async A) : Prop :=
  forall w,
    db w = d0 ->
    match m w with
    | (Normal a, w') => ok a \/ db w' = d0
    | (Throw _, w') => db w' = d0
    end.

(** Whatever the request and the world, the handler [h] changes the store
    only when it answers 200 or 201. *)
Definition changes_only_on_success {Req : Type} (h : Req -> Async Response)
  : Prop :=
  forall req w r w',
    h req w = (Normal r, w') -> ~ success r -> db w' = db w.

(* ------------------------------------------------------------------ *)
(** *** Ranges and shapes of the parameters *)

(** The integer that the parameter starts with, if it starts with one, is at
    most [MAX_SAFE_INTEGER] in absolute value: the number that the program
    reads from the parameter is then that integer exactly. *)
Definition safe_parameter (p : option string) : Prop :=
  match JS.parseInt (JS.ToString p) with
  | JS.NaN => True
  | JS.Int z => Z.abs z <= JS.MAX_SAFE_INTEGER
  end.

(** The limit and the offset of the query are at most [MAX_SAFE_INTEGER]:
    the program computes them exactly and hands them to the SQL engine as
    integers of its range. *)
Definition in_range (q : Query) : Prop :=
  limit_of q <= JS.MAX_SAFE_INTEGER /\ offset_of q <= JS.MAX_SAFE_INTEGER.

Definition is_decimal_digit (c : ascii) : bool :=
  (Nat.leb 48 (nat_of_ascii c) && Nat.leb (nat_of_ascii c) 57)%bool.

Definition is_letter (c : ascii) : bool :=
  ((Nat.leb 65 (nat_of_ascii c) && Nat.leb (nat_of_ascii c) 90)
   || (Nat.leb 97 (nat_of_ascii c) && Nat.leb (nat_of_ascii c) 122))%bool.

(** The text [tail] can follow a decimal numeral without extending it: it
    is empty or starts with something else than a decimal digit. *)
Definition ends_numeral (tail : string) : Prop :=
  match tail with
  | EmptyString => True
  | String c _ => is_decimal_digit c = false
  end.

(** The text [tail] can follow a lone [0]: it is empty or starts with
    something else than a decimal digit and than the [x] of a hexadecimal
    prefix. *)
Definition ends_zero (tail : string) : Prop :=
  match tail with
  | EmptyString => True
  | String c _ =>
      is_decimal_digit c = false /\ c <> "x"%char /\ c <> "X"%char
  end.

(** The text starts with no integer: it is empty or starts with a letter. *)
Definition not_numeric (s : string) : Prop :=
  match s with
  | EmptyString => True
  | String c _ => is_letter c = true
  end.

(** What [parseInt(p) || default] gives, on the shapes of [p] told apart by
    their text: [v] is the default when [p] is absent, starts with no integer
    or is a zero; it is [n] when [p] is the decimal numeral of a positive
    [n], alone or followed by other text; it is [- n] when that numeral
    comes after a minus sign. *)
Definition reads (default : Z) (p : option string) (v : Z) : Prop :=
  (p = None -> v = default)
  /\ (forall s, not_numeric s -> p = Some s -> v = default)
  /\ (forall tail, ends_zero tail ->
        p = Some (String "0"%char tail) -> v = default)
  /\ (forall n tail, 0 < n -> ends_numeral tail ->
        p = Some (Reference.render_Z n ++ tail)%string -> v = n)
  /\ (forall n tail, 0 < n -> ends_numeral tail ->
        p = Some (String "-"%char (Reference.render_Z n ++ tail))%string ->
        v = - n).

(** The creation times of the rows of [R] are pairwise distinct: sorting by
    creation time then leaves no choice. *)
Definition distinct_times (R : Type) `{Model R} (w : World) : Prop :=
  NoDup (map createdAt (rows_of R w)).

(** The populate parameter [p] is the text of the values [vs], separated by
    commas; there is no value when the parameter is absent. *)
Definition populate_values (p : option string) (vs : list string) : Prop :=
  (p = None /\ vs = [])
  \/ (Forall no_comma vs /\ p = Some (String.concat "," vs)).




(* ================================================================== *)
(** * Properties *)

(** ** The handlers and their views *)

Lemma getAllCourses_view {B} (req : Request B) :
  getAllCourses req =
  try_catch
    (list_query (R := Course) (Course_includeOptions (q_populate (query req)))
       (limit_of (query req)) (page_of (query req)) (sort_of (query req)))
    on_error.
Proof. reflexivity. Qed.

Lemma getAllTeachers_view {B} (req : Request B) :
  getAllTeachers req =
  try_catch
    (list_query (R := Teacher) (courses_includeOptions (q_populate (query req)))
       (limit_of (query req)) (page_of (query req)) (sort_of (query req)))
    on_error.
Proof. reflexivity. Qed.

Lemma getAllStudents_view {B} (req : Request B) :
  getAllStudents req =
  try_catch
    (list_query (R := Student) (courses_includeOptions (q_populate (query req)))
       (limit_of (query req)) (page_of (query req)) (sort_of (query req)))
    on_error.
Proof. reflexivity. Qed.

(** ** The persistence layer when nothing is scheduled to fail *)

Lemma quiet_next_call w : quiet w -> quiet (next_call w).
Proof.
  unfold quiet, next_call; simpl.
  destruct (faults w); simpl; intros H; [constructor | now inversion H].
Qed.

Lemma quiet_with_db d w : quiet w -> quiet (with_db d w).
Proof. exact (fun H => H). Qed.

Lemma persistence_quiet {A} (op : Database -> Completion (A * Database)) w :
  quiet w ->
  persistence op w =
  match op (db w) with
  | Normal (a, d) => (Normal a, with_db d (next_call w))
  | Throw m => (Throw m, with_raised (raised w ++ [m]) (next_call w))
  end.
Proof.
  unfold quiet, persistence. intros H.
  destruct (faults w) as [|[m|] fs] eqn:E; try reflexivity.
  inversion H; discriminate.
Qed.

Lemma persistence_fault {A} (op : Database -> Completion (A * Database)) w m fs :
  faults w = Some m :: fs ->
  persistence op w = (Throw m, with_raised (raised w ++ [m]) (next_call w)).
Proof. unfold persistence. intros ->. reflexivity. Qed.

(** ** Sorting by creation time *)

Section Sorting.

Context {R : Type} `{M : Model R}.

Lemma insert_by_perm le (x : R) l : Permutation (insert_by le x l) (x :: l).
Proof.
  induction l as [|y t IH]; simpl.
  - apply Permutation_refl.
  - destruct (le x y).
    + apply Permutation_refl.
    + eapply perm_trans; [apply perm_skip, IH | apply perm_swap].
Qed.

Lemma sort_by_perm le (l : list R) : Permutation (sort_by le l) l.
Proof.
  induction l as [|x t IH]; simpl.
  - constructor.
  - eapply perm_trans; [apply insert_by_perm | now apply perm_skip].
Qed.

Lemma order_le_total dir (a b : R) :
  order_le dir a b = false -> order_le dir b a = true.
Proof. unfold order_le. destruct (String.eqb dir "ASC"); lia. Qed.

Lemma order_le_trans dir (a b c : R) :
  in_order dir a b -> in_order dir b c -> in_order dir a c.
Proof. unfold in_order, order_le. destruct (String.eqb dir "ASC"); lia. Qed.

Lemma insert_by_sorted dir (x : R) l :
  StronglySorted (in_order dir) l ->
  StronglySorted (in_order dir) (insert_by (order_le dir) x l).
Proof.
  induction 1 as [|y t Hs IH Hy]; simpl.
  - repeat constructor.
  - destruct (order_le dir x y) eqn:E.
    + constructor; [now constructor|].
      constructor; [exact E|].
      eapply Forall_impl; [|exact Hy].
      intros z Hz. eapply order_le_trans; [exact E | exact Hz].
    + constructor; [exact IH|].
      eapply Permutation_Forall;
        [apply Permutation_sym, insert_by_perm|].
      constructor; [now apply order_le_total | exact Hy].
Qed.

Lemma sort_by_sorted dir (l : list R) :
  StronglySorted (in_order dir) (sort_by (order_le dir) l).
Proof.
  induction l; simpl; [constructor | now apply insert_by_sorted].
Qed.

Lemma sort_by_nil le : sort_by le (@nil R) = [].
Proof. reflexivity. Qed.

End Sorting.

(** ** List queries *)

Lemma persistence_cases {A} (op : Database -> Completion (A * Database)) w :
  (exists a d, persistence op w = (Normal a, with_db d (next_call w))
               /\ op (db w) = Normal (a, d))
  \/ (exists m, persistence op w
                = (Throw m, with_raised (raised w ++ [m]) (next_call w))).
Proof.
  unfold persistence.
  destruct (faults w) as [|[m|] fs]; try (right; eexists; reflexivity).
  all: change (db (next_call w)) with (db w);
    destruct (op (db w)) as [[a d]|m];
    [left; now exists a, d | right; eexists; reflexivity].
Qed.

Lemma with_db_same w : with_db (db w) w = w.
Proof. now destruct w. Qed.

Section ListQuery.

Context {R : Type} `{M : Model R}.

Lemma limit_offset_accepted w limit offset (l : list R) :
  accepted w limit offset ->
  limit_offset (strict_sql (db w)) limit offset l = Normal (window limit offset l).
Proof.
  unfold accepted, limit_offset. intros [-> | [Hl Ho]]; [reflexivity|].
  replace (limit <? 0) with false by lia.
  replace (offset <? 0) with false by lia.
  now rewrite andb_false_r.
Qed.

Lemma window_in_range limit offset (l : list R) :
  0 <= limit ->
  window limit offset l = firstn (Z.to_nat limit) (skipn (Z.to_nat offset) l).
Proof. unfold window. intros H. now replace (limit <? 0) with false by lia. Qed.

Lemma count_quiet w :
  quiet w ->
  count (R := R) w = (Normal (Z.of_nat (List.length (rows_of R w))), next_call w).
Proof.
  intros H. unfold count. rewrite persistence_quiet by exact H.
  unfold reading; simpl. change (db (next_call w)) with (db w).
  now rewrite <- (with_db_same (next_call w)) at 2.
Qed.

(** The outcome of a list handler when the persistence layer works. *)
Lemma list_query_ok w incl loaders limit page sort :
  quiet w ->
  resolve (R := R) incl = Normal loaders ->
  accepted w limit ((page - 1) * limit) ->
  try_catch (list_query (R := R) incl limit page sort) on_error w =
  (Normal
     (mkResponse 200
        (envelope (Z.of_nat (List.length (rows_of R w))) page limit sort
           (map toJSON
              (map (load (db w) loaders)
                 (window limit ((page - 1) * limit)
                    (sort_by (order_le sort) (rows_of R w))))))),
   next_call (next_call w)).
Proof.
  intros Hq Hr Ha.
  unfold try_catch, list_query, bind. rewrite count_quiet by exact Hq.
  unfold findAll. rewrite persistence_quiet by now apply quiet_next_call.
  unfold reading; simpl. rewrite Hr.
  change (db (next_call w)) with (db w).
  rewrite (limit_offset_accepted w) by exact Ha.
  unfold res_json, res_status_json, ret, rows_of.
  now rewrite <- (with_db_same (next_call (next_call w))) at 2.
Qed.

(** Whatever the faults, a list handler that answers 200 answers with the
    envelope of the count. *)
Lemma list_query_200 w incl limit page sort r w' :
  try_catch (list_query (R := R) incl limit page sort) on_error w = (Normal r, w') ->
  status r = 200 ->
  exists data,
    json r = envelope (Z.of_nat (List.length (rows_of R w))) page limit sort data
    /\ (rows_of R w = [] -> data = []).
Proof.
  unfold try_catch, list_query, bind, count, findAll.
  match goal with
  | |- context [persistence ?op w] =>
      destruct (persistence_cases op w) as [(a & d & E1 & O1) | (m & E1)];
      rewrite E1; clear E1
  end;
    [| intros H Hs; inversion H; subst; discriminate Hs].
  unfold reading in O1. inversion O1; subst a d; clear O1.
  match goal with
  | |- context [persistence ?op ?w1] =>
      destruct (persistence_cases op w1) as [(a & d & E2 & O2) | (m & E2)];
      rewrite E2; clear E2
  end;
    [| intros H Hs; inversion H; subst; discriminate Hs].
  intros H _. inversion H; subst r w'; clear H. simpl.
  eexists; split; [reflexivity|].
  intros Hn. unfold reading in O2. simpl in O2.
  change (db (next_call w)) with (db w) in O2.
  unfold rows_of in Hn. rewrite Hn in O2.
  destruct (resolve incl); [|discriminate].
  unfold limit_offset, window in O2. simpl in O2.
  rewrite skipn_nil, firstn_nil in O2.
  destruct (_ && _)%bool; [discriminate|].
  destruct (limit <? 0); inversion O2; reflexivity.
Qed.

End ListQuery.

(** ** Arithmetic of the page count *)

Lemma Math_ceil_div_floor a b :
  1 <= b -> JS.Math_ceil (JS.div a b) = - ((- a) / b).
Proof.
  intros Hb. unfold JS.Math_ceil, JS.div, Qceiling, Qfloor.
  destruct b as [|p|p]; try lia.
  unfold Qdiv, Qinv, Qmult, Qopp, inject_Z; simpl.
  rewrite Z.mul_1_r. reflexivity.
Qed.

(** [Math.ceil(total / limit)] is the least [k] with [total <= k * limit]. *)
Lemma Math_ceil_div_spec a b :
  1 <= b ->
  (JS.Math_ceil (JS.div a b) - 1) * b < a <= JS.Math_ceil (JS.div a b) * b.
Proof.
  intros Hb. rewrite Math_ceil_div_floor by exact Hb.
  pose proof (Z.div_mod (- a) b ltac:(lia)) as E.
  pose proof (Z.mod_pos_bound (- a) b ltac:(lia)) as Hm.
  nia.
Qed.

Lemma Math_ceil_div_unique a b k :
  1 <= b -> (k - 1) * b < a <= k * b -> JS.Math_ceil (JS.div a b) = k.
Proof.
  intros Hb Hk. pose proof (Math_ceil_div_spec a b Hb) as Hc. nia.
Qed.

(** ** The include options always resolve *)

Lemma Course_includeOptions_resolve p :
  exists loaders,
    resolve (R := Course) (Course_includeOptions p) = Normal loaders.
Proof.
  unfold Course_includeOptions.
  destruct (JS.truthy p); [|now eexists].
  cbv zeta.
  destruct (JS.includes _ "teacher"), (JS.includes _ "student");
    now eexists.
Qed.

Lemma Teacher_includeOptions_resolve p :
  exists loaders,
    resolve (R := Teacher) (courses_includeOptions p) = Normal loaders.
Proof.
  unfold courses_includeOptions.
  destruct (JS.truthy p); [|now eexists].
  cbv zeta. destruct (JS.includes _ "courses"); now eexists.
Qed.

Lemma Student_includeOptions_resolve p :
  exists loaders,
    resolve (R := Student) (courses_includeOptions p) = Normal loaders.
Proof.
  unfold courses_includeOptions.
  destruct (JS.truthy p); [|now eexists].
  cbv zeta. destruct (JS.includes _ "courses"); now eexists.
Qed.

(** ** Pages of a list *)

Section Pages.

Context {R : Type} `{M : Model R}.

Lemma in_order_requested (q : Query) (a b : R) :
  in_order (sort_of q) a b <-> requested_order q a b.
Proof.
  unfold in_order, requested_order, order_le, sort_of.
  destruct (q_sort q) as [s|]; simpl.
  - destruct (String.eqb s "asc") eqn:E; simpl.
    + apply String.eqb_eq in E. subst s.
      split; [intros H; split; [intros _; lia | congruence]
             | intros [H _]; specialize (H eq_refl); lia].
    + apply String.eqb_neq in E.
      split; [intros H; split; [congruence | intros _; lia]
             | intros [_ H]; assert (Some s <> Some "asc") by congruence;
               specialize (H H0); lia].
  - split; [intros H; split; [discriminate | intros _; lia]
           | intros [_ H]; specialize (H ltac:(discriminate)); lia].
Qed.

Lemma sorted_requested (q : Query) (l : list R) :
  StronglySorted (requested_order q) (sort_by (order_le (sort_of q)) l).
Proof.
  pose proof (sort_by_sorted (sort_of q) l) as H.
  induction H as [|x t Hs IH Hx]; constructor; auto.
  eapply Forall_impl; [|exact Hx]. intros y. apply in_order_requested.
Qed.

Lemma dataValues_load d loaders (l : list R) :
  map dataValues (map (load d loaders) l) = l.
Proof. rewrite map_map. simpl. apply map_id. Qed.

Lemma list_query_sorted_page (q : Query) incl w :
  quiet w ->
  (exists loaders, resolve (R := R) incl = Normal loaders) ->
  1 <= page_of q -> 1 <= limit_of q ->
  exists r w',
    try_catch (list_query (R := R) incl (limit_of q) (page_of q) (sort_of q))
      on_error w = (Normal r, w')
    /\ sorted_page R q w r.
Proof.
  intros Hq [loaders Hr] Hp Hl.
  assert (Ha : accepted w (limit_of q) ((page_of q - 1) * limit_of q))
    by (right; nia).
  rewrite (list_query_ok w incl loaders _ _ _ Hq Hr Ha).
  do 2 eexists; split; [reflexivity|].
  exists (sort_by (order_le (sort_of q)) (rows_of R w)).
  eexists. repeat split.
  - apply sort_by_perm.
  - apply sorted_requested.
  - rewrite dataValues_load. apply window_in_range. lia.
  - rewrite length_map, window_in_range by lia.
    rewrite length_firstn. lia.
Qed.

Lemma list_query_counted_pages (q : Query) incl w r w' :
  try_catch (list_query (R := R) incl (limit_of q) (page_of q) (sort_of q))
    on_error w = (Normal r, w') ->
  status r = 200 ->
  1 <= limit_of q ->
  counted_pages R q w r.
Proof.
  intros H Hs Hl.
  destruct (list_query_200 _ _ _ _ _ _ _ H Hs) as (data & Hj & Hd).
  unfold counted_pages, meta_of, data_of. rewrite Hj. simpl.
  eexists. repeat split.
  - apply Math_ceil_div_spec; exact Hl.
  - apply Math_ceil_div_spec; exact Hl.
  - apply Math_ceil_div_unique; [exact Hl|]. lia.
  - rewrite Hd; [reflexivity|].
    destruct (rows_of R w); [reflexivity | simpl in *; lia].
Qed.

End Pages.

(** ** C3 *)

(** C3.  For every list request whose page and limit are both at least 1
    (and, with the offset, at most [MAX_SAFE_INTEGER]), and as long as the
    persistence layer does not fail, each of [getAllCourses],
    [getAllTeachers] and [getAllStudents] answers 200 with at most [limit]
    records: those that follow the first [offset = (page - 1) * limit]
    records of the full set of rows sorted by creation timestamp in the
    requested direction, ascending when the sort parameter is [asc] and
    descending otherwise. *)
Theorem C3_list_returns_page_of_sorted_rows {B} (req : Request B) (w : World) :
  quiet w ->
  1 <= page_of (query req) ->
  1 <= limit_of (query req) ->
  in_range (query req) ->
  offset_of (query req) = (page_of (query req) - 1) * limit_of (query req)
  /\ (exists r w', getAllCourses req w = (Normal r, w')
                   /\ sorted_page Course (query req) w r)
  /\ (exists r w', getAllTeachers req w = (Normal r, w')
                   /\ sorted_page Teacher (query req) w r)
  /\ (exists r w', getAllStudents req w = (Normal r, w')
                   /\ sorted_page Student (query req) w r).
Proof.
  intros Hq Hp Hl _. split; [reflexivity|].
  rewrite getAllCourses_view, getAllTeachers_view, getAllStudents_view.
  repeat split.
  - apply list_query_sorted_page; auto using Course_includeOptions_resolve.
  - apply list_query_sorted_page; auto using Teacher_includeOptions_resolve.
  - apply list_query_sorted_page; auto using Student_includeOptions_resolve.
Qed.

Lemma C3_witness :
  exists r w',
    getAllCourses
      (Example.get 0 (mkQuery (Some "2") (Some "2") (Some "asc") None))
      (Example.world (Example.school true)) = (Normal r, w')
    /\ sorted_page Course (mkQuery (Some "2") (Some "2") (Some "asc") None)
         (Example.world (Example.school true)) r.
Proof.
  apply (C3_list_returns_page_of_sorted_rows
           (Example.get 0 (mkQuery (Some "2") (Some "2") (Some "asc") None))
           (Example.world (Example.school true))).
  - constructor.
  - vm_compute. discriminate.
  - vm_compute. discriminate.
  - split; vm_compute; discriminate.
Defined.

(** ** C4 *)

(** C4.  Every 200 response of [getAllCourses], [getAllTeachers] and
    [getAllStudents] whose effective limit is at least 1 has
    [meta.totalItems] equal to the number of rows of the resource and
    [meta.totalPages] equal to [ceil(totalItems / limit)], the least [k] with
    [totalItems <= k * limit]; with no row, [totalPages] is 0 and [data] is
    empty. *)
Theorem C4_total_pages_is_ceiling {B} (req : Request B) (w w' : World)
    (r : Response) :
  1 <= limit_of (query req) ->
  status r = 200 ->
  (getAllCourses req w = (Normal r, w') -> counted_pages Course (query req) w r)
  /\ (getAllTeachers req w = (Normal r, w')
      -> counted_pages Teacher (query req) w r)
  /\ (getAllStudents req w = (Normal r, w')
      -> counted_pages Student (query req) w r).
Proof.
  intros Hl Hs.
  rewrite getAllCourses_view, getAllTeachers_view, getAllStudents_view.
  repeat split; intros H; eapply list_query_counted_pages; eauto.
Qed.

Lemma C4_witness :
  counted_pages Course (mkQuery (Some "3") (Some "2") None None)
    (Example.world (Example.school true))
    (mkResponse 200 (envelope 3 3 2 "DESC" [])).
Proof.
  refine (proj1 (C4_total_pages_is_ceiling
                   (Example.get 0 (mkQuery (Some "3") (Some "2") None None))
                   (Example.world (Example.school true)) _
                   (mkResponse 200 (envelope 3 3 2 "DESC" [])) _ _) _).
  - vm_compute. discriminate.
  - reflexivity.
  - reflexivity.
Defined.

(** ** C2 *)

(** *** Decimal numerals *)

Lemma digitValue_digit d :
  0 <= d < 10 ->
  JS.digitValue (ascii_of_nat (48 + Z.to_nat d)) = Some d.
Proof.
  intros H.
  assert (E : d = 0 \/ d = 1 \/ d = 2 \/ d = 3 \/ d = 4 \/ d = 5 \/ d = 6
              \/ d = 7 \/ d = 8 \/ d = 9) by lia.
  repeat destruct E as [-> | E]; try reflexivity. subst. reflexivity.
Qed.

Lemma parseDigits_digits_of fuel n acc :
  0 <= n -> (Z.to_nat n < fuel)%nat ->
  JS.parseDigits 10 (Reference.digits_of fuel n acc) JS.NaN
  = JS.parseDigits 10 acc (JS.Int n).
Proof.
  revert n acc. induction fuel as [|f IH]; intros n acc Hn Hf; [lia|].
  pose proof (Z.mod_pos_bound n 10 ltac:(lia)) as Hm.
  pose proof (Z.div_mod n 10 ltac:(lia)) as Hd.
  cbn [Reference.digits_of].
  destruct (n / 10 =? 0) eqn:E.
  - cbn [JS.parseDigits]. rewrite digitValue_digit by exact Hm.
    replace (n mod 10 <? 10) with true by lia.
    f_equal. f_equal. lia.
  - rewrite IH by lia.
    cbn [JS.parseDigits]. rewrite digitValue_digit by exact Hm.
    replace (n mod 10 <? 10) with true by lia.
    f_equal. f_equal. lia.
Qed.

(** The first character of a numeral is a digit, and so is the one after it
    when there is one. *)
Lemma digits_of_shape fuel n acc :
  0 <= n ->
  exists d r,
    0 <= d < 10
    /\ Reference.digits_of (S fuel) n acc
       = String (ascii_of_nat (48 + Z.to_nat d)) r
    /\ (r = acc
        \/ exists d' r', 0 <= d' < 10
                         /\ r = String (ascii_of_nat (48 + Z.to_nat d')) r').
Proof.
  revert n acc. induction fuel as [|f IH]; intros n acc Hn.
  - pose proof (Z.mod_pos_bound n 10 ltac:(lia)) as Hm.
    exists (n mod 10), acc. split; [exact Hm|]. split; [|now left].
    cbn [Reference.digits_of]. now destruct (n / 10 =? 0).
  - pose proof (Z.mod_pos_bound n 10 ltac:(lia)) as Hm.
    cbn [Reference.digits_of].
    destruct (n / 10 =? 0) eqn:E.
    + exists (n mod 10), acc. split; [exact Hm|]. split; [reflexivity | now left].
    + destruct (IH (n / 10)
                  (String (ascii_of_nat (48 + Z.to_nat (n mod 10))) acc))
        as (d & r & Hd & Hs & Hr).
      { apply Z.div_pos; lia. }
      exists d, r. split; [exact Hd|]. split; [exact Hs|].
      right. destruct Hr as [-> | Hr]; [|exact Hr].
      now exists (n mod 10), acc.
Qed.

Lemma parseInt_digit_first d r :
  0 <= d < 10 ->
  (r = EmptyString
   \/ exists d' r', 0 <= d' < 10
                    /\ r = String (ascii_of_nat (48 + Z.to_nat d')) r') ->
  JS.parseInt (String (ascii_of_nat (48 + Z.to_nat d)) r)
  = match JS.parseDigits 10 (String (ascii_of_nat (48 + Z.to_nat d)) r) JS.NaN with
    | JS.NaN => JS.NaN
    | JS.Int n => JS.Int (1 * n)
    end.
Proof.
  intros Hd Hr.
  assert (E : d = 0 \/ d = 1 \/ d = 2 \/ d = 3 \/ d = 4 \/ d = 5 \/ d = 6
              \/ d = 7 \/ d = 8 \/ d = 9) by lia.
  repeat destruct E as [-> | E]; try subst d; try reflexivity.
  destruct Hr as [-> | (d' & r' & Hd' & ->)]; [reflexivity|].
  assert (E : d' = 0 \/ d' = 1 \/ d' = 2 \/ d' = 3 \/ d' = 4 \/ d' = 5
              \/ d' = 6 \/ d' = 7 \/ d' = 8 \/ d' = 9) by lia.
  repeat destruct E as [-> | E]; try subst d'; reflexivity.
Qed.

(** [parseInt] reads the decimal numeral of a natural number back. *)
Lemma parseInt_render_Z n : 0 <= n -> JS.parseInt (Reference.render_Z n) = JS.Int n.
Proof.
  intros Hn. unfold Reference.render_Z.
  replace (n <? 0) with false by lia.
  destruct (digits_of_shape (Z.to_nat n) n EmptyString Hn)
    as (d & r & Hd & Hs & Hr).
  pose proof (parseDigits_digits_of (S (Z.to_nat n)) n EmptyString Hn
                ltac:(lia)) as Hp.
  rewrite Hs in *. rewrite parseInt_digit_first by assumption.
  rewrite Hp. cbn [JS.parseDigits]. f_equal. lia.
Qed.

Lemma or_else_nonzero x d : d <> 0 -> JS.or_else x d <> 0.
Proof. destruct x as [|[| |]]; simpl; intros; lia. Qed.

Lemma list_query_meta {R} `{Model R} incl limit page sort w r w' :
  try_catch (list_query (R := R) incl limit page sort) on_error w = (Normal r, w') ->
  status r = 200 ->
  meta_of "limit" r = Some (JNum limit) /\ meta_of "page" r = Some (JNum page).
Proof.
  intros E Hs.
  destruct (list_query_200 _ _ _ _ _ _ _ E Hs) as (data & Hj & _).
  unfold meta_of. rewrite Hj. now split.
Qed.

(** The values of [parseInt(param) || default] on some parameters. *)
Example limit_of_examples :
  map (fun p => limit_of (mkQuery None p None None))
    [None; Some "25"; Some "abc"; Some ""; Some "0"; Some "5abc"; Some "2.7";
     Some " 7"; Some "0x10"; Some "-5"]
  = [10; 25; 10; 10; 10; 5; 2; 7; 16; -5].
Proof. reflexivity. Qed.

(** *** Numerals followed by other text *)

Lemma digits_of_app fuel n acc tail :
  (Reference.digits_of fuel n acc ++ tail)%string
  = Reference.digits_of fuel n (acc ++ tail)%string.
Proof.
  revert n acc. induction fuel as [|f IH]; intros n acc; [reflexivity|].
  cbn [Reference.digits_of].
  destruct (n / 10 =? 0); [reflexivity|]. now rewrite IH.
Qed.

Lemma digits_of_leading fuel n acc :
  0 < n -> (Z.to_nat n < fuel)%nat ->
  exists d r,
    1 <= d < 10
    /\ Reference.digits_of fuel n acc
       = String (ascii_of_nat (48 + Z.to_nat d)) r.
Proof.
  revert n acc. induction fuel as [|f IH]; intros n acc Hn Hf; [lia|].
  pose proof (Z.mod_pos_bound n 10 ltac:(lia)) as Hm.
  pose proof (Z.div_mod n 10 ltac:(lia)) as Hd.
  cbn [Reference.digits_of].
  destruct (n / 10 =? 0) eqn:E.
  - exists (n mod 10), acc. split; [lia | reflexivity].
  - apply IH; lia.
Qed.

Lemma parseDigits_stop radix c r acc :
  radix <= 10 -> is_decimal_digit c = false ->
  JS.parseDigits radix (String c r) acc = acc.
Proof.
  intros Hr Hc. cbn [JS.parseDigits]. unfold JS.digitValue.
  unfold is_decimal_digit in Hc.
  set (n := Z.of_nat (nat_of_ascii c)).
  assert (Hn : n = Z.of_nat (nat_of_ascii c)) by reflexivity.
  destruct ((48 <=? n) && (n <=? 57))%bool eqn:E1.
  - exfalso. apply andb_true_iff in E1. destruct E1 as [A B].
    apply Z.leb_le in A, B.
    assert (Nat.leb 48 (nat_of_ascii c) = true) by (apply Nat.leb_le; lia).
    assert (Nat.leb (nat_of_ascii c) 57 = true) by (apply Nat.leb_le; lia).
    rewrite H, H0 in Hc. discriminate.
  - destruct ((97 <=? n) && (n <=? 122))%bool eqn:E2.
    + apply andb_true_iff in E2. destruct E2 as [A B].
      apply Z.leb_le in A, B.
      replace (n - 87 <? radix) with false by lia. reflexivity.
    + destruct ((65 <=? n) && (n <=? 90))%bool eqn:E3; [|reflexivity].
      apply andb_true_iff in E3. destruct E3 as [A B].
      apply Z.leb_le in A, B.
      replace (n - 55 <? radix) with false by lia. reflexivity.
Qed.

Lemma parseDigits_end tail acc :
  ends_numeral tail -> JS.parseDigits 10 tail acc = acc.
Proof.
  destruct tail as [|c r]; [reflexivity|].
  intros H. apply parseDigits_stop; [lia | exact H].
Qed.

Lemma parseInt_leading_digit d r :
  1 <= d < 10 ->
  JS.parseInt (String (ascii_of_nat (48 + Z.to_nat d)) r)
  = match JS.parseDigits 10 (String (ascii_of_nat (48 + Z.to_nat d)) r) JS.NaN with
    | JS.NaN => JS.NaN
    | JS.Int n => JS.Int (1 * n)
    end.
Proof.
  intros Hd.
  assert (E : d = 1 \/ d = 2 \/ d = 3 \/ d = 4 \/ d = 5 \/ d = 6
              \/ d = 7 \/ d = 8 \/ d = 9) by lia.
  repeat destruct E as [-> | E]; try subst d; reflexivity.
Qed.

Lemma parseInt_minus_leading_digit d r :
  1 <= d < 10 ->
  JS.parseInt (String "-"%char (String (ascii_of_nat (48 + Z.to_nat d)) r))
  = match JS.parseDigits 10 (String (ascii_of_nat (48 + Z.to_nat d)) r) JS.NaN with
    | JS.NaN => JS.NaN
    | JS.Int n => JS.Int (-1 * n)
    end.
Proof.
  intros Hd.
  assert (E : d = 1 \/ d = 2 \/ d = 3 \/ d = 4 \/ d = 5 \/ d = 6
              \/ d = 7 \/ d = 8 \/ d = 9) by lia.
  repeat destruct E as [-> | E]; try subst d; reflexivity.
Qed.

Lemma parseDigits_numeral_tail n tail :
  0 < n -> ends_numeral tail ->
  JS.parseDigits 10 (Reference.render_Z n ++ tail)%string JS.NaN = JS.Int n.
Proof.
  intros Hn Ht. unfold Reference.render_Z.
  replace (n <? 0) with false by lia.
  rewrite digits_of_app. simpl append.
  rewrite parseDigits_digits_of by lia.
  now apply parseDigits_end.
Qed.

(** [parseInt] reads the numeral that a text starts with and stops at the
    first character that is not a decimal digit. *)
Lemma parseInt_numeral_tail n tail :
  0 < n -> ends_numeral tail ->
  JS.parseInt (Reference.render_Z n ++ tail)%string = JS.Int n.
Proof.
  intros Hn Ht.
  pose proof (parseDigits_numeral_tail n tail Hn Ht) as Hp.
  unfold Reference.render_Z in *.
  replace (n <? 0) with false in * by lia.
  destruct (digits_of_leading (S (Z.to_nat n)) n EmptyString Hn ltac:(lia))
    as (d & r & Hd & Hs).
  rewrite Hs in *. cbn [append] in *.
  rewrite parseInt_leading_digit by exact Hd.
  rewrite Hp. f_equal; lia.
Qed.

Lemma parseInt_minus_numeral_tail n tail :
  0 < n -> ends_numeral tail ->
  JS.parseInt (String "-"%char (Reference.render_Z n ++ tail))%string
  = JS.Int (- n).
Proof.
  intros Hn Ht.
  pose proof (parseDigits_numeral_tail n tail Hn Ht) as Hp.
  unfold Reference.render_Z in *.
  replace (n <? 0) with false in * by lia.
  destruct (digits_of_leading (S (Z.to_nat n)) n EmptyString Hn ltac:(lia))
    as (d & r & Hd & Hs).
  rewrite Hs in *. cbn [append] in *.
  rewrite parseInt_minus_leading_digit by exact Hd.
  rewrite Hp. f_equal; lia.
Qed.

Ltac each_character c :=
  destruct c as [[] [] [] [] [] [] [] []].

Lemma parseInt_zero tail :
  ends_zero tail -> JS.parseInt (String "0"%char tail) = JS.Int 0.
Proof.
  destruct tail as [|c r]; [reflexivity|].
  intros (Hd & Hx & HX).
  assert (Hp : JS.parseDigits 10 (String c r) (JS.Int 0) = JS.Int 0)
    by (apply parseDigits_stop; [lia | exact Hd]).
  revert Hd Hx HX Hp.
  each_character c; intros Hd Hx HX Hp;
    try discriminate Hd; try (exfalso; apply Hx; reflexivity);
    try (exfalso; apply HX; reflexivity);
    unfold JS.parseInt; cbn [JS.trimStart JS.isWhiteSpace JS.leadsWhiteSpace2
                             JS.leadsWhiteSpace3 nat_of_ascii];
    simpl; simpl in Hp; rewrite ?Hp; reflexivity.
Qed.

Lemma parseInt_not_numeric s : not_numeric s -> JS.parseInt s = JS.NaN.
Proof.
  destruct s as [|c r]; [reflexivity|].
  unfold not_numeric. each_character c; intros H; try discriminate H;
    reflexivity.
Qed.

Lemma reads_or_else default p :
  reads default p (JS.or_else (JS.parseInt (JS.ToString p)) default).
Proof.
  repeat split.
  - intros ->. reflexivity.
  - intros s Hs ->. simpl. now rewrite parseInt_not_numeric.
  - intros tail Ht ->. simpl. now rewrite parseInt_zero.
  - intros n tail Hn Ht ->. simpl. rewrite parseInt_numeral_tail by assumption.
    destruct n; simpl; lia.
  - intros n tail Hn Ht ->. simpl.
    rewrite parseInt_minus_numeral_tail by assumption.
    destruct n; simpl; lia.
Qed.

Lemma or_else_safe p default :
  safe_parameter p ->
  Z.abs default <= JS.MAX_SAFE_INTEGER ->
  Z.abs (JS.or_else (JS.parseInt (JS.ToString p)) default)
  <= JS.MAX_SAFE_INTEGER.
Proof.
  unfold safe_parameter.
  destruct (JS.parseInt (JS.ToString p)) as [|[| |]]; simpl; auto.
Qed.

(** C2, as the code has it.  For parameters whose leading integer, if any,
    is at most [MAX_SAFE_INTEGER] in absolute value, the page and the limit
    that a list handler uses are non-zero integers of that range.  Each is
    what [parseInt] reads from its query parameter, replaced by the default
    (page 1, limit 10) when the parameter is absent, starts with no integer
    or is a zero; a parameter that starts with the decimal numeral of a
    positive integer gives that integer, whatever text follows the numeral
    ([5abc] gives 5, [2.7] gives 2), and a minus sign before the numeral
    gives the negative integer, which is used as it is.  These are the
    values that the three list handlers report in [meta.limit] and
    [meta.page]. *)
Theorem C2_page_and_limit_defaults {B} (req : Request B) :
  safe_parameter (q_limit (query req)) ->
  safe_parameter (q_page (query req)) ->
  (limit_of (query req) <> 0
   /\ Z.abs (limit_of (query req)) <= JS.MAX_SAFE_INTEGER)
  /\ (page_of (query req) <> 0
      /\ Z.abs (page_of (query req)) <= JS.MAX_SAFE_INTEGER)
  /\ reads 10 (q_limit (query req)) (limit_of (query req))
  /\ reads 1 (q_page (query req)) (page_of (query req))
  /\ (forall s, q_limit (query req) = Some s ->
        limit_of (query req) = match JS.parseInt s with
                               | JS.NaN => 10
                               | JS.Int z => if z =? 0 then 10 else z
                               end)
  /\ (forall s, q_page (query req) = Some s ->
        page_of (query req) = match JS.parseInt s with
                              | JS.NaN => 1
                              | JS.Int z => if z =? 0 then 1 else z
                              end)
  /\ (forall w r w',
        getAllCourses req w = (Normal r, w')
        \/ getAllTeachers req w = (Normal r, w')
        \/ getAllStudents req w = (Normal r, w') ->
        status r = 200 ->
        meta_of "limit" r = Some (JNum (limit_of (query req)))
        /\ meta_of "page" r = Some (JNum (page_of (query req)))).
Proof.
  intros Sl Sp.
  split.
  { split; [apply or_else_nonzero; lia|].
    apply or_else_safe; [exact Sl | vm_compute; discriminate]. }
  split.
  { split; [apply or_else_nonzero; lia|].
    apply or_else_safe; [exact Sp | vm_compute; discriminate]. }
  split; [apply reads_or_else|].
  split; [apply reads_or_else|].
  split.
  { unfold limit_of. intros s ->. simpl.
    destruct (JS.parseInt s) as [|[| |]]; reflexivity. }
  split.
  { unfold page_of. intros s ->. simpl.
    destruct (JS.parseInt s) as [|[| |]]; reflexivity. }
  intros w r w' E Hs.
  destruct E as [E | [E | E]];
    [rewrite getAllCourses_view in E | rewrite getAllTeachers_view in E
     | rewrite getAllStudents_view in E];
    apply (list_query_meta _ _ _ _ _ _ _ E Hs).
Qed.

(** C2 fails as stated: with [limit=-5] the limit that [getAllCourses] uses
    and reports is -5, neither positive nor the default. *)
Lemma C2_negative_limit_is_used :
  limit_of Example.minus_five = -5
  /\ ~ (0 < limit_of Example.minus_five)
  /\ limit_of Example.minus_five <> 10
  /\ fst (getAllCourses (Example.get 0 Example.minus_five)
            (Example.world (Example.school false)))
     = Normal (mkResponse 200
                 (envelope 3 1 (-5) "DESC"
                    (map (fun c => JObj (Course_attributes c))
                       [Example.logic; Example.sets; Example.algebra])))
  /\ fst (getAllCourses (Example.get 0 Example.minus_five)
            (Example.world (Example.school true)))
     = Normal (mkResponse 500 (JObj [("error", JStr "negative LIMIT or OFFSET")])).
Proof.
  repeat split; try reflexivity; vm_compute; congruence.
Qed.

Lemma C2_witness :
  limit_of (mkQuery None (Some "5abc") None None) = 5
  /\ page_of (mkQuery None (Some "5abc") None None) = 1.
Proof.
  destruct (C2_page_and_limit_defaults
              (Example.get 0 (mkQuery None (Some "5abc") None None)))
    as (_ & _ & Hl & Hp & _).
  - vm_compute. discriminate.
  - exact I.
  - split.
    + destruct Hl as (_ & _ & _ & Hn & _).
      apply (Hn 5 "abc"); [lia | reflexivity | reflexivity].
    + destruct Hp as (Ha & _). apply Ha. reflexivity.
Defined.

(** The white space that [parseInt] skips includes the no-break space, and
    the digits that it reads stop at the first other character. *)
Example parseInt_examples :
  map JS.parseInt
    [String (ascii_of_nat 194) (String (ascii_of_nat 160) "7");
     String (ascii_of_nat 239)
       (String (ascii_of_nat 187) (String (ascii_of_nat 191) " 12px"));
     "2.7"; "-5"; "0x1F"; "x1"; ""]
  = [JS.Int 7; JS.Int 12; JS.Int 2; JS.Int (-5); JS.Int 31; JS.NaN; JS.NaN].
Proof. reflexivity. Qed.

(** ** The populate parameter *)

Lemma getCourseById_view {B} (req : Request B) :
  getCourseById req =
  try_catch
    (find_query (R := Course) (Course_includeOptions (q_populate (query req)))
       (params_id req) "messsage")
    on_error.
Proof. reflexivity. Qed.

Lemma getTeacherById_view {B} (req : Request B) :
  getTeacherById req =
  try_catch
    (find_query (R := Teacher) (courses_includeOptions (q_populate (query req)))
       (params_id req) "message")
    on_error.
Proof. reflexivity. Qed.

Lemma getStudentById_view {B} (req : Request B) :
  getStudentById req =
  try_catch
    (find_query (R := Student) (courses_includeOptions (q_populate (query req)))
       (params_id req) "message")
    on_error.
Proof. reflexivity. Qed.

Lemma includes_In l x : JS.includes l x = true <-> In x l.
Proof.
  unfold JS.includes. rewrite existsb_exists. split.
  - intros (y & Hy & E). apply String.eqb_eq in E. now subst.
  - intros H. exists x. split; [exact H | apply String.eqb_refl].
Qed.

Lemma includes_not_In l x : ~ In x l -> JS.includes l x = false.
Proof.
  intros H. destruct (JS.includes l x) eqn:E; [|reflexivity].
  now apply includes_In in E.
Qed.



Lemma Course_includeOptions_normal p :
  Course_includeOptions p =
  ((if JS.includes (populateArray_of p) "teacher" then [db_Teacher] else [])
   ++ (if JS.includes (populateArray_of p) "student" then [db_Student] else []))%list.
Proof.
  unfold Course_includeOptions, populateArray_of.
  now destruct (JS.truthy p).
Qed.

Lemma courses_includeOptions_normal p :
  courses_includeOptions p =
  if JS.includes (populateArray_of p) "courses" then [db_Course] else [].
Proof.
  unfold courses_includeOptions, populateArray_of.
  now destruct (JS.truthy p).
Qed.

Lemma includes_ext l l' x :
  (In x l <-> In x l') -> JS.includes l x = JS.includes l' x.
Proof.
  rewrite <- !includes_In. intros H.
  destruct (JS.includes l x), (JS.includes l' x); intuition congruence.
Qed.

(** The include options depend on the populate parameter only through the
    whitelisted names among its values. *)
Lemma Course_includeOptions_ext p p' :
  (forall v, In v Course_whitelist ->
     In v (populateArray_of p) <-> In v (populateArray_of p')) ->
  Course_includeOptions p = Course_includeOptions p'.
Proof.
  intros H. rewrite !Course_includeOptions_normal.
  rewrite (includes_ext _ _ _ (H "teacher" ltac:(simpl; tauto))).
  rewrite (includes_ext _ _ _ (H "student" ltac:(simpl; tauto))).
  reflexivity.
Qed.

Lemma courses_includeOptions_ext p p' :
  (forall v, In v courses_whitelist ->
     In v (populateArray_of p) <-> In v (populateArray_of p')) ->
  courses_includeOptions p = courses_includeOptions p'.
Proof.
  intros H. rewrite !courses_includeOptions_normal.
  rewrite (includes_ext _ _ _ (H "courses" ltac:(simpl; tauto))).
  reflexivity.
Qed.

Lemma unrecognized_same whitelist p :
  unrecognized whitelist p ->
  forall v, In v whitelist ->
    In v (populateArray_of p) <-> In v (populateArray_of None).
Proof.
  intros H v Hv. simpl. split; [|tauto]. intros Hi. exact (H v Hi Hv).
Qed.

Section Populate.

Context {R : Type} `{M : Model R}.

Lemma toJSON_load_nil d (r : R) : toJSON (load d [] r) = JObj (attributes r).
Proof. unfold toJSON, load. simpl. now rewrite app_nil_r. Qed.



Lemma find_query_ok w incl loaders id key :
  quiet w ->
  resolve (R := R) incl = Normal loaders ->
  try_catch (find_query (R := R) incl id key) on_error w =
  (Normal
     match find (fun r => pk r =? id) (rows_of R w) with
     | Some r => mkResponse 200 (toJSON (load (db w) loaders r))
     | None => mkResponse 404 (JObj [(key, JStr "Not found")])
     end,
   next_call w).
Proof.
  intros Hq Hr. unfold try_catch, find_query, bind, findByPk.
  rewrite persistence_quiet by exact Hq.
  unfold reading, rows_of. rewrite Hr.
  change (db (next_call w)) with (db w).
  rewrite <- (with_db_same (next_call w)) at 2.
  destruct (find _ _); reflexivity.
Qed.



End Populate.

Lemma Course_includeOptions_unrecognized p :
  unrecognized Course_whitelist p -> Course_includeOptions p = [].
Proof.
  intros H.
  now rewrite (Course_includeOptions_ext p None (unrecognized_same _ _ H)).
Qed.

Lemma courses_includeOptions_unrecognized p :
  unrecognized courses_whitelist p -> courses_includeOptions p = [].
Proof.
  intros H.
  now rewrite (courses_includeOptions_ext p None (unrecognized_same _ _ H)).
Qed.

Lemma Course_handlers_ignore {B} (req : Request B) p :
  unrecognized Course_whitelist p ->
  getAllCourses (with_populate p req) = getAllCourses (with_populate None req)
  /\ getCourseById (with_populate p req)
     = getCourseById (with_populate None req).
Proof.
  intros H. rewrite !getAllCourses_view, !getCourseById_view. simpl.
  rewrite (Course_includeOptions_unrecognized p H). now split.
Qed.

Lemma courses_handlers_ignore {B} (req : Request B) p :
  unrecognized courses_whitelist p ->
  getAllTeachers (with_populate p req) = getAllTeachers (with_populate None req)
  /\ getTeacherById (with_populate p req)
     = getTeacherById (with_populate None req)
  /\ getAllStudents (with_populate p req)
     = getAllStudents (with_populate None req)
  /\ getStudentById (with_populate p req)
     = getStudentById (with_populate None req).
Proof.
  intros H.
  rewrite !getAllTeachers_view, !getTeacherById_view,
    !getAllStudents_view, !getStudentById_view. simpl.
  rewrite (courses_includeOptions_unrecognized p H). now repeat split.
Qed.

(** ** C9 *)



(** ** C10 *)

Lemma append_last a c r :
  ((a ++ String c EmptyString) ++ r)%string = (a ++ String c r)%string.
Proof. induction a; simpl; [reflexivity | now rewrite IHa]. Qed.

Lemma split_from_no_comma cur s :
  no_comma s -> JS.split_from cur s = [(cur ++ s)%string].
Proof.
  revert cur. induction s as [|c r IH]; simpl; intros cur H.
  - f_equal. induction cur; simpl; [reflexivity | now f_equal].
  - destruct H as [Hc Hr].
    destruct (Ascii.eqb c ",") eqn:E; [apply Ascii.eqb_eq in E; contradiction|].
    rewrite IH by exact Hr. now rewrite append_last.
Qed.

Lemma split_comma_no_comma s : no_comma s -> JS.split_comma s = [s].
Proof. apply split_from_no_comma. Qed.

Lemma no_comma_toLowerCase s : no_comma (JS.toLowerCase s) -> no_comma s.
Proof.
  induction s as [|c r IH]; simpl; [trivial|].
  intros [Hc Hr]. split; [|now apply IH].
  intros ->. now apply Hc.
Qed.

Lemma populateArray_of_single v :
  no_comma v -> forall x, In x (populateArray_of (Some v)) -> x = v.
Proof.
  intros H x. unfold populateArray_of.
  destruct (JS.truthy (Some v)); simpl; [|tauto].
  rewrite (split_comma_no_comma v H). simpl. intuition.
Qed.

(** A value that is a whitelisted name but for the case of its letters is
    not recognized. *)
Lemma case_variant_unrecognized whitelist v :
  Forall no_comma whitelist ->
  case_variant whitelist v ->
  unrecognized whitelist (Some v).
Proof.
  intros Hw [Hl Hn] x Hx.
  rewrite Forall_forall in Hw.
  rewrite (populateArray_of_single v) with (x := x); auto.
  apply no_comma_toLowerCase. now apply Hw.
Qed.

Lemma Course_whitelist_no_comma : Forall no_comma Course_whitelist.
Proof. repeat constructor; discriminate. Qed.

Lemma courses_whitelist_no_comma : Forall no_comma courses_whitelist.
Proof. repeat constructor; discriminate. Qed.

(** C10.  The whitelist match is exact and case-sensitive.  A populate value
    that is a whitelisted relation name up to letter case but not letter for
    letter (such as [Teacher] or [COURSES]) gives no include option, and the
    handler then behaves as it does without the parameter; the lower-case
    spellings [teacher], [student] and [courses] give the include option of
    their relation. *)
Theorem C10_populate_is_case_sensitive {B} (req : Request B) (v : string) :
  (case_variant Course_whitelist v ->
   Course_includeOptions (Some v) = []
   /\ getAllCourses (with_populate (Some v) req)
      = getAllCourses (with_populate None req)
   /\ getCourseById (with_populate (Some v) req)
      = getCourseById (with_populate None req))
  /\ (case_variant courses_whitelist v ->
      courses_includeOptions (Some v) = []
      /\ getAllTeachers (with_populate (Some v) req)
         = getAllTeachers (with_populate None req)
      /\ getTeacherById (with_populate (Some v) req)
         = getTeacherById (with_populate None req)
      /\ getAllStudents (with_populate (Some v) req)
         = getAllStudents (with_populate None req)
      /\ getStudentById (with_populate (Some v) req)
         = getStudentById (with_populate None req))
  /\ Course_includeOptions (Some "teacher") = [db_Teacher]
  /\ Course_includeOptions (Some "student") = [db_Student]
  /\ courses_includeOptions (Some "courses") = [db_Course]
  /\ case_variant Course_whitelist "Teacher"
  /\ case_variant courses_whitelist "COURSES".
Proof.
  split.
  { intros H.
    pose proof (case_variant_unrecognized _ _ Course_whitelist_no_comma H) as U.
    split; [now apply Course_includeOptions_unrecognized|].
    now apply Course_handlers_ignore. }
  split.
  { intros H.
    pose proof (case_variant_unrecognized _ _ courses_whitelist_no_comma H) as U.
    split; [now apply courses_includeOptions_unrecognized|].
    now apply courses_handlers_ignore. }
  repeat split; try reflexivity.
  - simpl; tauto.
  - intros [E | [E | []]]; discriminate E.
  - simpl; tauto.
  - intros [E | []]; discriminate E.
Qed.

Lemma C10_witness :
  Course_includeOptions (Some "Teacher") = []
  /\ courses_includeOptions (Some "COURSES") = [].
Proof.
  destruct (C10_populate_is_case_sensitive (Example.get 0 no_query) "Teacher")
    as (Hc & _ & _ & _ & _ & Ht & _).
  destruct (C10_populate_is_case_sensitive (Example.get 0 no_query) "COURSES")
    as (_ & Hs & _ & _ & _ & _ & Hu).
  split; [exact (proj1 (Hc Ht)) | exact (proj1 (Hs Hu))].
Defined.

(** What the two spellings give on the example school. *)
Example populate_teacher_exact :
  option_map (fun r => (status r, keys (json r)))
    (match fst (getCourseById
                  (Example.get 1 (mkQuery None None None (Some "teacher")))
                  (Example.world (Example.school true))) with
     | Normal r => Some r
     | Throw _ => None
     end)
  = Some (200, ["id"; "title"; "description"; "TeacherId"; "createdAt"; "Teacher"]).
Proof. reflexivity. Qed.

Example populate_Teacher_capital :
  option_map (fun r => (status r, keys (json r)))
    (match fst (getCourseById
                  (Example.get 1 (mkQuery None None None (Some "Teacher")))
                  (Example.world (Example.school true))) with
     | Normal r => Some r
     | Throw _ => None
     end)
  = Some (200, ["id"; "title"; "description"; "TeacherId"; "createdAt"]).
Proof. reflexivity. Qed.

(** ** Updates *)

Lemma updateCourse_view (req : Request CoursePatch) :
  updateCourse req =
  try_catch (update_query (R := Course) (params_id req) (body req)) on_error.
Proof. reflexivity. Qed.

Lemma updateTeacher_view (req : Request TeacherPatch) :
  updateTeacher req =
  try_catch (update_query (R := Teacher) (params_id req) (body req)) on_error.
Proof. reflexivity. Qed.

Lemma updateStudent_view (req : Request StudentPatch) :
  updateStudent req =
  try_catch (update_query (R := Student) (params_id req) (body req)) on_error.
Proof. reflexivity. Qed.

Section Update.

Context {R : Type} `{M : Model R}.

Hypothesis pk_set : forall (p : Patch) (r : R), pk (set p r) = pk r.
Hypothesis table_set_table :
  forall (t : Table R) d, table (set_table t d) = t.

Lemma find_after_set (p : Patch) id j (l : list R) :
  find (fun r => pk r =? j)
    (map (fun r => if pk r =? id then set p r else r) l)
  = if j =? id
    then option_map (set p) (find (fun r => pk r =? id) l)
    else find (fun r => pk r =? j) l.
Proof.
  induction l as [|x t IH]; simpl.
  - now destruct (j =? id).
  - destruct (pk x =? id) eqn:Ex.
    + rewrite pk_set. destruct (j =? id) eqn:Ej.
      * replace (pk x =? j) with true by lia. reflexivity.
      * replace (pk x =? j) with false by lia. exact IH.
    + destruct (pk x =? j) eqn:Exj.
      * replace (j =? id) with false by lia. reflexivity.
      * rewrite IH. reflexivity.
Qed.

Lemma update_query_not_found w id (patch : Patch) :
  quiet w ->
  lookup R w id = None ->
  not_found_outcome w (try_catch (update_query id patch) on_error w).
Proof.
  intros Hq Hn. unfold try_catch, update_query, bind, findByPk.
  rewrite persistence_quiet by exact Hq.
  unfold reading. simpl. unfold lookup, rows_of in Hn. rewrite Hn. simpl.
  split; reflexivity.
Qed.

Lemma update_query_found w id (patch : Patch) (c : R) :
  quiet w ->
  lookup R w id = Some c ->
  updated_outcome R id w (try_catch (update_query id patch) on_error w)
    (set patch c).
Proof.
  intros Hq Hc. unfold try_catch, update_query, bind, findByPk.
  rewrite persistence_quiet by exact Hq.
  unfold reading. simpl.
  pose proof Hc as Hf. unfold lookup, rows_of in Hf. rewrite Hf. simpl.
  unfold update. rewrite persistence_quiet
    by (apply quiet_with_db, quiet_next_call, Hq).
  simpl.
  assert (Hid : pk c = id).
  { apply find_some in Hf. destruct Hf as [_ Hf]. simpl in Hf. lia. }
  unfold updated_outcome, lookup, rows_of; simpl.
  rewrite table_set_table; simpl. rewrite Hid.
  repeat split.
  - unfold toJSON. simpl. now rewrite app_nil_r.
  - intros j. rewrite find_after_set, Hf. reflexivity.
  - apply length_map.
Qed.

Lemma update_query_db w id (patch : Patch) (c : R) :
  quiet w ->
  lookup R w id = Some c ->
  db (snd (try_catch (update_query id patch) on_error w))
  = set_table
      (mkTable (map (fun r => if pk r =? id then set patch r else r)
                  (rows_of R w))
               (next_id (table (db w)))) (db w).
Proof.
  intros Hq Hc. unfold try_catch, update_query, bind, findByPk.
  rewrite persistence_quiet by exact Hq.
  unfold reading. simpl.
  pose proof Hc as Hf. unfold lookup, rows_of in Hf. rewrite Hf. simpl.
  unfold update. rewrite persistence_quiet
    by (apply quiet_with_db, quiet_next_call, Hq).
  simpl.
  assert (Hid : pk c = id).
  { apply find_some in Hf. destruct Hf as [_ Hf]. simpl in Hf. lia. }
  now rewrite Hid.
Qed.

End Update.

Ltac merged_fields :=
  match goal with
  | req : Request _ |- _ =>
      destruct req as [? ? []]; simpl;
      repeat match goal with
             | o : option _ |- _ => destruct o
             end;
      simpl; repeat split
  end.

(** ** C8 *)

(** C8.  As long as the persistence layer does not fail, each of
    [updateCourse], [updateTeacher] and [updateStudent] answers 404 and
    leaves the store unchanged when no record has the primary key [id];
    otherwise it answers 200 with the updated record, in which exactly the
    fields that the body names are overwritten and every other field keeps
    its value; the updated record takes the place of the old one and nothing
    else in the store changes. *)
Theorem C8_update_is_a_partial_merge (w : World) :
  quiet w ->
  (forall req : Request CoursePatch,
     (lookup Course w (params_id req) = None ->
      not_found_outcome w (updateCourse req w))
     /\ (forall c, lookup Course w (params_id req) = Some c ->
         exists c',
           updated_outcome Course (params_id req) w (updateCourse req w) c'
           /\ merged (cp_title (body req)) (course_title c) (course_title c')
           /\ merged (cp_description (body req)) (course_description c)
                (course_description c')
           /\ merged (cp_TeacherId (body req)) (course_TeacherId c)
                (course_TeacherId c')
           /\ course_id c' = course_id c
           /\ course_createdAt c' = course_createdAt c
           /\ with_Courses (Courses (db w)) (db (snd (updateCourse req w)))
              = db w))
  /\ (forall req : Request TeacherPatch,
        (lookup Teacher w (params_id req) = None ->
         not_found_outcome w (updateTeacher req w))
        /\ (forall t, lookup Teacher w (params_id req) = Some t ->
            exists t',
              updated_outcome Teacher (params_id req) w (updateTeacher req w) t'
              /\ merged (tp_name (body req)) (teacher_name t) (teacher_name t')
              /\ merged (tp_department (body req)) (teacher_department t)
                   (teacher_department t')
              /\ teacher_id t' = teacher_id t
              /\ teacher_createdAt t' = teacher_createdAt t
              /\ with_Teachers (Teachers (db w))
                   (db (snd (updateTeacher req w))) = db w))
  /\ (forall req : Request StudentPatch,
        (lookup Student w (params_id req) = None ->
         not_found_outcome w (updateStudent req w))
        /\ (forall s, lookup Student w (params_id req) = Some s ->
            exists s',
              updated_outcome Student (params_id req) w (updateStudent req w) s'
              /\ merged (sp_name (body req)) (student_name s) (student_name s')
              /\ merged (sp_email (body req)) (student_email s)
                   (student_email s')
              /\ student_id s' = student_id s
              /\ student_createdAt s' = student_createdAt s
              /\ with_Students (Students (db w))
                   (db (snd (updateStudent req w))) = db w)).
Proof.
  intros Hq. split; [|split]; intros req; (split; [intros Hn | intros c Hc]).
  - rewrite updateCourse_view. now apply update_query_not_found.
  - exists (@set Course Course_Model (body req) c).
    split; [rewrite updateCourse_view; now apply update_query_found|].
    rewrite updateCourse_view, (update_query_db (R := Course)) with (c := c)
      by auto.
    destruct (db w). merged_fields.
  - rewrite updateTeacher_view. now apply update_query_not_found.
  - exists (@set Teacher Teacher_Model (body req) c).
    split; [rewrite updateTeacher_view; now apply update_query_found|].
    rewrite updateTeacher_view, (update_query_db (R := Teacher)) with (c := c)
      by auto.
    destruct (db w). merged_fields.
  - rewrite updateStudent_view. now apply update_query_not_found.
  - exists (@set Student Student_Model (body req) c).
    split; [rewrite updateStudent_view; now apply update_query_found|].
    rewrite updateStudent_view, (update_query_db (R := Student)) with (c := c)
      by auto.
    destruct (db w). merged_fields.
Qed.

Lemma C8_witness :
  exists c',
    updated_outcome Course 2 (Example.world (Example.school true))
      (updateCourse (Example.put 2 (mkCoursePatch (Some "Modal logic") None None))
         (Example.world (Example.school true))) c'
    /\ course_title c' = "Modal logic"
    /\ course_description c' = "Proofs".
Proof.
  destruct (C8_update_is_a_partial_merge (Example.world (Example.school true)))
    as (Hc & _); [constructor|].
  destruct (Hc (Example.put 2 (mkCoursePatch (Some "Modal logic") None None)))
    as (_ & Hf).
  destruct (Hf Example.logic eq_refl) as (c' & Ho & Ht & Hd & _).
  exists c'. split; [exact Ho | split; [exact Ht | exact Hd]].
Defined.

(** ** Registration and login *)

Lemma find_email_none email (l : list User) :
  (forall u, In u l -> user_email u <> email) ->
  find (fun u => String.eqb (user_email u) email) l = None.
Proof.
  intros H. induction l as [|x t IH]; simpl; [reflexivity|].
  destruct (String.eqb (user_email x) email) eqn:E.
  - apply String.eqb_eq in E. exfalso. apply (H x); simpl; auto.
  - apply IH. intros u Hu. apply H. simpl; auto.
Qed.

Lemma find_email_some email (l : list User) :
  (exists u, In u l /\ user_email u = email) ->
  exists u, find (fun u => String.eqb (user_email u) email) l = Some u.
Proof.
  intros (u & Hi & He).
  destruct (find _ l) eqn:E; [now eexists|].
  pose proof (find_none _ _ E u Hi) as H. simpl in H.
  rewrite He, String.eqb_refl in H. discriminate.
Qed.

Lemma find_email_unique email (l : list User) u :
  NoDup (map user_email l) ->
  In u l -> user_email u = email ->
  find (fun u => String.eqb (user_email u) email) l = Some u.
Proof.
  intros Hn Hi <-. induction l as [|x t IH]; simpl in *; [contradiction|].
  inversion Hn as [|? ? Hx Ht]; subst.
  destruct Hi as [-> | Hi].
  - now rewrite String.eqb_refl.
  - destruct (String.eqb (user_email x) (user_email u)) eqn:E.
    + apply String.eqb_eq in E. exfalso. apply Hx. rewrite E.
      now apply in_map.
    + now apply IH.
Qed.

Section AuthProperties.

Context `{C : Crypto}.

Lemma findOne_quiet w email :
  quiet w ->
  User_findOne_where_email email w =
  (Normal (find (fun u => String.eqb (user_email u) email) (users_of w)),
   next_call w).
Proof.
  intros Hq. unfold User_findOne_where_email.
  rewrite persistence_quiet by exact Hq. unfold reading. simpl.
  now rewrite <- (with_db_same (next_call w)) at 2.
Qed.

Lemma register_existing req w :
  quiet w ->
  (exists u, In u (users_of w) /\ user_email u = cred_email (body req)) ->
  register req w =
  (Normal (mkResponse 400 (JObj [("message", JStr "Email already exists")])),
   next_call w).
Proof.
  intros Hq He. unfold register, bind.
  rewrite findOne_quiet by exact Hq.
  destruct (find_email_some _ _ He) as [u ->]. reflexivity.
Qed.

Lemma register_new req w :
  quiet w ->
  (forall u, In u (users_of w) -> user_email u <> cred_email (body req)) ->
  let u := mkUser (next_id (Users (db w))) (cred_name (body req))
             (cred_email (body req))
             (bcrypt_hash (cred_password (body req)) 10 (salt w)) in
  register req w =
  (Normal (mkResponse 201
             (JObj [("message", JStr "User registered successfully");
                    ("user", public_identity u)])),
   with_db (with_Users (mkTable (users_of w ++ [u])
                          (next_id (Users (db w)) + 1)) (db w))
     (next_call (next_call w))).
Proof.
  intros Hq Hn u. unfold register, bind.
  rewrite findOne_quiet by exact Hq.
  rewrite (find_email_none _ _ Hn).
  unfold bcrypt_hash_async, User_create.
  rewrite persistence_quiet by now apply quiet_next_call.
  reflexivity.
Qed.

Lemma login_quiet req w :
  quiet w ->
  login req w =
  (Normal
     match find (fun u => String.eqb (user_email u) (cred_email (body req)))
             (users_of w) with
     | None => mkResponse 404 (JObj [("message", JStr "User not found")])
     | Some u =>
         if bcrypt_compare (cred_password (body req)) (user_password u)
         then mkResponse 200
                (JObj [("token", JStr (jws_sign (token_payload u w) (SELECT w)));
                       ("user", public_identity u)])
         else mkResponse 401 (JObj [("message", JStr "Invalid credentials")])
     end,
   next_call w).
Proof.
  intros Hq. unfold login, bind.
  rewrite findOne_quiet by exact Hq.
  destruct (find _ _) as [u|]; [|reflexivity].
  unfold bcrypt_compare_async, ret.
  destruct (bcrypt_compare _ _); reflexivity.
Qed.

End AuthProperties.

(** [register] keeps the emails of the users pairwise distinct, as long as
    the persistence layer does not fail. *)
Lemma register_keeps_emails_unique `{C : Crypto} req w :
  quiet w -> unique_emails w -> unique_emails (snd (register req w)).
Proof.
  intros Hq Hu.
  destruct (find (fun u => String.eqb (user_email u) (cred_email (body req)))
              (users_of w)) as [u|] eqn:E.
  - rewrite register_existing; [exact Hu | exact Hq|].
    apply find_some in E. destruct E as [Hi He].
    apply String.eqb_eq in He. now exists u.
  - rewrite register_new; [|exact Hq|].
    + unfold unique_emails, users_of in *. simpl.
      rewrite map_app. simpl.
      apply NoDup_app_remove_l with (l := []). simpl.
      apply Permutation_NoDup with (l := cred_email (body req)
                                           :: map user_email (rows (Users (db w)))).
      * apply Permutation_cons_append.
      * constructor; [|exact Hu].
        intros Hi. apply in_map_iff in Hi. destruct Hi as (u & He & Hi).
        pose proof (find_none _ _ E u Hi) as H. simpl in H.
        rewrite He, String.eqb_refl in H. discriminate.
    + intros u Hi He. pose proof (find_none _ _ E u Hi) as H. simpl in H.
      rewrite He, String.eqb_refl in H. discriminate.
Qed.

(** Registering the same email a second time is answered 400. *)
Lemma register_twice `{C : Crypto} req w :
  quiet w ->
  (forall u, In u (users_of w) -> user_email u <> cred_email (body req)) ->
  fst (register req (snd (register req w)))
  = Normal (mkResponse 400 (JObj [("message", JStr "Email already exists")])).
Proof.
  intros Hq Hn. rewrite (register_new req w Hq Hn). cbn [snd].
  rewrite register_existing; [reflexivity | |].
  - apply quiet_with_db. now do 2 apply quiet_next_call.
  - eexists. split.
    + unfold users_of. simpl. apply in_or_app. right. left. reflexivity.
    + reflexivity.
Qed.

(** ** C5 *)

(** C5.  As long as the persistence layer does not fail: when a user with
    the email exists, [register] answers 400 with a message and leaves the
    store unchanged; otherwise it adds one user, whose password field is the
    bcrypt hash of the password (and so not the password), and answers 201
    with a body that carries, of the created user, the id and the email
    only. *)
Theorem C5_register `{C : Crypto} (req : Request Credentials) (w : World) :
  quiet w ->
  ((exists u, In u (users_of w) /\ user_email u = cred_email (body req)) ->
   fst (register req w)
   = Normal (mkResponse 400 (JObj [("message", JStr "Email already exists")]))
   /\ db (snd (register req w)) = db w)
  /\ ((forall u, In u (users_of w) -> user_email u <> cred_email (body req)) ->
      exists u,
        users_of (snd (register req w)) = (users_of w ++ [u])%list
        /\ with_Users (Users (db w)) (db (snd (register req w))) = db w
        /\ user_name u = cred_name (body req)
        /\ user_email u = cred_email (body req)
        /\ user_password u
           = bcrypt_hash (cred_password (body req)) 10 (salt w)
        /\ user_password u <> cred_password (body req)
        /\ fst (register req w)
           = Normal (mkResponse 201
                       (JObj [("message", JStr "User registered successfully");
                              ("user", public_identity u)]))
        /\ keys (public_identity u) = ["id"; "email"]).
Proof.
  intros Hq. split.
  - intros He. rewrite register_existing by assumption. now split.
  - intros Hn. rewrite register_new by assumption.
    eexists. split; [reflexivity|].
    split; [simpl; now destruct (db w)|].
    repeat split. simpl. apply bcrypt_hash_not_plain.
Qed.

Lemma C5_witness :
  fst (register (Example.post (mkCredentials "Virak" "virak@gmail.com" "pw"))
         (Example.world (Example.school true)))
  = Normal (mkResponse 400 (JObj [("message", JStr "Email already exists")]))
  /\ exists u,
       users_of (snd (register
                        (Example.post (mkCredentials "Dara" "dara@gmail.com" "pw"))
                        (Example.world (Example.school true))))
       = [Example.virak; u]
       /\ user_password u <> "pw".
Proof.
  split.
  - apply (C5_register
             (Example.post (mkCredentials "Virak" "virak@gmail.com" "pw"))
             (Example.world (Example.school true))).
    + constructor.
    + exists Example.virak. split; [left|]; reflexivity.
  - destruct (C5_register
                (Example.post (mkCredentials "Dara" "dara@gmail.com" "pw"))
                (Example.world (Example.school true)))
      as (_ & Hn); [constructor|].
    destruct Hn as (u & Hu & _ & _ & _ & _ & Hp & _).
    + intros u [<- | []]. discriminate.
    + exists u. split; [exact Hu | exact Hp].
Defined.

(** ** C6 *)

(** C6.  As long as the persistence layer does not fail, and with emails
    unique among the users: when no user has the email, [login] answers 404;
    when a user has it and the password does not verify against the stored
    hash, 401; otherwise 200 with the public identity (id, email) of the user
    and a token, signed with the process-wide secret [SELECT], whose payload
    is the id and the email of the user, the issue time and an expiry 3600
    seconds later. *)
Theorem C6_login `{C : Crypto} (req : Request Credentials) (w : World) :
  quiet w ->
  unique_emails w ->
  ((forall u, In u (users_of w) -> user_email u <> cred_email (body req)) ->
   fst (login req w)
   = Normal (mkResponse 404 (JObj [("message", JStr "User not found")])))
  /\ (forall u,
        In u (users_of w) -> user_email u = cred_email (body req) ->
        (bcrypt_compare (cred_password (body req)) (user_password u) = false ->
         fst (login req w)
         = Normal (mkResponse 401
                     (JObj [("message", JStr "Invalid credentials")])))
        /\ (bcrypt_compare (cred_password (body req)) (user_password u) = true ->
            fst (login req w)
            = Normal (mkResponse 200
                        (JObj [("token",
                                JStr (jws_sign (token_payload u w) (SELECT w)));
                               ("user", public_identity u)]))
            /\ get_key "id" (token_payload u w) = Some (JNum (user_id u))
            /\ get_key "email" (token_payload u w) = Some (JStr (user_email u))
            /\ (exists iat,
                  get_key "iat" (token_payload u w) = Some (JNum iat)
                  /\ get_key "exp" (token_payload u w)
                     = Some (JNum (iat + 3600)))
            /\ keys (public_identity u) = ["id"; "email"]))
  /\ (JWT_SECRET w = None -> SELECT w = "virak123")
  /\ (forall s, JWT_SECRET w = Some s -> s <> EmptyString -> SELECT w = s).
Proof.
  intros Hq Hu. rewrite login_quiet by exact Hq. repeat split.
  - intros Hn. now rewrite (find_email_none _ _ Hn).
  - intros Hc. rewrite (find_email_unique _ _ u Hu H H0). simpl.
    now rewrite Hc.
  - rewrite (find_email_unique _ _ u Hu H H0). simpl. now rewrite H1.
  - eexists. split; reflexivity.
  - unfold SELECT. now intros ->.
  - unfold SELECT. intros s -> Hs. destruct s; [contradiction | reflexivity].
Qed.

Lemma C6_witness :
  fst (login (Example.post (mkCredentials "" "virak@gmail.com" "name@123$"))
         (Example.world (Example.school true)))
  = Normal (mkResponse 200
              (JObj [("token",
                      JStr (jws_sign
                              (token_payload Example.virak
                                 (Example.world (Example.school true)))
                              "virak123"));
                     ("user", public_identity Example.virak)]))
  /\ fst (login (Example.post (mkCredentials "" "virak@gmail.com" "guess"))
            (Example.world (Example.school true)))
     = Normal (mkResponse 401 (JObj [("message", JStr "Invalid credentials")]))
  /\ fst (login (Example.post (mkCredentials "" "nobody@gmail.com" "guess"))
            (Example.world (Example.school true)))
     = Normal (mkResponse 404 (JObj [("message", JStr "User not found")])).
Proof.
  assert (Hq : quiet (Example.world (Example.school true))) by constructor.
  assert (Hu : unique_emails (Example.world (Example.school true)))
    by (repeat constructor; simpl; tauto).
  split; [|split].
  - destruct (C6_login
                (Example.post (mkCredentials "" "virak@gmail.com" "name@123$"))
                _ Hq Hu) as (_ & H & _).
    destruct (H Example.virak) as (_ & Hok); [now left | reflexivity|].
    apply Hok. reflexivity.
  - destruct (C6_login
                (Example.post (mkCredentials "" "virak@gmail.com" "guess"))
                _ Hq Hu) as (_ & H & _).
    destruct (H Example.virak) as (Hbad & _); [now left | reflexivity|].
    apply Hbad. reflexivity.
  - destruct (C6_login
                (Example.post (mkCredentials "" "nobody@gmail.com" "guess"))
                _ Hq Hu) as (H & _).
    apply H. intros u [<- | []]. discriminate.
Defined.

(** ** Exceptions of the persistence layer *)

Lemma faithful_ret {A} (a : A) : faithful (ret a).
Proof. intros w. reflexivity. Qed.

Lemma faithful_persistence {A} (op : Database -> Completion (A * Database)) :
  faithful (persistence op).
Proof.
  intros w.
  destruct (persistence_cases op w) as [(a & d & -> & _) | (m & ->)];
    reflexivity.
Qed.

Lemma faithful_bind {A B} (m : Async A) (k : A -> Async B) :
  faithful m -> (forall a, faithful (k a)) -> faithful (bind m k).
Proof.
  intros Hm Hk w. unfold bind. specialize (Hm w).
  destruct (m w) as [[a|e] w1]; [|exact Hm].
  specialize (Hk a w1). destruct (k a w1) as [[b|e] w2]; congruence.
Qed.

Lemma faithful_create {R} `{Model R} (values : Values) :
  faithful (create (R := R) values).
Proof. intros w. unfold create. apply faithful_persistence. Qed.

Lemma try_catch_on_error (body : Async Response) w :
  faithful body ->
  exists r,
    fst (try_catch body on_error w) = Normal r
    /\ (raised (snd (try_catch body on_error w)) = raised w
        \/ exists m,
             raised (snd (try_catch body on_error w)) = (raised w ++ [m])%list
             /\ r = mkResponse 500 (JObj [("error", JStr m)])).
Proof.
  intros Hb. unfold try_catch. specialize (Hb w).
  destruct (body w) as [[r|e] w1]; simpl.
  - exists r. split; [reflexivity | now left].
  - eexists. split; [reflexivity|]. right. now exists e.
Qed.

Ltac faithful_body :=
  repeat first
    [ apply faithful_ret
    | apply faithful_persistence
    | apply faithful_create
    | apply faithful_bind; [| intros ? ]
    | match goal with
      | o : option _ |- faithful (match ?o with _ => _ end) => destruct o
      end ].

Ltac catches :=
  intros req w; apply try_catch_on_error;
  unfold count, findAll, findByPk, update, destroy,
    res_json, res_status_json;
  faithful_body.

(** The fifteen handlers of the Course, Teacher and Student controllers
    catch the exceptions of the persistence layer and answer 500 with the
    message. *)
Lemma crud_handlers_catch :
  catches_persistence_failures createCourse
  /\ (forall B, catches_persistence_failures (@getAllCourses B))
  /\ (forall B, catches_persistence_failures (@getCourseById B))
  /\ catches_persistence_failures updateCourse
  /\ (forall B, catches_persistence_failures (@deleteCourse B))
  /\ catches_persistence_failures createTeacher
  /\ (forall B, catches_persistence_failures (@getAllTeachers B))
  /\ (forall B, catches_persistence_failures (@getTeacherById B))
  /\ catches_persistence_failures updateTeacher
  /\ (forall B, catches_persistence_failures (@deleteTeacher B))
  /\ catches_persistence_failures createStudent
  /\ (forall B, catches_persistence_failures (@getAllStudents B))
  /\ (forall B, catches_persistence_failures (@getStudentById B))
  /\ catches_persistence_failures updateStudent
  /\ (forall B, catches_persistence_failures (@deleteStudent B)).
Proof.
  repeat match goal with |- _ /\ _ => split end;
    try lazymatch goal with |- forall B : Type, _ => intros B end;
    catches.
Qed.

(** ** C1 *)

(** C1, where the code departs from it.  [register], [login] and
    [getAllUsers] have no [try]/[catch]: when the persistence layer raises
    an exception the handler sends no response and the exception leaves it,
    whereas a handler of the other controllers ([createTeacher] here)
    answers 500 with the message. *)
Theorem C1_auth_handlers_do_not_catch `{C : Crypto} :
  fst (register (Example.post (mkCredentials "Dara" "dara@gmail.com" "pw"))
         (Example.broken (Example.school true)))
  = Throw "connect ECONNREFUSED"
  /\ fst (login (Example.post (mkCredentials "" "virak@gmail.com" "name@123$"))
            (Example.broken (Example.school true)))
     = Throw "connect ECONNREFUSED"
  /\ fst (getAllUsers (Example.get 0 no_query)
            (Example.broken (Example.school true)))
     = Throw "connect ECONNREFUSED"
  /\ raised (snd (register
                    (Example.post (mkCredentials "Dara" "dara@gmail.com" "pw"))
                    (Example.broken (Example.school true))))
     = ["connect ECONNREFUSED"]
  /\ fst (createTeacher (Example.post (mkTeacherValues "Dara" "Physics"))
            (Example.broken (Example.school true)))
     = Normal (mkResponse 500 (JObj [("error", JStr "connect ECONNREFUSED")])).
Proof. repeat split. Qed.

(** The auth handlers let every scheduled failure of their first query
    escape. *)
Lemma auth_handlers_throw `{C : Crypto} {B} (creds : Request Credentials)
    (req : Request B) w m fs :
  faults w = Some m :: fs ->
  fst (register creds w) = Throw m
  /\ fst (login creds w) = Throw m
  /\ fst (getAllUsers req w) = Throw m.
Proof.
  intros Hf.
  unfold register, login, getAllUsers, bind, User_findOne_where_email,
    User_findAll_attributes.
  rewrite !(persistence_fault _ w m fs Hf). now repeat split.
Qed.

(** ** The shape of the responses *)

Lemma sends_ret {A} (post : A -> Prop) (a : A) :
  post a -> sends_well_formed post (ret a).
Proof. intros H w a' w' E. inversion E. now subst. Qed.

Lemma sends_bind {A B} (post : B -> Prop) (m : Async A) (k : A -> Async B) :
  (forall a, sends_well_formed post (k a)) ->
  sends_well_formed post (bind m k).
Proof.
  intros Hk w b w' E. unfold bind in E.
  destruct (m w) as [[a|e] w1]; [|discriminate].
  exact (Hk a w1 b w' E).
Qed.

Lemma sends_try_catch (body : Async Response) :
  sends_well_formed well_formed body ->
  sends_well_formed well_formed (try_catch body on_error).
Proof.
  intros Hb w r w' E. unfold try_catch in E.
  destruct (body w) as [[r1|e] w1] eqn:Eb.
  - inversion E; subst. exact (Hb w r w' Eb).
  - inversion E; subst. split; simpl; tauto.
Qed.

Lemma well_formed_ok (j : Json) : well_formed (mkResponse 200 j).
Proof. split; simpl; tauto. Qed.

Lemma well_formed_created (j : Json) : well_formed (mkResponse 201 j).
Proof. split; simpl; tauto. Qed.

Lemma well_formed_message code (s : string) :
  In code [400; 401; 404] ->
  well_formed (mkResponse code (JObj [("message", JStr s)])).
Proof. intros H. split; simpl in *; tauto. Qed.

Ltac sends :=
  repeat first
    [ apply sends_try_catch
    | apply sends_bind; intros ?
    | apply sends_ret
    | apply well_formed_ok
    | apply well_formed_created
    | apply well_formed_message; simpl; tauto
    | match goal with
      | |- sends_well_formed _ (match ?o with _ => _ end) => destruct o
      | |- sends_well_formed _ (if ?b then _ else _) => destruct b
      end ].

Ltac answers :=
  intros req w r w';
  match goal with
  | |- ?h ?q w = _ -> _ =>
      revert w r w'; change (sends_well_formed well_formed (h q))
  end;
  unfold res_json, res_status_json; sends.

(** Every response of the handlers is well formed, but that of
    [getCourseById]. *)
Lemma handlers_answer_well_formed `{C : Crypto} :
  answers_well_formed register
  /\ answers_well_formed login
  /\ (forall B, answers_well_formed (@getAllUsers B))
  /\ answers_well_formed createCourse
  /\ (forall B, answers_well_formed (@getAllCourses B))
  /\ answers_well_formed updateCourse
  /\ (forall B, answers_well_formed (@deleteCourse B))
  /\ answers_well_formed createTeacher
  /\ (forall B, answers_well_formed (@getAllTeachers B))
  /\ (forall B, answers_well_formed (@getTeacherById B))
  /\ answers_well_formed updateTeacher
  /\ (forall B, answers_well_formed (@deleteTeacher B))
  /\ answers_well_formed createStudent
  /\ (forall B, answers_well_formed (@getAllStudents B))
  /\ (forall B, answers_well_formed (@getStudentById B))
  /\ answers_well_formed updateStudent
  /\ (forall B, answers_well_formed (@deleteStudent B)).
Proof.
  repeat match goal with |- _ /\ _ => split end;
    try lazymatch goal with |- forall B : Type, _ => intros B end.
  all: answers.
Qed.

(** ** C7 *)

(** C7, where the code departs from it.  For an id that is not in the store
    [getCourseById] answers 404 with the body [{ messsage: 'Not found' }]:
    the key is misspelt, so the body has neither a [message] nor an [error]
    key.  The same request to [getTeacherById] and [getStudentById] is
    answered with [{ message: 'Not found' }]. *)
Theorem C7_course_not_found_has_no_message :
  fst (getCourseById (Example.get 7 no_query)
         (Example.world (Example.school true)))
  = Normal (mkResponse 404 (JObj [("messsage", JStr "Not found")]))
  /\ has_key "message" (JObj [("messsage", JStr "Not found")]) = false
  /\ has_key "error" (JObj [("messsage", JStr "Not found")]) = false
  /\ ~ well_formed (mkResponse 404 (JObj [("messsage", JStr "Not found")]))
  /\ fst (getTeacherById (Example.get 7 no_query)
            (Example.world (Example.school true)))
     = Normal (mkResponse 404 (JObj [("message", JStr "Not found")]))
  /\ fst (getStudentById (Example.get 7 no_query)
            (Example.world (Example.school true)))
     = Normal (mkResponse 404 (JObj [("message", JStr "Not found")])).
Proof.
  repeat split.
  intros [_ [H | [H | [H | H]]]]; discriminate H.
Qed.

(* ================================================================== *)
(** * Further properties of the handlers *)

(** ** What a computation keeps *)

Lemma keeps_ret {A} I (a : A) : keeps I (ret a).
Proof. intros w H. exact H. Qed.

Lemma keeps_bind {A B} I (m : Async A) (k : A -> Async B) :
  keeps I m -> (forall a, keeps I (k a)) -> keeps I (bind m k).
Proof.
  intros Hm Hk w H. unfold bind. specialize (Hm w H).
  destruct (m w) as [[a|e] w1]; simpl in *; [|exact Hm].
  exact (Hk a w1 Hm).
Qed.

Lemma keeps_try_catch I (body : Async Response) :
  keeps I body -> keeps I (try_catch body on_error).
Proof.
  intros Hb w H. unfold try_catch. specialize (Hb w H).
  destruct (body w) as [[r|e] w1]; exact Hb.
Qed.

Lemma keeps_persistence {A} I (op : Database -> Completion (A * Database)) :
  (forall d a d', I d -> op d = Normal (a, d') -> I d') ->
  keeps I (persistence op).
Proof.
  intros Hop w H.
  destruct (persistence_cases op w) as [(a & d & -> & O) | (m & ->)]; simpl.
  - exact (Hop _ _ _ H O).
  - exact H.
Qed.

Lemma keeps_reading {A} I (f : Database -> Completion A) :
  keeps I (persistence (reading f)).
Proof.
  apply keeps_persistence. intros d a d' H E. unfold reading in E.
  destruct (f d); inversion E; now subst.
Qed.

Lemma keeps_pure {A} I (m : Async A) :
  (forall w, snd (m w) = w) -> keeps I m.
Proof. intros Hm w H. now rewrite Hm. Qed.

Lemma keeps_never_writes {Req} (h : Req -> Async Response) :
  (forall d req, keeps (fun d' => d' = d) (h req)) -> never_writes h.
Proof. intros H req w. exact (H (db w) req w eq_refl). Qed.

Ltac keeps_body :=
  unfold count, findAll, findByPk, User_findOne_where_email,
    User_findAll_attributes, bcrypt_compare_async, res_json, res_status_json;
  repeat first
    [ apply keeps_try_catch
    | apply keeps_ret
    | apply keeps_reading
    | apply keeps_bind; [| intros ? ]
    | match goal with
      | |- keeps _ (match ?o with _ => _ end) => destruct o
      | |- keeps _ (if ?b then _ else _) => destruct b
      end ].

(** ** Handlers that only read *)

(** The list and get-by-id handlers of the three resources, [getAllUsers]
    and [login] never change the store, whatever the request and whether the
    persistence layer fails or not. *)
Theorem read_handlers_never_write `{C : Crypto} :
  (forall B, never_writes (@getAllCourses B))
  /\ (forall B, never_writes (@getCourseById B))
  /\ (forall B, never_writes (@getAllTeachers B))
  /\ (forall B, never_writes (@getTeacherById B))
  /\ (forall B, never_writes (@getAllStudents B))
  /\ (forall B, never_writes (@getStudentById B))
  /\ (forall B, never_writes (@getAllUsers B))
  /\ never_writes login.
Proof.
  repeat match goal with |- _ /\ _ => split end;
    try lazymatch goal with |- forall B : Type, _ => intros B end;
    apply keeps_never_writes; intros d req.
  all: try (unfold getAllCourses, getCourseById, getAllTeachers,
              getTeacherById, getAllStudents, getStudentById, getAllUsers;
            keeps_body; fail).
  unfold login. keeps_body.
  apply keeps_pure. intros w. reflexivity.
Qed.

(** ** Primary keys *)

Lemma NoDup_map_filter {A B} (f : A -> B) (g : A -> bool) (l : list A) :
  NoDup (map f l) -> NoDup (map f (filter g l)).
Proof.
  induction l as [|x t IH]; simpl; intros H; [constructor|].
  inversion H as [|? ? Hx Ht]; subst.
  destruct (g x); simpl; [|now apply IH].
  constructor; [|now apply IH].
  intros Hi. apply Hx. apply in_map_iff in Hi.
  destruct Hi as (y & Ey & Hy). apply filter_In in Hy.
  rewrite <- Ey. apply in_map. tauto.
Qed.

Section Keys.

Context {R : Type} `{M : Model R}.

Hypothesis pk_build : forall id t (v : Values), pk (build id t v) = id.
Hypothesis pk_set : forall (p : Patch) (r : R), pk (set p r) = pk r.
Hypothesis table_set_table :
  forall (t : Table R) d, table (set_table t d) = t.

Lemma keyed_fresh floor d (r : R) :
  keyed R floor d -> In r (rows (table d)) -> pk r <> next_id (table d).
Proof.
  intros (_ & Hb & _) Hi. rewrite Forall_forall in Hb.
  specialize (Hb r Hi). lia.
Qed.

Lemma keeps_create floor (values : Values) :
  keeps (keyed R floor) (create (R := R) values).
Proof.
  intros w H. unfold create.
  match goal with
  | |- context [persistence ?op w] =>
      apply (keeps_persistence (keyed R floor) op); [|exact H]
  end.
  clear H. intros d a d' (Hn & Hb & Hf) E. inversion E; subst; clear E.
  unfold keyed. rewrite table_set_table. simpl.
  rewrite map_app. simpl. rewrite pk_build. repeat split.
  - apply NoDup_app_remove_l with (l := []). simpl.
    apply Permutation_NoDup
      with (l := next_id (table d) :: map pk (rows (table d))).
    + apply Permutation_cons_append.
    + constructor; [|exact Hn].
      intros Hi. apply in_map_iff in Hi. destruct Hi as (r & Er & Hr).
      rewrite Forall_forall in Hb. specialize (Hb r Hr). lia.
  - apply Forall_app. split.
    + eapply Forall_impl; [|exact Hb]. simpl. intros; lia.
    + constructor; [rewrite pk_build; lia | constructor].
  - lia.
Qed.

Lemma map_pk_set (p : Patch) id (l : list R) :
  map pk (map (fun r => if pk r =? id then set p r else r) l) = map pk l.
Proof.
  rewrite map_map. apply map_ext. intros r.
  destruct (pk r =? id); [apply pk_set | reflexivity].
Qed.

Lemma keeps_update floor (i : Instance R) (patch : Patch) :
  keeps (keyed R floor) (update i patch).
Proof.
  unfold update. apply keeps_persistence.
  intros d a d' (Hn & Hb & Hf) E. inversion E; subst; clear E.
  unfold keyed. rewrite table_set_table. simpl.
  rewrite map_pk_set. repeat split; [exact Hn | | exact Hf].
  rewrite Forall_forall in *. intros r Hr.
  apply in_map_iff in Hr. destruct Hr as (x & <- & Hx).
  destruct (pk x =? pk (dataValues i)); [rewrite pk_set|]; now apply Hb.
Qed.

Lemma keeps_destroy floor (i : Instance R) :
  keeps (keyed R floor) (destroy i).
Proof.
  unfold destroy. apply keeps_persistence.
  intros d a d' (Hn & Hb & Hf) E. inversion E; subst; clear E.
  unfold keyed. rewrite table_set_table. simpl.
  repeat split; [now apply NoDup_map_filter | | exact Hf].
  rewrite Forall_forall in *. intros r Hr.
  apply filter_In in Hr. now apply Hb.
Qed.

End Keys.

Ltac keeps_keyed :=
  unfold count, findAll, findByPk, res_json, res_status_json;
  repeat first
    [ apply keeps_try_catch
    | apply keeps_ret
    | apply keeps_reading
    | apply keeps_create; reflexivity
    | apply keeps_update; reflexivity
    | apply keeps_destroy; reflexivity
    | apply keeps_bind; [| intros ? ]
    | match goal with
      | |- keeps _ (match ?o with _ => _ end) => destruct o
      end ].

(** Every handler of a resource keeps the primary keys of its table
    pairwise distinct and below the auto-increment counter, and never lets
    the counter decrease (so that an id, once given, is not given again),
    whatever the request and whether the persistence layer fails or not. *)
Theorem handlers_keep_primary_keys (floor : Z) :
  (maintains (keyed Course floor) createCourse
   /\ (forall B, maintains (keyed Course floor) (@getAllCourses B))
   /\ (forall B, maintains (keyed Course floor) (@getCourseById B))
   /\ maintains (keyed Course floor) updateCourse
   /\ (forall B, maintains (keyed Course floor) (@deleteCourse B)))
  /\ (maintains (keyed Teacher floor) createTeacher
      /\ (forall B, maintains (keyed Teacher floor) (@getAllTeachers B))
      /\ (forall B, maintains (keyed Teacher floor) (@getTeacherById B))
      /\ maintains (keyed Teacher floor) updateTeacher
      /\ (forall B, maintains (keyed Teacher floor) (@deleteTeacher B)))
  /\ (maintains (keyed Student floor) createStudent
      /\ (forall B, maintains (keyed Student floor) (@getAllStudents B))
      /\ (forall B, maintains (keyed Student floor) (@getStudentById B))
      /\ maintains (keyed Student floor) updateStudent
      /\ (forall B, maintains (keyed Student floor) (@deleteStudent B))).
Proof.
  repeat match goal with |- _ /\ _ => split end;
    try lazymatch goal with |- forall B : Type, _ => intros B end;
    intros req;
    match goal with |- forall w, _ -> ?I (db (snd (?h w))) =>
      change (keeps I h) end.
  all: unfold createCourse, getAllCourses, getCourseById, updateCourse,
         deleteCourse, createTeacher, getAllTeachers, getTeacherById,
         updateTeacher, deleteTeacher, createStudent, getAllStudents,
         getStudentById, updateStudent, deleteStudent;
       keeps_keyed.
Qed.

Lemma handlers_keep_primary_keys_witness :
  keyed Course 4
    (db (snd (createCourse
                (Example.post (mkCourseValues "Topology" "Spaces" 1))
                (Example.world (Example.school true))))).
Proof.
  apply (handlers_keep_primary_keys 4). unfold keyed. simpl.
  repeat split.
  - repeat constructor; simpl; intuition discriminate.
  - repeat constructor.
  - lia.
Defined.

(** ** Creating, finding and deleting a record *)

Lemma createCourse_view (req : Request CourseValues) :
  createCourse req = try_catch (create_query (R := Course) (body req)) on_error.
Proof. reflexivity. Qed.

Lemma createTeacher_view (req : Request TeacherValues) :
  createTeacher req = try_catch (create_query (R := Teacher) (body req)) on_error.
Proof. reflexivity. Qed.

Lemma createStudent_view (req : Request StudentValues) :
  createStudent req = try_catch (create_query (R := Student) (body req)) on_error.
Proof. reflexivity. Qed.

Lemma deleteCourse_view {B} (req : Request B) :
  deleteCourse req = try_catch (destroy_query (R := Course) (params_id req)) on_error.
Proof. reflexivity. Qed.

Lemma deleteTeacher_view {B} (req : Request B) :
  deleteTeacher req = try_catch (destroy_query (R := Teacher) (params_id req)) on_error.
Proof. reflexivity. Qed.

Lemma deleteStudent_view {B} (req : Request B) :
  deleteStudent req = try_catch (destroy_query (R := Student) (params_id req)) on_error.
Proof. reflexivity. Qed.

Section Store.

Context {R : Type} `{M : Model R}.

Hypothesis pk_build : forall id t (v : Values), pk (build id t v) = id.
Hypothesis createdAt_build :
  forall id t (v : Values), createdAt (build id t v) = t.
Hypothesis table_set_table :
  forall (t : Table R) d, table (set_table t d) = t.

Lemma find_pk_app j (l : list R) (r : R) :
  find (fun x => pk x =? j) (l ++ [r]) =
  match find (fun x => pk x =? j) l with
  | Some x => Some x
  | None => if pk r =? j then Some r else None
  end.
Proof.
  induction l as [|x t IH]; simpl; [reflexivity|].
  destruct (pk x =? j); [reflexivity | exact IH].
Qed.

Lemma find_pk_filter j id (l : list R) :
  find (fun x => pk x =? j) (filter (fun x => negb (pk x =? id)) l) =
  if j =? id then None else find (fun x => pk x =? j) l.
Proof.
  induction l as [|x t IH]; simpl.
  - now destruct (j =? id).
  - destruct (pk x =? id) eqn:Ex; simpl.
    + rewrite IH. destruct (j =? id) eqn:Ej; [reflexivity|].
      now replace (pk x =? j) with false by lia.
    + destruct (pk x =? j) eqn:Exj.
      * now replace (j =? id) with false by lia.
      * exact IH.
Qed.

Lemma find_pk_fresh floor d j :
  keyed R floor d -> next_id (table d) <= j ->
  find (fun x => pk x =? j) (rows (table d)) = None.
Proof.
  intros (_ & Hb & _) Hj.
  destruct (find _ _) as [x|] eqn:E; [|reflexivity].
  apply find_some in E. destruct E as [Hi Hx].
  rewrite Forall_forall in Hb. specialize (Hb x Hi). simpl in Hx. lia.
Qed.

Lemma length_filter_pk id (l : list R) (c : R) :
  NoDup (map pk l) ->
  find (fun x => pk x =? id) l = Some c ->
  (List.length (filter (fun x => negb (pk x =? id)%Z) l) + 1 = List.length l)%nat.
Proof.
  induction l as [|x t IH]; simpl; intros Hn Hf; [discriminate|].
  inversion Hn as [|? ? Hx Ht]; subst.
  destruct (pk x =? id) eqn:Ex; simpl.
  - assert (E : filter (fun x0 => negb (pk x0 =? id)) t = t).
    { apply forallb_filter_id. apply forallb_forall. intros y Hy.
      destruct (pk y =? id) eqn:Ey; [|reflexivity].
      exfalso. apply Hx. replace (pk x) with (pk y) by lia.
      now apply in_map. }
    rewrite E. lia.
  - rewrite <- (IH Ht Hf). lia.
Qed.

Lemma create_query_quiet w (values : Values) :
  quiet w ->
  try_catch (create_query (R := R) values) on_error w =
  (Normal (mkResponse 201
             (JObj (attributes (build (next_id (table (db w))) (now w) values)))),
   with_db
     (set_table
        (mkTable (rows_of R w
                  ++ [build (next_id (table (db w))) (now w) values])
                 (next_id (table (db w)) + 1)) (db w))
     (next_call w)).
Proof.
  intros Hq. unfold try_catch, create_query, bind, create.
  rewrite persistence_quiet by exact Hq. simpl.
  unfold toJSON. simpl. now rewrite app_nil_r.
Qed.

Lemma create_query_created floor w (values : Values) :
  quiet w ->
  keyed R floor (db w) ->
  created_outcome R w (try_catch (create_query (R := R) values) on_error w)
    (build (next_id (table (db w))) (now w) values).
Proof.
  intros Hq Hk. rewrite create_query_quiet by exact Hq.
  unfold created_outcome, lookup, rows_of. simpl.
  rewrite table_set_table, pk_build, createdAt_build. simpl.
  repeat split. intros j. rewrite find_pk_app, pk_build.
  destruct (j =? next_id (table (db w))) eqn:Ej.
  - rewrite (find_pk_fresh floor (db w) j Hk) by lia.
    now replace (next_id (table (db w)) =? j) with true by lia.
  - replace (next_id (table (db w)) =? j) with false by lia.
    now destruct (find _ _).
Qed.

Lemma destroy_query_not_found w id :
  quiet w ->
  lookup R w id = None ->
  not_found_outcome w (try_catch (destroy_query (R := R) id) on_error w).
Proof.
  intros Hq Hn. unfold try_catch, destroy_query, bind, findByPk.
  rewrite persistence_quiet by exact Hq.
  unfold reading. simpl. unfold lookup, rows_of in Hn. rewrite Hn.
  split; reflexivity.
Qed.

Lemma destroy_query_world w id (c : R) :
  quiet w ->
  lookup R w id = Some c ->
  try_catch (destroy_query (R := R) id) on_error w =
  (Normal (mkResponse 200 (JObj [("message", JStr "Deleted")])),
   with_db
     (set_table
        (mkTable (filter (fun x => negb (pk x =? id)) (rows_of R w))
                 (next_id (table (db w)))) (db w))
     (next_call (next_call w))).
Proof.
  intros Hq Hc. unfold try_catch, destroy_query, bind, findByPk.
  rewrite persistence_quiet by exact Hq.
  unfold reading. simpl.
  pose proof Hc as Hf. unfold lookup, rows_of in Hf. rewrite Hf. simpl.
  unfold destroy. rewrite persistence_quiet
    by (apply quiet_with_db, quiet_next_call, Hq).
  simpl.
  assert (Hid : pk c = id).
  { apply find_some in Hf. destruct Hf as [_ Hf]. simpl in Hf. lia. }
  now rewrite Hid.
Qed.

Lemma destroy_query_deleted floor w id (c : R) :
  quiet w ->
  keyed R floor (db w) ->
  lookup R w id = Some c ->
  deleted_outcome R id w (try_catch (destroy_query (R := R) id) on_error w).
Proof.
  intros Hq (Hn & _) Hc. rewrite (destroy_query_world w id c Hq Hc).
  unfold deleted_outcome, lookup, rows_of. simpl.
  rewrite table_set_table. simpl. repeat split.
  - intros j. apply find_pk_filter.
  - now apply length_filter_pk with (c := c).
Qed.

End Store.

Section Lifecycle.

Context {R : Type} `{M : Model R}.

Hypothesis pk_build : forall id t (v : Values), pk (build id t v) = id.
Hypothesis createdAt_build :
  forall id t (v : Values), createdAt (build id t v) = t.
Hypothesis pk_set : forall (p : Patch) (r : R), pk (set p r) = pk r.
Hypothesis table_set_table :
  forall (t : Table R) d, table (set_table t d) = t.

Lemma find_query_lookup w id key :
  quiet w ->
  fst (try_catch (find_query (R := R) [] id key) on_error w) =
  Normal match lookup R w id with
         | Some c => mkResponse 200 (JObj (attributes c))
         | None => mkResponse 404 (JObj [(key, JStr "Not found")])
         end.
Proof.
  intros Hq. rewrite (find_query_ok w [] [] id key Hq eq_refl).
  unfold lookup. simpl. destruct (find _ _); [|reflexivity].
  now rewrite toJSON_load_nil.
Qed.

Lemma create_query_quiet_after w (values : Values) :
  quiet w -> quiet (snd (try_catch (create_query (R := R) values) on_error w)).
Proof.
  intros Hq. rewrite create_query_quiet by exact Hq. simpl.
  now apply quiet_with_db, quiet_next_call.
Qed.

Lemma create_then_find floor w (values : Values) key :
  quiet w ->
  keyed R floor (db w) ->
  fst (try_catch
         (find_query (R := R) [] (next_id (table (db w))) key) on_error
         (snd (try_catch (create_query (R := R) values) on_error w)))
  = Normal (mkResponse 200
              (JObj (attributes (build (next_id (table (db w))) (now w) values)))).
Proof.
  intros Hq Hk.
  rewrite find_query_lookup by now apply create_query_quiet_after.
  destruct (create_query_created pk_build createdAt_build table_set_table
              floor w values Hq Hk) as (_ & Hp & _ & _ & _ & Hl).
  rewrite Hl, Hp, Z.eqb_refl. reflexivity.
Qed.





End Lifecycle.

(** A record that a create handler has stored is found again.  As long as
    the persistence layer does not fail and the ids of the table are below
    its counter, [createCourse], [createTeacher] and [createStudent] answer
    201 with a new record that has the next id, the fields of the body and
    the time of the clock; the record is appended to its table, no other
    record of the table changes, and a get-by-id of the new id, with no
    populate parameter, answers 200 with the same record. *)
Theorem create_then_get_by_id (w : World) (floor : Z) :
  quiet w ->
  (keyed Course floor (db w) ->
   forall req : Request CourseValues,
   exists c,
     created_outcome Course w (createCourse req w) c
     /\ course_title c = cv_title (body req)
     /\ course_description c = cv_description (body req)
     /\ course_TeacherId c = cv_TeacherId (body req)
     /\ forall B (q : Request B),
          params_id q = course_id c -> q_populate (query q) = None ->
          fst (getCourseById q (snd (createCourse req w)))
          = Normal (mkResponse 200 (JObj (Course_attributes c))))
  /\ (keyed Teacher floor (db w) ->
      forall req : Request TeacherValues,
      exists t,
        created_outcome Teacher w (createTeacher req w) t
        /\ teacher_name t = tv_name (body req)
        /\ teacher_department t = tv_department (body req)
        /\ forall B (q : Request B),
             params_id q = teacher_id t -> q_populate (query q) = None ->
             fst (getTeacherById q (snd (createTeacher req w)))
             = Normal (mkResponse 200 (JObj (Teacher_attributes t))))
  /\ (keyed Student floor (db w) ->
      forall req : Request StudentValues,
      exists s,
        created_outcome Student w (createStudent req w) s
        /\ student_name s = sv_name (body req)
        /\ student_email s = sv_email (body req)
        /\ forall B (q : Request B),
             params_id q = student_id s -> q_populate (query q) = None ->
             fst (getStudentById q (snd (createStudent req w)))
             = Normal (mkResponse 200 (JObj (Student_attributes s)))).
Proof.
  intros Hq. split; [|split]; intros Hk req.
  - pose proof (create_query_created (R := Course)
                  (fun _ _ _ => eq_refl) (fun _ _ _ => eq_refl)
                  (fun _ _ => eq_refl) floor w (body req) Hq Hk) as Ho.
    eexists. rewrite createCourse_view. split; [exact Ho|].
    repeat split. intros B q Hid Hp.
    rewrite getCourseById_view, Hid, Hp.
    exact (create_then_find (R := Course)
             (fun _ _ _ => eq_refl) (fun _ _ _ => eq_refl)
             (fun _ _ => eq_refl) floor w (body req) "messsage" Hq Hk).
  - pose proof (create_query_created (R := Teacher)
                  (fun _ _ _ => eq_refl) (fun _ _ _ => eq_refl)
                  (fun _ _ => eq_refl) floor w (body req) Hq Hk) as Ho.
    eexists. rewrite createTeacher_view. split; [exact Ho|].
    repeat split. intros B q Hid Hp.
    rewrite getTeacherById_view, Hid, Hp.
    exact (create_then_find (R := Teacher)
             (fun _ _ _ => eq_refl) (fun _ _ _ => eq_refl)
             (fun _ _ => eq_refl) floor w (body req) "message" Hq Hk).
  - pose proof (create_query_created (R := Student)
                  (fun _ _ _ => eq_refl) (fun _ _ _ => eq_refl)
                  (fun _ _ => eq_refl) floor w (body req) Hq Hk) as Ho.
    eexists. rewrite createStudent_view. split; [exact Ho|].
    repeat split. intros B q Hid Hp.
    rewrite getStudentById_view, Hid, Hp.
    exact (create_then_find (R := Student)
             (fun _ _ _ => eq_refl) (fun _ _ _ => eq_refl)
             (fun _ _ => eq_refl) floor w (body req) "message" Hq Hk).
Qed.

Lemma create_then_get_by_id_witness :
  exists s,
    created_outcome Student (Example.world Example.empty_school)
      (createStudent (Example.post (mkStudentValues "Ana" "ana@x.com"))
         (Example.world Example.empty_school)) s
    /\ student_id s = 1
    /\ fst (getStudentById (Example.get 1 no_query)
              (snd (createStudent
                      (Example.post (mkStudentValues "Ana" "ana@x.com"))
                      (Example.world Example.empty_school))))
       = Normal (mkResponse 200 (JObj (Student_attributes s))).
Proof.
  destruct (create_then_get_by_id (Example.world Example.empty_school) 1)
    as (_ & _ & Hs); [constructor|].
  destruct (Hs ltac:(unfold keyed; simpl; repeat split;
                     [constructor | constructor | lia])
              (Example.post (mkStudentValues "Ana" "ana@x.com")))
    as (s & Ho & _ & _ & Hg).
  exists s. split; [exact Ho|].
  assert (Hid : student_id s = 1) by (destruct Ho as (_ & Hp & _); exact Hp).
  split; [exact Hid|].
  apply Hg; [now rewrite Hid | reflexivity].
Defined.

(** *** The values of the populate parameter *)

Lemma append_empty (s : string) : (s ++ EmptyString)%string = s.
Proof. induction s; simpl; [reflexivity | now f_equal]. Qed.

Lemma split_from_value cur v r :
  no_comma v ->
  JS.split_from cur (v ++ String ","%char r)%string
  = (cur ++ v)%string :: JS.split_from EmptyString r.
Proof.
  revert cur. induction v as [|c v' IH]; intros cur H.
  - simpl. now rewrite append_empty.
  - destruct H as [Hc Hv]. cbn [append JS.split_from].
    destruct (Ascii.eqb c ",") eqn:E; [apply Ascii.eqb_eq in E; contradiction|].
    rewrite IH by exact Hv. now rewrite append_last.
Qed.

(** Splitting the comma-joined text of values gives the values back. *)
Lemma split_comma_concat v vs :
  Forall no_comma (v :: vs) ->
  JS.split_comma (String.concat "," (v :: vs)) = v :: vs.
Proof.
  revert v. induction vs as [|x xs IH]; intros v H.
  - simpl. apply split_comma_no_comma. now inversion H.
  - inversion H as [|? ? Hv Hr]; subst.
    change (String.concat "," (v :: x :: xs))
      with (v ++ String ","%char (String.concat "," (x :: xs)))%string.
    unfold JS.split_comma. rewrite split_from_value by exact Hv.
    simpl append. f_equal. apply IH. exact Hr.
Qed.

Lemma concat_empty v vs :
  String.concat "," (v :: vs) = EmptyString -> v = EmptyString /\ vs = [].
Proof.
  destruct vs as [|x xs]; simpl.
  - now intros ->.
  - destruct v; discriminate.
Qed.

(** A name is among the values that the handler reads from the populate
    parameter exactly when it is among the values of its text. *)
Lemma populate_values_In p vs v :
  populate_values p vs -> v <> EmptyString ->
  (In v (populateArray_of p) <-> In v vs).
Proof.
  intros [[-> ->] | [Hf ->]] Hv; [simpl; tauto|].
  unfold populateArray_of.
  destruct vs as [|x xs]; [simpl; tauto|].
  destruct (String.concat "," (x :: xs)) eqn:E.
  - apply concat_empty in E. destruct E as [-> ->]. simpl.
    split; [tauto | intros [H | []]; congruence].
  - cbn [JS.truthy JS.ToString]. rewrite <- E.
    now rewrite split_comma_concat.
Qed.




(** ** Deleting *)

(** As long as the persistence layer does not fail, [deleteCourse],
    [deleteTeacher] and [deleteStudent] answer 404 and leave the store
    unchanged when no record has the id.  Otherwise, the ids of the table
    being distinct, they answer 200 with a confirmation: the record is no
    longer found, every other record of the table is found as before, the
    table has one row less and its id counter is unchanged. *)
Theorem delete_removes_the_record {B} (req : Request B) (w : World)
    (floor : Z) :
  quiet w ->
  (match lookup Course w (params_id req) with
   | None => not_found_outcome w (deleteCourse req w)
   | Some _ =>
       keyed Course floor (db w) ->
       deleted_outcome Course (params_id req) w (deleteCourse req w)
   end)
  /\ (match lookup Teacher w (params_id req) with
      | None => not_found_outcome w (deleteTeacher req w)
      | Some _ =>
          keyed Teacher floor (db w) ->
          deleted_outcome Teacher (params_id req) w (deleteTeacher req w)
      end)
  /\ (match lookup Student w (params_id req) with
      | None => not_found_outcome w (deleteStudent req w)
      | Some _ =>
          keyed Student floor (db w) ->
          deleted_outcome Student (params_id req) w (deleteStudent req w)
      end).
Proof.
  intros Hq.
  rewrite deleteCourse_view, deleteTeacher_view, deleteStudent_view.
  split; [|split].
  - destruct (lookup Course w (params_id req)) as [c|] eqn:E.
    + intros Hk.
      exact (destroy_query_deleted (R := Course) (fun _ _ => eq_refl)
               floor w _ c Hq Hk E).
    + now apply destroy_query_not_found.
  - destruct (lookup Teacher w (params_id req)) as [c|] eqn:E.
    + intros Hk.
      exact (destroy_query_deleted (R := Teacher) (fun _ _ => eq_refl)
               floor w _ c Hq Hk E).
    + now apply destroy_query_not_found.
  - destruct (lookup Student w (params_id req)) as [c|] eqn:E.
    + intros Hk.
      exact (destroy_query_deleted (R := Student) (fun _ _ => eq_refl)
               floor w _ c Hq Hk E).
    + now apply destroy_query_not_found.
Qed.

Lemma delete_removes_the_record_witness :
  deleted_outcome Course 2 (Example.world (Example.school true))
    (deleteCourse (Example.get 2 no_query)
       (Example.world (Example.school true)))
  /\ not_found_outcome (Example.world (Example.school true))
       (deleteCourse (Example.get 9 no_query)
          (Example.world (Example.school true))).
Proof.
  split.
  - destruct (delete_removes_the_record (Example.get 2 no_query)
                (Example.world (Example.school true)) 4) as (Hc & _);
      [constructor|].
    apply Hc. unfold keyed. simpl. repeat split.
    + repeat constructor; simpl; intuition discriminate.
    + repeat constructor.
    + lia.
  - apply (delete_removes_the_record (Example.get 9 no_query)
             (Example.world (Example.school true)) 4). constructor.
Defined.



(** ** Updating *)

Section UpdateAgain.

Context {R : Type} `{M : Model R}.

Hypothesis pk_set : forall (p : Patch) (r : R), pk (set p r) = pk r.
Hypothesis set_set : forall (p : Patch) (r : R), set p (set p r) = set p r.
Hypothesis table_set_table :
  forall (t : Table R) d, table (set_table t d) = t.
Hypothesis set_table_set_table :
  forall (t t' : Table R) d, set_table t' (set_table t d) = set_table t' d.

Lemma update_query_world w id (patch : Patch) :
  quiet w ->
  try_catch (update_query (R := R) id patch) on_error w =
  match lookup R w id with
  | None =>
      (Normal (mkResponse 404 (JObj [("message", JStr "Not found")])),
       next_call w)
  | Some c =>
      (Normal (mkResponse 200 (JObj (attributes (set patch c)))),
       with_db
         (set_table
            (mkTable (map (fun r => if pk r =? id then set patch r else r)
                        (rows_of R w))
                     (next_id (table (db w)))) (db w))
         (next_call (next_call w)))
  end.
Proof.
  intros Hq. unfold try_catch, update_query, bind, findByPk.
  rewrite persistence_quiet by exact Hq.
  unfold reading, lookup, rows_of. simpl.
  destruct (find _ _) as [c|] eqn:Hf; simpl.
  - unfold update. rewrite persistence_quiet
      by (apply quiet_with_db, quiet_next_call, Hq).
    simpl.
    assert (Hid : pk c = id).
    { apply find_some in Hf. destruct Hf as [_ Hf]. simpl in Hf. lia. }
    rewrite Hid. unfold toJSON. simpl. rewrite app_nil_r.
    rewrite <- (with_db_same (next_call w)) at 2. reflexivity.
  - rewrite <- (with_db_same (next_call w)) at 2. reflexivity.
Qed.

Lemma update_query_quiet_after w id (patch : Patch) :
  quiet w ->
  quiet (snd (try_catch (update_query (R := R) id patch) on_error w)).
Proof.
  intros Hq. rewrite update_query_world by exact Hq.
  destruct (lookup R w id); simpl.
  - apply quiet_with_db. now do 2 apply quiet_next_call.
  - now apply quiet_next_call.
Qed.

Lemma update_query_lookup_after w id (patch : Patch) :
  quiet w ->
  lookup R (snd (try_catch (update_query (R := R) id patch) on_error w)) id
  = option_map (set patch) (lookup R w id).
Proof.
  intros Hq. rewrite update_query_world by exact Hq.
  destruct (lookup R w id) as [c|] eqn:E; simpl.
  - unfold lookup, rows_of in *. simpl. rewrite table_set_table. simpl.
    rewrite (find_after_set pk_set), Z.eqb_refl, E. reflexivity.
  - exact E.
Qed.

Lemma update_then_find w id (patch : Patch) key (c : R) :
  quiet w ->
  lookup R w id = Some c ->
  fst (try_catch (find_query (R := R) [] id key) on_error
         (snd (try_catch (update_query (R := R) id patch) on_error w)))
  = Normal (mkResponse 200 (JObj (attributes (set patch c)))).
Proof.
  intros Hq Hc.
  rewrite find_query_lookup by now apply update_query_quiet_after.
  rewrite update_query_lookup_after by exact Hq. now rewrite Hc.
Qed.

Lemma map_set_twice (patch : Patch) id (l : list R) :
  map (fun r => if pk r =? id then set patch r else r)
    (map (fun r => if pk r =? id then set patch r else r) l)
  = map (fun r => if pk r =? id then set patch r else r) l.
Proof.
  rewrite map_map. apply map_ext. intros r.
  destruct (pk r =? id) eqn:E.
  - rewrite pk_set, E. apply set_set.
  - now rewrite E.
Qed.

Lemma update_query_twice w id (patch : Patch) :
  quiet w ->
  fst (try_catch (update_query (R := R) id patch) on_error
         (snd (try_catch (update_query (R := R) id patch) on_error w)))
  = fst (try_catch (update_query (R := R) id patch) on_error w)
  /\ db (snd (try_catch (update_query (R := R) id patch) on_error
                (snd (try_catch (update_query (R := R) id patch) on_error w))))
     = db (snd (try_catch (update_query (R := R) id patch) on_error w)).
Proof.
  intros Hq.
  rewrite (update_query_world
             (snd (try_catch (update_query id patch) on_error w)))
    by now apply update_query_quiet_after.
  rewrite update_query_lookup_after by exact Hq.
  rewrite (update_query_world w) by exact Hq.
  destruct (lookup R w id) as [c|]; simpl; [|now split].
  rewrite set_set. split; [reflexivity|].
  unfold rows_of. simpl. rewrite table_set_table. simpl.
  rewrite map_set_twice. apply set_table_set_table.
Qed.

Lemma update_query_unchanged w id (patch : Patch) (c : R) :
  (forall r, set patch r = r) ->
  quiet w ->
  lookup R w id = Some c ->
  fst (try_catch (update_query (R := R) id patch) on_error w)
  = Normal (mkResponse 200 (JObj (attributes c)))
  /\ rows_of R (snd (try_catch (update_query (R := R) id patch) on_error w))
     = rows_of R w.
Proof.
  intros He Hq Hc. rewrite update_query_world by exact Hq. rewrite Hc. simpl.
  rewrite He. split; [reflexivity|].
  unfold rows_of. simpl. rewrite table_set_table. simpl.
  rewrite <- (map_id (rows (table (db w)))) at 2.
  apply map_ext. intros r. destruct (pk r =? id); [apply He | reflexivity].
Qed.

End UpdateAgain.

Lemma Course_set_set (p : CoursePatch) (c : Course) :
  @set Course Course_Model p (@set Course Course_Model p c)
  = @set Course Course_Model p c.
Proof. destruct p as [[t|] [d|] [i|]]; reflexivity. Qed.

Lemma Teacher_set_set (p : TeacherPatch) (t : Teacher) :
  @set Teacher Teacher_Model p (@set Teacher Teacher_Model p t)
  = @set Teacher Teacher_Model p t.
Proof. destruct p as [[n|] [d|]]; reflexivity. Qed.

Lemma Student_set_set (p : StudentPatch) (s : Student) :
  @set Student Student_Model p (@set Student Student_Model p s)
  = @set Student Student_Model p s.
Proof. destruct p as [[n|] [e|]]; reflexivity. Qed.

(** A [PUT] whose body names no field changes nothing.  As long as the
    persistence layer does not fail, [updateCourse], [updateTeacher] and
    [updateStudent] with an empty body answer 200 with the stored record as
    it is and leave every row of the table as it was. *)
Theorem update_with_empty_body_changes_nothing (w : World) :
  quiet w ->
  (forall (req : Request CoursePatch) c,
     body req = mkCoursePatch None None None ->
     lookup Course w (params_id req) = Some c ->
     fst (updateCourse req w)
     = Normal (mkResponse 200 (JObj (Course_attributes c)))
     /\ rows_of Course (snd (updateCourse req w)) = rows_of Course w)
  /\ (forall (req : Request TeacherPatch) t,
        body req = mkTeacherPatch None None ->
        lookup Teacher w (params_id req) = Some t ->
        fst (updateTeacher req w)
        = Normal (mkResponse 200 (JObj (Teacher_attributes t)))
        /\ rows_of Teacher (snd (updateTeacher req w)) = rows_of Teacher w)
  /\ (forall (req : Request StudentPatch) s,
        body req = mkStudentPatch None None ->
        lookup Student w (params_id req) = Some s ->
        fst (updateStudent req w)
        = Normal (mkResponse 200 (JObj (Student_attributes s)))
        /\ rows_of Student (snd (updateStudent req w)) = rows_of Student w).
Proof.
  intros Hq. split; [|split]; intros req c Hb Hc.
  - rewrite updateCourse_view, Hb.
    apply (update_query_unchanged (R := Course) (M := Course_Model) (fun _ _ => eq_refl));
      [intros []; reflexivity | exact Hq | exact Hc].
  - rewrite updateTeacher_view, Hb.
    apply (update_query_unchanged (R := Teacher) (M := Teacher_Model) (fun _ _ => eq_refl));
      [intros []; reflexivity | exact Hq | exact Hc].
  - rewrite updateStudent_view, Hb.
    apply (update_query_unchanged (R := Student) (M := Student_Model) (fun _ _ => eq_refl));
      [intros []; reflexivity | exact Hq | exact Hc].
Qed.

Lemma update_with_empty_body_changes_nothing_witness :
  fst (updateCourse (Example.put 2 (mkCoursePatch None None None))
         (Example.world (Example.school true)))
  = Normal (mkResponse 200 (JObj (Course_attributes Example.logic)))
  /\ rows_of Course
       (snd (updateCourse (Example.put 2 (mkCoursePatch None None None))
               (Example.world (Example.school true))))
     = [Example.algebra; Example.logic; Example.sets].
Proof.
  destruct (update_with_empty_body_changes_nothing
              (Example.world (Example.school true))) as (Hc & _);
    [constructor|].
  apply (Hc (Example.put 2 (mkCoursePatch None None None)) Example.logic);
    reflexivity.
Defined.

(** An update is idempotent.  As long as the persistence layer does not
    fail, sending the same [PUT] a second time is answered as the first one
    was and leaves the store as the first one left it. *)
Theorem update_is_idempotent (w : World) :
  quiet w ->
  (forall req : Request CoursePatch,
     fst (updateCourse req (snd (updateCourse req w)))
     = fst (updateCourse req w)
     /\ db (snd (updateCourse req (snd (updateCourse req w))))
        = db (snd (updateCourse req w)))
  /\ (forall req : Request TeacherPatch,
        fst (updateTeacher req (snd (updateTeacher req w)))
        = fst (updateTeacher req w)
        /\ db (snd (updateTeacher req (snd (updateTeacher req w))))
           = db (snd (updateTeacher req w)))
  /\ (forall req : Request StudentPatch,
        fst (updateStudent req (snd (updateStudent req w)))
        = fst (updateStudent req w)
        /\ db (snd (updateStudent req (snd (updateStudent req w))))
           = db (snd (updateStudent req w))).
Proof.
  intros Hq. split; [|split]; intros req.
  - rewrite !updateCourse_view.
    exact (update_query_twice (R := Course) (M := Course_Model) (fun _ _ => eq_refl)
             Course_set_set (fun _ _ => eq_refl) (fun _ _ _ => eq_refl)
             w _ _ Hq).
  - rewrite !updateTeacher_view.
    exact (update_query_twice (R := Teacher) (M := Teacher_Model) (fun _ _ => eq_refl)
             Teacher_set_set (fun _ _ => eq_refl) (fun _ _ _ => eq_refl)
             w _ _ Hq).
  - rewrite !updateStudent_view.
    exact (update_query_twice (R := Student) (M := Student_Model) (fun _ _ => eq_refl)
             Student_set_set (fun _ _ => eq_refl) (fun _ _ _ => eq_refl)
             w _ _ Hq).
Qed.

Lemma update_is_idempotent_witness :
  db (snd (updateTeacher (Example.put 1 (mkTeacherPatch None (Some "Logic")))
             (snd (updateTeacher
                     (Example.put 1 (mkTeacherPatch None (Some "Logic")))
                     (Example.world (Example.school true))))))
  = db (snd (updateTeacher (Example.put 1 (mkTeacherPatch None (Some "Logic")))
               (Example.world (Example.school true)))).
Proof.
  destruct (update_is_idempotent (Example.world (Example.school true)))
    as (_ & Ht & _); [constructor|].
  apply Ht.
Defined.

(** An updated record is what a get-by-id then returns.  As long as the
    persistence layer does not fail, after an update of a stored record, a
    get-by-id of the same id with no populate parameter is answered with
    the response that the update gave. *)
Theorem update_then_get_by_id (w : World) :
  quiet w ->
  (forall (req : Request CoursePatch) c B (q : Request B),
     lookup Course w (params_id req) = Some c ->
     params_id q = params_id req -> q_populate (query q) = None ->
     fst (getCourseById q (snd (updateCourse req w)))
     = fst (updateCourse req w))
  /\ (forall (req : Request TeacherPatch) t B (q : Request B),
        lookup Teacher w (params_id req) = Some t ->
        params_id q = params_id req -> q_populate (query q) = None ->
        fst (getTeacherById q (snd (updateTeacher req w)))
        = fst (updateTeacher req w))
  /\ (forall (req : Request StudentPatch) s B (q : Request B),
        lookup Student w (params_id req) = Some s ->
        params_id q = params_id req -> q_populate (query q) = None ->
        fst (getStudentById q (snd (updateStudent req w)))
        = fst (updateStudent req w)).
Proof.
  intros Hq. split; [|split]; intros req c B q Hc Hid Hp.
  - rewrite getCourseById_view, updateCourse_view, Hid, Hp.
    rewrite (update_then_find (R := Course) (M := Course_Model) (fun _ _ => eq_refl)
               (fun _ _ => eq_refl) w _ (body req) _ c Hq Hc).
    rewrite (update_query_world (R := Course) (M := Course_Model) w _ _ Hq), Hc. reflexivity.
  - rewrite getTeacherById_view, updateTeacher_view, Hid, Hp.
    rewrite (update_then_find (R := Teacher) (M := Teacher_Model) (fun _ _ => eq_refl)
               (fun _ _ => eq_refl) w _ (body req) _ c Hq Hc).
    rewrite (update_query_world (R := Teacher) (M := Teacher_Model) w _ _ Hq), Hc. reflexivity.
  - rewrite getStudentById_view, updateStudent_view, Hid, Hp.
    rewrite (update_then_find (R := Student) (M := Student_Model) (fun _ _ => eq_refl)
               (fun _ _ => eq_refl) w _ (body req) _ c Hq Hc).
    rewrite (update_query_world (R := Student) (M := Student_Model) w _ _ Hq), Hc. reflexivity.
Qed.

Lemma update_then_get_by_id_witness :
  fst (getStudentById (Example.get 1 no_query)
         (snd (updateStudent
                 (Example.put 1 (mkStudentPatch (Some "Ana Maria") None))
                 (Example.world (Example.school true)))))
  = fst (updateStudent
           (Example.put 1 (mkStudentPatch (Some "Ana Maria") None))
           (Example.world (Example.school true))).
Proof.
  destruct (update_then_get_by_id (Example.world (Example.school true)))
    as (_ & _ & Hs); [constructor|].
  apply (Hs (Example.put 1 (mkStudentPatch (Some "Ana Maria") None))
           Example.ana); reflexivity.
Defined.

(** ** Users *)

(** [getAllUsers] never exposes a password hash.  As long as the
    persistence layer does not fail it answers 200 with one object per
    user, in the order of the table, made of the id, the name and the email
    of the user and of nothing else. *)
Theorem getAllUsers_hides_passwords {B} (req : Request B) (w : World) :
  quiet w ->
  exists items,
    fst (getAllUsers req w) = Normal (mkResponse 200 (JArr items))
    /\ items = map (fun u => JObj [("id", JNum (user_id u));
                                   ("name", JStr (user_name u));
                                   ("email", JStr (user_email u))])
                 (users_of w)
    /\ Forall (fun item => keys item = ["id"; "name"; "email"]
                           /\ has_key "password" item = false) items
    /\ db (snd (getAllUsers req w)) = db w.
Proof.
  intros Hq. unfold getAllUsers, bind, User_findAll_attributes.
  rewrite persistence_quiet by exact Hq. unfold reading. simpl.
  eexists. split; [reflexivity|]. split; [reflexivity|]. split; [|reflexivity].
  apply Forall_forall. intros item Hi. apply in_map_iff in Hi.
  destruct Hi as (u & <- & _). split; reflexivity.
Qed.

Lemma getAllUsers_hides_passwords_witness :
  fst (getAllUsers (Example.get 0 no_query)
         (Example.world (Example.school true)))
  = Normal (mkResponse 200
              (JArr [JObj [("id", JNum 1); ("name", JStr "Virak");
                           ("email", JStr "virak@gmail.com")]])).
Proof.
  destruct (getAllUsers_hides_passwords (Example.get 0 no_query)
              (Example.world (Example.school true)))
    as (items & Hr & -> & _); [constructor|].
  exact Hr.
Defined.

Lemma find_email_appended email (l : list User) (u : User) :
  (forall x, In x l -> user_email x <> email) ->
  user_email u = email ->
  find (fun x => String.eqb (user_email x) email) (l ++ [u]) = Some u.
Proof.
  intros Hn He. induction l as [|x t IH]; simpl.
  - now rewrite He, String.eqb_refl.
  - destruct (String.eqb (user_email x) email) eqn:E.
    + apply String.eqb_eq in E. exfalso. apply (Hn x); simpl; auto.
    + apply IH. intros y Hy. apply Hn. simpl; auto.
Qed.

(** Whoever has registered can log in.  As long as the persistence layer
    does not fail and bcrypt verifies a password against its own hash, a
    [register] with a new email followed by a [login] with the same email
    and password is answered 200, with the identity that the registration
    returned and a token for it; a [login] with a password that does not
    verify against the stored hash is answered 401. *)
Theorem register_then_login `{C : Crypto} (req : Request Credentials)
    (w : World) :
  quiet w ->
  (forall u, In u (users_of w) -> user_email u <> cred_email (body req)) ->
  bcrypt_compare (cred_password (body req))
    (bcrypt_hash (cred_password (body req)) 10 (salt w)) = true ->
  exists u,
    fst (register req w)
    = Normal (mkResponse 201
                (JObj [("message", JStr "User registered successfully");
                       ("user", public_identity u)]))
    /\ fst (login req (snd (register req w)))
       = Normal (mkResponse 200
                   (JObj [("token",
                           JStr (jws_sign
                                   (token_payload u (snd (register req w)))
                                   (SELECT w)));
                          ("user", public_identity u)]))
    /\ (forall attempt : Request Credentials,
          cred_email (body attempt) = cred_email (body req) ->
          bcrypt_compare (cred_password (body attempt)) (user_password u)
          = false ->
          fst (login attempt (snd (register req w)))
          = Normal (mkResponse 401
                      (JObj [("message", JStr "Invalid credentials")]))).
Proof.
  intros Hq Hn Hv.
  rewrite (register_new req w Hq Hn). cbn [fst snd].
  eexists. split; [reflexivity|].
  assert (Hq' : quiet
                  (with_db
                     (with_Users
                        (mkTable
                           (users_of w
                            ++ [mkUser (next_id (Users (db w)))
                                  (cred_name (body req))
                                  (cred_email (body req))
                                  (bcrypt_hash (cred_password (body req)) 10
                                     (salt w))])
                           (next_id (Users (db w)) + 1)) (db w))
                     (next_call (next_call w))))
    by (apply quiet_with_db; now do 2 apply quiet_next_call).
  split.
  - rewrite (login_quiet req _ Hq'). unfold users_of at 1. simpl.
    rewrite find_email_appended by (exact Hn || reflexivity).
    simpl. rewrite Hv. reflexivity.
  - intros attempt He Hbad.
    rewrite (login_quiet attempt _ Hq'). unfold users_of at 1. simpl.
    rewrite He, find_email_appended by (exact Hn || reflexivity).
    simpl in *. rewrite Hbad. reflexivity.
Qed.

Lemma register_then_login_witness :
  exists u,
    fst (login (Example.post (mkCredentials "Dara" "dara@gmail.com" "pw"))
           (snd (register
                   (Example.post (mkCredentials "Dara" "dara@gmail.com" "pw"))
                   (Example.world (Example.school true)))))
    = Normal (mkResponse 200
                (JObj [("token",
                        JStr (jws_sign
                                (token_payload u
                                   (snd (register
                                           (Example.post
                                              (mkCredentials "Dara"
                                                 "dara@gmail.com" "pw"))
                                           (Example.world
                                              (Example.school true)))))
                                "virak123"));
                       ("user", public_identity u)])).
Proof.
  destruct (register_then_login
              (Example.post (mkCredentials "Dara" "dara@gmail.com" "pw"))
              (Example.world (Example.school true)))
    as (u & _ & Hl & _).
  - constructor.
  - intros u [<- | []]. discriminate.
  - reflexivity.
  - exists u. exact Hl.
Defined.

Lemma register_keeps_emails_unique_witness :
  unique_emails
    (snd (register (Example.post (mkCredentials "Dara" "dara@gmail.com" "pw"))
            (Example.world (Example.school true)))).
Proof.
  apply register_keeps_emails_unique.
  - constructor.
  - repeat constructor. simpl. tauto.
Defined.

Lemma register_twice_witness :
  fst (register (Example.post (mkCredentials "Dara" "dara@gmail.com" "pw"))
         (snd (register
                 (Example.post (mkCredentials "Dara" "dara@gmail.com" "pw"))
                 (Example.world (Example.school true)))))
  = Normal (mkResponse 400 (JObj [("message", JStr "Email already exists")])).
Proof.
  apply register_twice.
  - constructor.
  - intros u [<- | []]. discriminate.
Defined.

(** ** More on lists *)

Lemma firstn_plus {A} (a b : nat) (l : list A) :
  firstn (a + b) l = (firstn a l ++ firstn b (skipn a l))%list.
Proof.
  revert l. induction a as [|a IH]; intros l; simpl; [reflexivity|].
  destruct l as [|x t]; simpl.
  - now rewrite firstn_nil.
  - now rewrite IH.
Qed.

Section ListMore.

Context {R : Type} `{M : Model R}.

Lemma list_query_data w incl loaders limit page sort :
  quiet w ->
  resolve (R := R) incl = Normal loaders ->
  1 <= page -> 1 <= limit ->
  exists r,
    fst (try_catch (list_query (R := R) incl limit page sort) on_error w)
    = Normal r
    /\ status r = 200
    /\ data_of r
       = Some (map toJSON
                 (map (load (db w) loaders)
                    (firstn (Z.to_nat limit)
                       (skipn (Z.to_nat ((page - 1) * limit))
                          (sort_by (order_le sort) (rows_of R w))))))
    /\ meta_of "totalPages" r
       = Some (JNum (JS.Math_ceil
                       (JS.div (Z.of_nat (List.length (rows_of R w))) limit))).
Proof.
  intros Hq Hr Hp Hl.
  assert (Ha : accepted w limit ((page - 1) * limit)) by (right; nia).
  rewrite (list_query_ok w incl loaders _ _ _ Hq Hr Ha).
  eexists. split; [reflexivity|]. split; [reflexivity|].
  unfold data_of, meta_of. simpl. rewrite window_in_range by lia.
  split; reflexivity.
Qed.

Lemma length_sort_by le (l : list R) :
  List.length (sort_by le l) = List.length l.
Proof. apply Permutation_length, sort_by_perm. Qed.

Lemma list_query_page_size (q : Query) incl w :
  quiet w ->
  (exists loaders, resolve (R := R) incl = Normal loaders) ->
  1 <= page_of q -> 1 <= limit_of q ->
  exists r,
    fst (try_catch
           (list_query (R := R) incl (limit_of q) (page_of q) (sort_of q))
           on_error w) = Normal r
    /\ status r = 200
    /\ page_size R q w r
    /\ page_within_total q r.
Proof.
  intros Hq [loaders Hr] Hp Hl.
  destruct (list_query_data w incl loaders _ _ (sort_of q) Hq Hr Hp Hl)
    as (r & E & Hs & Hd & Hm).
  exists r. split; [exact E|]. split; [exact Hs|].
  assert (Hlen : Z.of_nat
                   (List.length
                      (map toJSON
                         (map (load (db w) loaders)
                            (firstn (Z.to_nat (limit_of q))
                               (skipn (Z.to_nat ((page_of q - 1) * limit_of q))
                                  (sort_by (order_le (sort_of q))
                                     (rows_of R w)))))))
                 = Z.min (limit_of q)
                     (Z.max 0 (Z.of_nat (List.length (rows_of R w))
                               - offset_of q))).
  { rewrite !length_map, length_firstn, length_skipn, length_sort_by.
    unfold offset_of.
    assert (Ho : 0 <= (page_of q - 1) * limit_of q) by nia.
    set (o := (page_of q - 1) * limit_of q) in *. lia. }
  split.
  - eexists. split; [exact Hd | exact Hlen].
  - do 2 eexists. split; [exact Hd|]. split; [exact Hm|].
    pose proof (Math_ceil_div_spec (Z.of_nat (List.length (rows_of R w)))
                  (limit_of q) Hl) as Hc.
    unfold offset_of in Hlen.
    split.
    + intros Hne.
      destruct (map toJSON _) as [|x t] eqn:Ex; [contradiction|].
      simpl in Hlen. nia.
    + intros Hk Hnil. rewrite Hnil in Hlen. simpl in Hlen. nia.
Qed.

Lemma page_data_list_query (h : Request unit -> Async Response)
    incl loaders w page limit sort populate :
  (forall req, h req =
     try_catch (list_query (R := R) (incl (q_populate (query req)))
                  (limit_of (query req)) (page_of (query req))
                  (sort_of (query req))) on_error) ->
  quiet w ->
  resolve (R := R) (incl populate) = Normal loaders ->
  1 <= page -> 1 <= limit ->
  page_data h (page_query page limit sort populate) w
  = map toJSON
      (map (load (db w) loaders)
         (firstn (Z.to_nat limit)
            (skipn (Z.to_nat ((page - 1) * limit))
               (sort_by (order_le (sort_of (mkQuery None None sort None)))
                  (rows_of R w))))).
Proof.
  intros Hh Hq Hr Hp Hl. unfold page_data. rewrite Hh. simpl.
  assert (El : limit_of (page_query page limit sort populate) = limit).
  { unfold limit_of, page_query. simpl. rewrite parseInt_render_Z by lia.
    destruct limit; simpl; lia. }
  assert (Ep : page_of (page_query page limit sort populate) = page).
  { unfold page_of, page_query. simpl. rewrite parseInt_render_Z by lia.
    destruct page; simpl; lia. }
  rewrite El, Ep.
  destruct (list_query_data w (incl populate) loaders limit page
              (sort_of (page_query page limit sort populate)) Hq Hr Hp Hl)
    as (r & -> & _ & -> & _).
  reflexivity.
Qed.

Lemma walk_list_query (h : Request unit -> Async Response)
    incl loaders w limit sort populate n :
  (forall req, h req =
     try_catch (list_query (R := R) (incl (q_populate (query req)))
                  (limit_of (query req)) (page_of (query req))
                  (sort_of (query req))) on_error) ->
  quiet w ->
  resolve (R := R) (incl populate) = Normal loaders ->
  1 <= limit ->
  walk h limit sort populate w n
  = map toJSON
      (map (load (db w) loaders)
         (firstn (n * Z.to_nat limit)
            (sort_by (order_le (sort_of (mkQuery None None sort None)))
               (rows_of R w)))).
Proof.
  intros Hh Hq Hr Hl. induction n as [|k IH]; [reflexivity|].
  cbn [walk]. rewrite IH.
  rewrite (page_data_list_query h incl loaders w _ _ _ _ Hh Hq Hr) by lia.
  rewrite <- !map_app. do 2 f_equal.
  replace (S k * Z.to_nat limit)%nat with (k * Z.to_nat limit + Z.to_nat limit)%nat
    by lia.
  rewrite firstn_plus. do 2 f_equal.
  replace (Z.of_nat (S k) - 1) with (Z.of_nat k) by lia.
  rewrite Z2Nat.inj_mul by lia. now rewrite Nat2Z.id.
Qed.

Lemma walk_is_one_page (h : Request unit -> Async Response)
    incl w limit sort populate n :
  (forall req, h req =
     try_catch (list_query (R := R) (incl (q_populate (query req)))
                  (limit_of (query req)) (page_of (query req))
                  (sort_of (query req))) on_error) ->
  quiet w ->
  (exists loaders, resolve (R := R) (incl populate) = Normal loaders) ->
  1 <= limit ->
  walk h limit sort populate w (S n)
  = page_data h (page_query 1 (Z.of_nat (S n) * limit) sort populate) w.
Proof.
  intros Hh Hq [loaders Hr] Hl.
  rewrite (walk_list_query h incl loaders w _ _ _ _ Hh Hq Hr Hl).
  rewrite (page_data_list_query h incl loaders w _ _ _ _ Hh Hq Hr) by nia.
  simpl skipn. do 3 f_equal.
  rewrite Z2Nat.inj_mul by lia. now rewrite Nat2Z.id.
Qed.

End ListMore.

(** The size of a page.  As long as the persistence layer does not fail, a
    list request with page and limit at least 1 (and, with the offset, at
    most [MAX_SAFE_INTEGER]) is answered with exactly
    [min(limit, max(0, totalItems - offset))] records: a full page, the rest
    of the rows on the last page, and none past the end. *)
Theorem list_page_size {B} (req : Request B) (w : World) :
  quiet w ->
  1 <= page_of (query req) ->
  1 <= limit_of (query req) ->
  in_range (query req) ->
  (exists r, fst (getAllCourses req w) = Normal r
             /\ status r = 200 /\ page_size Course (query req) w r)
  /\ (exists r, fst (getAllTeachers req w) = Normal r
                /\ status r = 200 /\ page_size Teacher (query req) w r)
  /\ (exists r, fst (getAllStudents req w) = Normal r
                /\ status r = 200 /\ page_size Student (query req) w r).
Proof.
  intros Hq Hp Hl _.
  rewrite getAllCourses_view, getAllTeachers_view, getAllStudents_view.
  split; [|split].
  - destruct (list_query_page_size (R := Course) (query req)
                (Course_includeOptions (q_populate (query req))) w Hq
                (Course_includeOptions_resolve _) Hp Hl)
      as (r & E & Hs & Hz & _).
    now exists r.
  - destruct (list_query_page_size (R := Teacher) (query req)
                (courses_includeOptions (q_populate (query req))) w Hq
                (Teacher_includeOptions_resolve _) Hp Hl)
      as (r & E & Hs & Hz & _).
    now exists r.
  - destruct (list_query_page_size (R := Student) (query req)
                (courses_includeOptions (q_populate (query req))) w Hq
                (Student_includeOptions_resolve _) Hp Hl)
      as (r & E & Hs & Hz & _).
    now exists r.
Qed.

Lemma list_page_size_witness :
  exists r,
    fst (getAllCourses
           (Example.get 0 (mkQuery (Some "2") (Some "2") None None))
           (Example.world (Example.school true))) = Normal r
    /\ page_size Course (mkQuery (Some "2") (Some "2") None None)
         (Example.world (Example.school true)) r.
Proof.
  destruct (list_page_size
              (Example.get 0 (mkQuery (Some "2") (Some "2") None None))
              (Example.world (Example.school true)))
    as ((r & E & _ & Hz) & _).
  - constructor.
  - vm_compute. discriminate.
  - vm_compute. discriminate.
  - split; vm_compute; discriminate.
  - now exists r.
Defined.

(** [totalPages] tells which pages have records.  As long as the
    persistence layer does not fail, a list request with page and limit at
    least 1 (and, with the offset, at most [MAX_SAFE_INTEGER]) is answered
    with a non-empty [data] exactly when its page is at most the
    [totalPages] of the answer. *)
Theorem list_has_records_up_to_totalPages {B} (req : Request B) (w : World) :
  quiet w ->
  1 <= page_of (query req) ->
  1 <= limit_of (query req) ->
  in_range (query req) ->
  (exists r, fst (getAllCourses req w) = Normal r
             /\ page_within_total (query req) r)
  /\ (exists r, fst (getAllTeachers req w) = Normal r
                /\ page_within_total (query req) r)
  /\ (exists r, fst (getAllStudents req w) = Normal r
                /\ page_within_total (query req) r).
Proof.
  intros Hq Hp Hl _.
  rewrite getAllCourses_view, getAllTeachers_view, getAllStudents_view.
  split; [|split].
  - destruct (list_query_page_size (R := Course) (query req)
                (Course_includeOptions (q_populate (query req))) w Hq
                (Course_includeOptions_resolve _) Hp Hl)
      as (r & E & _ & _ & Ht).
    now exists r.
  - destruct (list_query_page_size (R := Teacher) (query req)
                (courses_includeOptions (q_populate (query req))) w Hq
                (Teacher_includeOptions_resolve _) Hp Hl)
      as (r & E & _ & _ & Ht).
    now exists r.
  - destruct (list_query_page_size (R := Student) (query req)
                (courses_includeOptions (q_populate (query req))) w Hq
                (Student_includeOptions_resolve _) Hp Hl)
      as (r & E & _ & _ & Ht).
    now exists r.
Qed.

Lemma list_has_records_up_to_totalPages_witness :
  exists r,
    fst (getAllCourses
           (Example.get 0 (mkQuery (Some "3") (Some "2") None None))
           (Example.world (Example.school true))) = Normal r
    /\ page_within_total (mkQuery (Some "3") (Some "2") None None) r.
Proof.
  destruct (list_has_records_up_to_totalPages
              (Example.get 0 (mkQuery (Some "3") (Some "2") None None))
              (Example.world (Example.school true)))
    as ((r & E & Ht) & _).
  - constructor.
  - vm_compute. discriminate.
  - vm_compute. discriminate.
  - split; vm_compute; discriminate.
  - now exists r.
Defined.

(** With distinct creation times there is one sorted order only: whatever
    order the engine gives to rows of equal time, it has no choice to make. *)
Lemma sorted_order_is_unique {R} `{Model R} dir (l1 l2 : list R) :
  NoDup (map createdAt l1) ->
  Permutation l1 l2 ->
  StronglySorted (in_order dir) l1 ->
  StronglySorted (in_order dir) l2 ->
  l1 = l2.
Proof.
  revert l2. induction l1 as [|a t IH]; intros l2 Hn Hp H1 H2.
  - now apply Permutation_nil in Hp.
  - destruct l2 as [|b t2];
      [apply Permutation_sym, Permutation_nil in Hp; discriminate|].
    inversion Hn as [|? ? Ha Hn']; subst.
    inversion H1 as [|? ? Hs1 Hf1]; subst.
    inversion H2 as [|? ? Hs2 Hf2]; subst.
    assert (E : a = b).
    { assert (Ib : In b (a :: t))
        by (eapply Permutation_in;
            [apply Permutation_sym, Hp | now left]).
      assert (Ia : In a (b :: t2))
        by (eapply Permutation_in; [apply Hp | now left]).
      destruct Ib as [Eb | Ib]; [exact Eb|].
      destruct Ia as [Ea | Ia]; [now symmetry|].
      rewrite Forall_forall in Hf1, Hf2.
      pose proof (Hf1 b Ib) as Hab. pose proof (Hf2 a Ia) as Hba.
      unfold in_order, order_le in Hab, Hba.
      exfalso. apply Ha.
      replace (createdAt a) with (createdAt b)
        by (destruct (String.eqb dir "ASC"); lia).
      now apply in_map. }
    subst b. f_equal. apply IH; auto.
    now apply Permutation_cons_inv in Hp.
Qed.

(** Paging through a list.  As long as the persistence layer does not fail
    and the creation times of the rows are pairwise distinct, the records of
    the pages 1 to [n] of size [limit] (with [n * limit] at most
    [MAX_SAFE_INTEGER]), requested one after the other on the same store and
    put end to end, are the records of the single page 1 of size
    [n * limit]: consecutive pages neither overlap nor leave a gap. *)
Theorem walking_the_pages (w : World) (limit : Z) (sort populate : option string)
    (n : nat) :
  quiet w ->
  1 <= limit ->
  Z.of_nat (S n) * limit <= JS.MAX_SAFE_INTEGER ->
  (distinct_times Course w ->
   walk (@getAllCourses unit) limit sort populate w (S n)
   = page_data (@getAllCourses unit)
       (page_query 1 (Z.of_nat (S n) * limit) sort populate) w)
  /\ (distinct_times Teacher w ->
      walk (@getAllTeachers unit) limit sort populate w (S n)
      = page_data (@getAllTeachers unit)
          (page_query 1 (Z.of_nat (S n) * limit) sort populate) w)
  /\ (distinct_times Student w ->
      walk (@getAllStudents unit) limit sort populate w (S n)
      = page_data (@getAllStudents unit)
          (page_query 1 (Z.of_nat (S n) * limit) sort populate) w).
Proof.
  intros Hq Hl _. split; [|split]; intros _.
  - apply (walk_is_one_page (R := Course) _ Course_includeOptions);
      auto using Course_includeOptions_resolve.
  - apply (walk_is_one_page (R := Teacher) _ courses_includeOptions);
      auto using Teacher_includeOptions_resolve.
  - apply (walk_is_one_page (R := Student) _ courses_includeOptions);
      auto using Student_includeOptions_resolve.
Qed.

Lemma walking_the_pages_witness :
  walk (@getAllCourses unit) 2 (Some "asc") None
    (Example.world (Example.school true)) 2
  = map (fun c => JObj (Course_attributes c))
      [Example.algebra; Example.sets; Example.logic].
Proof.
  destruct (walking_the_pages (Example.world (Example.school true)) 2
              (Some "asc") None 1) as (Hc & _).
  - constructor.
  - lia.
  - vm_compute. discriminate.
  - rewrite Hc; [reflexivity|].
    repeat constructor; simpl; intuition discriminate.
Defined.

(** The direction in the envelope.  Every 200 response of a list handler
    reports [sort] as ["asc"] when the sort parameter is exactly [asc] and
    as ["desc"] in every other case: absent, [desc], or any other text,
    [ASC] included. *)
Theorem list_sort_is_asc_or_desc {B} (req : Request B) (w w' : World)
    (r : Response) :
  getAllCourses req w = (Normal r, w')
  \/ getAllTeachers req w = (Normal r, w')
  \/ getAllStudents req w = (Normal r, w') ->
  status r = 200 ->
  (q_sort (query req) = Some "asc" -> meta_of "sort" r = Some (JStr "asc"))
  /\ (q_sort (query req) <> Some "asc"
      -> meta_of "sort" r = Some (JStr "desc")).
Proof.
  intros E Hs.
  assert (Hm : meta_of "sort" r
               = Some (JStr (JS.toLowerCase (sort_of (query req))))).
  { destruct E as [E | [E | E]];
      [rewrite getAllCourses_view in E | rewrite getAllTeachers_view in E
       | rewrite getAllStudents_view in E];
      destruct (list_query_200 _ _ _ _ _ _ _ E Hs) as (data & Hj & _);
      unfold meta_of; rewrite Hj; reflexivity. }
  rewrite Hm. unfold sort_of. split.
  - intros ->. reflexivity.
  - intros Hn. destruct (q_sort (query req)) as [s|]; [|reflexivity].
    simpl. destruct (String.eqb s "asc") eqn:Es; [|reflexivity].
    apply String.eqb_eq in Es. congruence.
Qed.

Lemma list_sort_is_asc_or_desc_witness :
  meta_of "sort" (mkResponse 200 (envelope 0 1 10 "DESC" []))
  = Some (JStr "desc").
Proof.
  refine (proj2 (list_sort_is_asc_or_desc
                   (Example.get 0 (mkQuery None None (Some "ASC") None))
                   (Example.world Example.empty_school) _
                   (mkResponse 200 (envelope 0 1 10 "DESC" [])) _ _) _).
  - left. reflexivity.
  - reflexivity.
  - discriminate.
Defined.

(** ** More on populate *)

(** Only the set of whitelisted names among the populate values matters.
    Two populate parameters, the comma-joined texts of the values [vs] and
    [vs'], give the same handler as soon as the same whitelisted names are
    among [vs] and among [vs']: the order of the values in the text, their
    repetition and the other values around them change nothing. *)
Theorem populate_depends_on_whitelisted_names_only {B} (req : Request B)
    (p p' : option string) (vs vs' : list string) :
  populate_values p vs ->
  populate_values p' vs' ->
  ((forall v, In v Course_whitelist -> In v vs <-> In v vs') ->
   getAllCourses (with_populate p req) = getAllCourses (with_populate p' req)
   /\ getCourseById (with_populate p req)
      = getCourseById (with_populate p' req))
  /\ ((forall v, In v courses_whitelist -> In v vs <-> In v vs') ->
      getAllTeachers (with_populate p req)
      = getAllTeachers (with_populate p' req)
      /\ getTeacherById (with_populate p req)
         = getTeacherById (with_populate p' req)
      /\ getAllStudents (with_populate p req)
         = getAllStudents (with_populate p' req)
      /\ getStudentById (with_populate p req)
         = getStudentById (with_populate p' req)).
Proof.
  intros Hp Hp'. split; intros H.
  - rewrite !getAllCourses_view, !getCourseById_view. simpl.
    rewrite (Course_includeOptions_ext p p'); [now split|].
    intros v Hv.
    assert (Hne : v <> EmptyString)
      by (destruct Hv as [<- | [<- | []]]; discriminate).
    rewrite (populate_values_In p vs v Hp Hne),
      (populate_values_In p' vs' v Hp' Hne).
    now apply H.
  - rewrite !getAllTeachers_view, !getTeacherById_view,
      !getAllStudents_view, !getStudentById_view. simpl.
    rewrite (courses_includeOptions_ext p p'); [now repeat split|].
    intros v Hv.
    assert (Hne : v <> EmptyString)
      by (destruct Hv as [<- | []]; discriminate).
    rewrite (populate_values_In p vs v Hp Hne),
      (populate_values_In p' vs' v Hp' Hne).
    now apply H.
Qed.

Lemma populate_depends_on_whitelisted_names_only_witness :
  getAllCourses
    (with_populate (Some "student,x,teacher,student") (Example.get 0 no_query))
  = getAllCourses
      (with_populate (Some "teacher,student") (Example.get 0 no_query)).
Proof.
  destruct (populate_depends_on_whitelisted_names_only
              (Example.get 0 no_query)
              (Some "student,x,teacher,student") (Some "teacher,student")
              ["student"; "x"; "teacher"; "student"] ["teacher"; "student"])
    as (Hc & _).
  - right. split; [repeat constructor; discriminate | reflexivity].
  - right. split; [repeat constructor; discriminate | reflexivity].
  - apply Hc. intros v [<- | [<- | []]]; simpl; intuition discriminate.
Defined.

(** ** Requests that do not succeed *)

Lemma settles_ret {A} (ok : A -> Prop) d0 (a : A) : settles ok d0 (ret a).
Proof. intros w H. now right. Qed.

Lemma settles_read_bind {A B} (ok : B -> Prop) d0
    (f : Database -> Completion A) (k : A -> Async B) :
  (forall a, settles ok d0 (k a)) ->
  settles ok d0 (bind (persistence (reading f)) k).
Proof.
  intros Hk w H. unfold bind.
  destruct (persistence_cases (reading f) w)
    as [(a & d & -> & O) | (m & ->)]; [|exact H].
  apply Hk. simpl. unfold reading in O.
  destruct (f (db w)); inversion O. congruence.
Qed.

Lemma settles_write_bind {A B} (ok : B -> Prop) d0
    (op : Database -> Completion (A * Database)) (k : A -> B) :
  (forall a, ok (k a)) ->
  settles ok d0 (bind (persistence op) (fun a => ret (k a))).
Proof.
  intros Hk w H. unfold bind.
  destruct (persistence_cases op w) as [(a & d & -> & O) | (m & ->)].
  - left. apply Hk.
  - exact H.
Qed.

Lemma settles_create_bind {R} `{Model R} {B} (ok : B -> Prop) d0
    (values : Values) (k : Instance R -> B) :
  (forall a, ok (k a)) ->
  settles ok d0 (bind (create (R := R) values) (fun a => ret (k a))).
Proof.
  intros Hk w Hw. unfold bind, create.
  match goal with
  | |- context [persistence ?op w] =>
      destruct (persistence_cases op w) as [(a & d & -> & O) | (m & ->)]
  end.
  - left. apply Hk.
  - exact Hw.
Qed.

Lemma settles_try_catch d0 (body : Async Response) :
  settles success d0 body -> settles success d0 (try_catch body on_error).
Proof.
  intros Hb w H. unfold try_catch. specialize (Hb w H).
  destruct (body w) as [[r|e] w1]; [exact Hb|]. simpl. now right.
Qed.

Lemma settles_changes {Req} (h : Req -> Async Response) :
  (forall d0 req, settles success d0 (h req)) -> changes_only_on_success h.
Proof.
  intros H req w r w' E Hn. specialize (H (db w) req w eq_refl).
  rewrite E in H. tauto.
Qed.

Ltac settles_body :=
  unfold count, findAll, findByPk, update, destroy, User_findOne_where_email,
    User_create, res_json, res_status_json;
  repeat first
    [ apply settles_try_catch
    | apply settles_ret
    | apply settles_read_bind; intros ?
    | apply settles_create_bind; intros ?; right; reflexivity
    | apply settles_write_bind; intros ?; (left + right); reflexivity
    | match goal with
      | |- settles _ _ (match ?o with _ => _ end) => destruct o
      end ].

(** A request that is not answered 200 or 201 has changed nothing.  The
    create, update and delete handlers of the three resources and
    [register] leave the store exactly as it was whenever they answer with
    another status (400, 404 or 500), whatever the request and whether the
    persistence layer fails or not. *)
Theorem failed_requests_change_nothing `{C : Crypto} :
  changes_only_on_success createCourse
  /\ changes_only_on_success updateCourse
  /\ (forall B, changes_only_on_success (@deleteCourse B))
  /\ changes_only_on_success createTeacher
  /\ changes_only_on_success updateTeacher
  /\ (forall B, changes_only_on_success (@deleteTeacher B))
  /\ changes_only_on_success createStudent
  /\ changes_only_on_success updateStudent
  /\ (forall B, changes_only_on_success (@deleteStudent B))
  /\ changes_only_on_success register.
Proof.
  repeat match goal with |- _ /\ _ => split end;
    try lazymatch goal with |- forall B : Type, _ => intros B end;
    apply settles_changes; intros d0 req.
  all: try (unfold createCourse, updateCourse, deleteCourse, createTeacher,
              updateTeacher, deleteTeacher, createStudent, updateStudent,
              deleteStudent;
            settles_body; fail).
  unfold register. settles_body.
  intros w Hw. unfold bind, bcrypt_hash_async.
  match goal with
  | |- context [persistence ?op w] =>
      destruct (persistence_cases op w) as [(a & d & -> & O) | (m & ->)]
  end.
  - left. right. reflexivity.
  - exact Hw.
Qed.

(** ** More on login and registration *)

(** [login] gives a token to verified users only.  Whatever the world,
    every 200 response of [login] is for a stored user who has the email of
    the request and against whose stored hash the password of the request
    verifies; the response carries the id and the email of that user and a
    token signed with a secret that is not empty. *)
Theorem login_gives_tokens_to_verified_users_only `{C : Crypto}
    (req : Request Credentials) (w w' : World) (r : Response) :
  login req w = (Normal r, w') ->
  status r = 200 ->
  exists u,
    In u (users_of w)
    /\ user_email u = cred_email (body req)
    /\ bcrypt_compare (cred_password (body req)) (user_password u) = true
    /\ json r = JObj [("token", JStr (jws_sign (token_payload u w) (SELECT w)));
                      ("user", public_identity u)]
    /\ SELECT w <> EmptyString.
Proof.
  unfold login, bind, User_findOne_where_email.
  destruct (persistence_cases
              (reading (fun d =>
                 Normal (find (fun u => String.eqb (user_email u)
                                          (cred_email (body req)))
                           (rows (Users d))))) w)
    as [(a & d & -> & O) | (m & ->)]; [|discriminate].
  unfold reading in O. inversion O; subst a d; clear O.
  destruct (find _ _) as [u|] eqn:Ef.
  - unfold bcrypt_compare_async, ret.
    destruct (bcrypt_compare _ _) eqn:Ec; simpl.
    + intros E _. inversion E; subst r w'; clear E.
      apply find_some in Ef. destruct Ef as [Hi He].
      apply String.eqb_eq in He.
      exists u. repeat split; auto.
      unfold SELECT. destruct (JWT_SECRET _) as [[|c s]|]; discriminate.
    + intros E Hs. inversion E; subst. discriminate Hs.
  - intros E Hs. inversion E; subst. discriminate Hs.
Qed.

Lemma login_gives_tokens_to_verified_users_only_witness :
  exists u,
    In u (users_of (Example.world (Example.school true)))
    /\ user_email u = "virak@gmail.com"
    /\ bcrypt_compare "name@123$" (user_password u) = true.
Proof.
  destruct (login_gives_tokens_to_verified_users_only
              (Example.post (mkCredentials "" "virak@gmail.com" "name@123$"))
              (Example.world (Example.school true))
              (next_call (Example.world (Example.school true)))
              (mkResponse 200
                 (JObj [("token",
                         JStr (jws_sign
                                 (token_payload Example.virak
                                    (Example.world (Example.school true)))
                                 "virak123"));
                        ("user", public_identity Example.virak)])))
    as (u & Hi & He & Hc & _).
  - reflexivity.
  - reflexivity.
  - exists u. split; [exact Hi|]. split; [exact He | exact Hc].
Defined.

(** [register] only ever appends.  Whatever the request and whether the
    persistence layer fails or not, after [register] the users are those
    there were, unchanged and in the same order, followed by at most one new
    user, who has the email of the request and whose password field is the
    bcrypt hash of the password; no other table changes. *)
Theorem register_only_appends `{C : Crypto} (req : Request Credentials)
    (w : World) :
  exists added,
    users_of (snd (register req w)) = (users_of w ++ added)%list
    /\ (List.length added <= 1)%nat
    /\ Forall (fun u =>
                 user_email u = cred_email (body req)
                 /\ user_password u
                    = bcrypt_hash (cred_password (body req)) 10 (salt w)
                 /\ user_id u = next_id (Users (db w))) added
    /\ with_Users (Users (db w)) (db (snd (register req w))) = db w.
Proof.
  assert (Bare : forall d : Database, with_Users (Users d) d = d)
    by (intros []; reflexivity).
  unfold register, bind, User_findOne_where_email.
  match goal with
  | |- context [persistence ?op w] =>
      destruct (persistence_cases op w) as [(a & d & -> & O) | (m & ->)]
  end.
  - unfold reading in O. inversion O; subst a d; clear O.
    destruct (find _ _) as [u|].
    + exists []. simpl. unfold users_of. simpl. rewrite app_nil_r.
      repeat split; auto.
    + unfold bcrypt_hash_async, User_create.
      match goal with
      | |- context [persistence ?op ?w1] =>
          destruct (persistence_cases op w1) as [(a & d & -> & O) | (m & ->)]
      end.
      * simpl in O. inversion O; subst a d; clear O. simpl.
        eexists [_]. unfold users_of. simpl.
        split; [reflexivity|]. split; [lia|].
        split; [repeat constructor|].
        now destruct (db w).
      * exists []. simpl. unfold users_of. simpl. rewrite app_nil_r.
        repeat split; auto.
  - exists []. simpl. unfold users_of. simpl. rewrite app_nil_r.
    repeat split; auto.
Qed.
